(** * Medoro dataplane client: signed command dispatch and response validation

    A shallow embedding of [MedoroDataplaneClient] (the command classes,
    [createSignedUrl], [parseJsonResponse] and [send]) together with the
    platform primitives the client calls ([btoa], [JSON.stringify],
    [URLSearchParams.set], ...), and the properties of the dispatch layer
    proved over it.

    Layout: part I holds every definition, part II the lemmas. *)

From Stdlib Require Import ZArith NArith QArith Lia List Ascii String.
From Stdlib Require Import DecimalZ DecimalPos DecimalN DecimalFacts.
From stdpp Require Import base list.
Import ListNotations.
Close Scope Q_scope.

Set Warnings "-register-all".

(* ===================================================================== *)
(** * Part I: definitions                                                  *)
(* ===================================================================== *)

(** ** JavaScript strings

    A JavaScript string is a sequence of UTF-16 code units.  The units are
    kept as [N] so that units above 255 (which [btoa] refuses) exist in the
    model. *)

Definition jsstring := list N.

(** [js "abc"] is the JavaScript string literal ['abc'] (ASCII only). *)
Definition js (s : string) : jsstring :=
  map N_of_ascii (list_ascii_of_string s).

(** [String.prototype.includes]: [needle] occurs in [hay]. *)
Fixpoint starts_with (needle hay : jsstring) : bool :=
  match needle, hay with
  | [], _ => true
  | _ :: _, [] => false
  | a :: n', b :: h' => (a =? b)%N && starts_with n' h'
  end.

Fixpoint includes (hay needle : jsstring) : bool :=
  starts_with needle hay ||
  match hay with
  | [] => false
  | _ :: h' => includes h' needle
  end.

(** ** Base64 ([btoa] and its inverse) *)

Module Base64.

(** The base64 alphabet: value of a sextet to its character. *)
Definition char_of_sextet (n : N) : N :=
  if (n <? 26)%N then (n + 65)%N          (* A-Z *)
  else if (n <? 52)%N then (n + 71)%N     (* a-z *)
  else if (n <? 62)%N then (n - 4)%N      (* 0-9 *)
  else if (n =? 62)%N then 43%N           (* + *)
  else 47%N.                              (* / *)

Definition sextet_of_char (c : N) : option N :=
  if ((65 <=? c) && (c <=? 90))%N then Some (c - 65)%N
  else if ((97 <=? c) && (c <=? 122))%N then Some (c - 71)%N
  else if ((48 <=? c) && (c <=? 57))%N then Some (c + 4)%N
  else if (c =? 43)%N then Some 62%N
  else if (c =? 47)%N then Some 63%N
  else None.

Definition pad : N := 61%N.               (* = *)

Fixpoint encode (s : list N) : jsstring :=
  match s with
  | [] => []
  | [a] =>
      [char_of_sextet (a / 4); char_of_sextet ((a mod 4) * 16); pad; pad]%N
  | [a; b] =>
      [char_of_sextet (a / 4); char_of_sextet ((a mod 4) * 16 + b / 16);
       char_of_sextet ((b mod 16) * 4); pad]%N
  | a :: b :: c :: r =>
      [char_of_sextet (a / 4); char_of_sextet ((a mod 4) * 16 + b / 16);
       char_of_sextet ((b mod 16) * 4 + c / 64);
       char_of_sextet (c mod 64)]%N ++ encode r
  end.

(** [btoa(s)]: raises [InvalidCharacterError] ([None] here) as soon as one
    code unit of [s] is above 0xFF, and otherwise base64-encodes the
    units taken as bytes. *)
Definition latin1 (s : jsstring) : bool := forallb (fun c => (c <=? 255)%N) s.

Definition btoa (s : jsstring) : option jsstring :=
  if latin1 s then Some (encode s) else None.

(** Decoding of padded base64 (RFC 4648), the inverse used to read the
    policy back from a signed URL. *)
Fixpoint decode (s : jsstring) : option (list N) :=
  match s with
  | [] => Some []
  | c1 :: c2 :: c3 :: c4 :: r =>
      match sextet_of_char c1, sextet_of_char c2 with
      | Some s1, Some s2 =>
          if (c4 =? pad)%N then
            match r with
            | [] =>
                if (c3 =? pad)%N then Some [(s1 * 4 + s2 / 16)%N]
                else match sextet_of_char c3 with
                     | Some s3 =>
                         Some [(s1 * 4 + s2 / 16)%N;
                               ((s2 mod 16) * 16 + s3 / 4)%N]
                     | None => None
                     end
            | _ :: _ => None
            end
          else
            match sextet_of_char c3, sextet_of_char c4, decode r with
            | Some s3, Some s4, Some bytes =>
                Some ((s1 * 4 + s2 / 16)%N
                      :: ((s2 mod 16) * 16 + s3 / 4)%N
                      :: ((s3 mod 4) * 64 + s4)%N :: bytes)
            | _, _, _ => None
            end
      | _, _ => None
      end
  | _ => None
  end.

End Base64.

(** ** JSON values, [JSON.stringify] and [JSON.parse]

    Numbers are the integer-valued ones, kept as [Z] (fractions, exponents
    and the negative zero are not modelled); an object is the list of its
    own properties in enumeration order, which for a parsed text is the
    order of the text (that JavaScript lists integer-like names first is
    not modelled). *)

Inductive json : Type :=
| JNull
| JBool (b : bool)
| JNum (n : Z)
| JStr (s : jsstring)
| JArr (elems : list json)
| JObj (members : list (jsstring * json)).

Module Json.

Definition jsstring_eqb (a b : jsstring) : bool := bool_decide (a = b).

(** Property read [o[k]] on an own-property list. *)
Fixpoint obj_get (k : jsstring) (o : list (jsstring * json)) : option json :=
  match o with
  | [] => None
  | (k', v) :: r => if jsstring_eqb k' k then Some v else obj_get k r
  end.

(** Property write [o[k] = v]: an existing property keeps its place. *)
Fixpoint obj_set (k : jsstring) (v : json) (o : list (jsstring * json))
  : list (jsstring * json) :=
  match o with
  | [] => [(k, v)]
  | (k', v') :: r =>
      if jsstring_eqb k' k then (k', v) :: r else (k', v') :: obj_set k v r
  end.

Definition obj_of_members (ms : list (jsstring * json)) : list (jsstring * json) :=
  fold_left (fun o kv => obj_set (fst kv) (snd kv) o) ms [].

(** *** Serialisation *)

Definition hex_digit (n : N) : N :=
  if (n <? 10)%N then (n + 48)%N else (n + 87)%N.   (* 0-9, a-f *)

Definition unicode_escape (c : N) : jsstring :=
  [92; 117; hex_digit (c / 4096); hex_digit ((c / 256) mod 16);
   hex_digit ((c / 16) mod 16); hex_digit (c mod 16)]%N.

Definition is_high_surrogate (c : N) : bool := ((55296 <=? c) && (c <=? 56319))%N.
Definition is_low_surrogate (c : N) : bool := ((56320 <=? c) && (c <=? 57343))%N.

(** One code unit that is not a surrogate, as [QuoteJSONString] writes it. *)
Definition quote_unit (c : N) : jsstring :=
  if (c =? 8)%N then [92; 98]%N             (* \b *)
  else if (c =? 9)%N then [92; 116]%N       (* \t *)
  else if (c =? 10)%N then [92; 110]%N      (* \n *)
  else if (c =? 12)%N then [92; 102]%N      (* \f *)
  else if (c =? 13)%N then [92; 114]%N      (* \r *)
  else if (c =? 34)%N then [92; 34]%N       (* backslash, double quote *)
  else if (c =? 92)%N then [92; 92]%N       (* backslash, backslash *)
  else if (c <? 32)%N then unicode_escape c
  else [c].

Fixpoint quote_units (s : jsstring) : jsstring :=
  match s with
  | [] => []
  | c :: r =>
      if is_high_surrogate c then
        match r with
        | d :: r' =>
            if is_low_surrogate d then c :: d :: quote_units r'
            else unicode_escape c ++ quote_units r
        | [] => unicode_escape c
        end
      else if is_low_surrogate c then unicode_escape c ++ quote_units r
      else quote_unit c ++ quote_units r
  end.

Definition quote (s : jsstring) : jsstring := 34%N :: quote_units s ++ [34%N].

Fixpoint chars_of_uint (d : Decimal.uint) : jsstring :=
  match d with
  | Decimal.Nil => []
  | Decimal.D0 r => 48%N :: chars_of_uint r
  | Decimal.D1 r => 49%N :: chars_of_uint r
  | Decimal.D2 r => 50%N :: chars_of_uint r
  | Decimal.D3 r => 51%N :: chars_of_uint r
  | Decimal.D4 r => 52%N :: chars_of_uint r
  | Decimal.D5 r => 53%N :: chars_of_uint r
  | Decimal.D6 r => 54%N :: chars_of_uint r
  | Decimal.D7 r => 55%N :: chars_of_uint r
  | Decimal.D8 r => 56%N :: chars_of_uint r
  | Decimal.D9 r => 57%N :: chars_of_uint r
  end.

(** [String(n)] for an integer-valued number of magnitude below 10^21: its
    decimal digits.  From 10^21 on JavaScript writes an exponent, which is
    not modelled. *)
Definition number_to_string (n : Z) : jsstring :=
  match Z.to_int n with
  | Decimal.Pos d => chars_of_uint d
  | Decimal.Neg d => 45%N :: chars_of_uint d
  end.

Fixpoint stringify (v : json) : jsstring :=
  match v with
  | JNull => js "null"
  | JBool true => js "true"
  | JBool false => js "false"
  | JNum n => number_to_string n
  | JStr s => quote s
  | JArr l =>
      let fix elems (l : list json) : jsstring :=
        match l with
        | [] => []
        | x :: r =>
            stringify x ++ match r with [] => [] | _ :: _ => 44%N :: elems r end
        end in
      91%N :: elems l ++ [93%N]
  | JObj m =>
      let fix members (m : list (jsstring * json)) : jsstring :=
        match m with
        | [] => []
        | (k, x) :: r =>
            quote k ++ 58%N :: stringify x
              ++ match r with [] => [] | _ :: _ => 44%N :: members r end
        end in
      123%N :: members m ++ [125%N]
  end.

(** *** Parsing *)

Definition is_ws (c : N) : bool :=
  ((c =? 32) || (c =? 9) || (c =? 10) || (c =? 13))%N.

Fixpoint skip_ws (s : jsstring) : jsstring :=
  match s with
  | c :: r => if is_ws c then skip_ws r else s
  | [] => []
  end.

Definition hex_value (c : N) : option N :=
  if ((48 <=? c) && (c <=? 57))%N then Some (c - 48)%N
  else if ((97 <=? c) && (c <=? 102))%N then Some (c - 87)%N
  else if ((65 <=? c) && (c <=? 70))%N then Some (c - 55)%N
  else None.

Definition simple_escape (e : N) : option N :=
  if (e =? 34)%N then Some 34%N
  else if (e =? 92)%N then Some 92%N
  else if (e =? 47)%N then Some 47%N
  else if (e =? 98)%N then Some 8%N
  else if (e =? 102)%N then Some 12%N
  else if (e =? 110)%N then Some 10%N
  else if (e =? 114)%N then Some 13%N
  else if (e =? 116)%N then Some 9%N
  else None.

Definition cons_unit (c : N) (r : option (jsstring * jsstring))
  : option (jsstring * jsstring) :=
  match r with
  | Some (str, rest) => Some (c :: str, rest)
  | None => None
  end.

(** The characters of a string literal after its opening quote, up to and
    including the closing quote. *)
Fixpoint parse_string_body (s : jsstring) : option (jsstring * jsstring) :=
  match s with
  | [] => None
  | c :: r =>
      if (c =? 34)%N then Some ([], r)
      else if (c =? 92)%N then
        match r with
        | [] => None
        | e :: r1 =>
            if (e =? 117)%N then
              match r1 with
              | h1 :: h2 :: h3 :: h4 :: r2 =>
                  match hex_value h1, hex_value h2, hex_value h3, hex_value h4,
                        parse_string_body r2 with
                  | Some a, Some b, Some c', Some d, Some (str, rest) =>
                      Some ((a * 4096 + b * 256 + c' * 16 + d)%N :: str, rest)
                  | _, _, _, _, _ => None
                  end
              | _ => None
              end
            else
              match simple_escape e, parse_string_body r1 with
              | Some u, Some (str, rest) => Some (u :: str, rest)
              | _, _ => None
              end
        end
      else if (c <? 32)%N then None
      else match parse_string_body r with
           | Some (str, rest) => Some (c :: str, rest)
           | None => None
           end
  end.

Definition is_digit (c : N) : bool := ((48 <=? c) && (c <=? 57))%N.

Fixpoint span_digits (s : jsstring) : jsstring * jsstring :=
  match s with
  | c :: r =>
      if is_digit c then let (ds, rest) := span_digits r in (c :: ds, rest)
      else ([], s)
  | [] => ([], [])
  end.

Fixpoint uint_of_chars (s : jsstring) : Decimal.uint :=
  match s with
  | [] => Decimal.Nil
  | c :: r =>
      let d := uint_of_chars r in
      if (c =? 48)%N then Decimal.D0 d else if (c =? 49)%N then Decimal.D1 d
      else if (c =? 50)%N then Decimal.D2 d else if (c =? 51)%N then Decimal.D3 d
      else if (c =? 52)%N then Decimal.D4 d else if (c =? 53)%N then Decimal.D5 d
      else if (c =? 54)%N then Decimal.D6 d else if (c =? 55)%N then Decimal.D7 d
      else if (c =? 56)%N then Decimal.D8 d else Decimal.D9 d
  end.

(** An unsigned JSON integer: no leading zero, and no fraction or exponent
    after it (those denote numbers outside the model). *)
Definition parse_digits (s : jsstring) : option (Decimal.uint * jsstring) :=
  let (ds, rest) := span_digits s in
  match ds with
  | [] => None
  | d :: more =>
      if (d =? 48)%N && negb (bool_decide (more = [])) then None
      else match rest with
           | c :: _ =>
               if ((c =? 46) || (c =? 101) || (c =? 69))%N then None
               else Some (uint_of_chars ds, rest)
           | [] => Some (uint_of_chars ds, rest)
           end
  end.

Definition parse_number (s : jsstring) : option (Z * jsstring) :=
  match s with
  | c :: r =>
      if (c =? 45)%N then
        match parse_digits r with
        | Some (d, rest) => Some (Z.of_int (Decimal.Neg d), rest)
        | None => None
        end
      else
        match parse_digits s with
        | Some (d, rest) => Some (Z.of_int (Decimal.Pos d), rest)
        | None => None
        end
  | [] => None
  end.

Definition expect (lit : jsstring) (s : jsstring) : option jsstring :=
  if starts_with lit s then Some (drop (length lit) s) else None.

Fixpoint parse_value (fuel : nat) (s : jsstring) {struct fuel}
  : option (json * jsstring) :=
  match fuel with
  | O => None
  | S f =>
      match skip_ws s with
      | [] => None
      | c :: r =>
          if (c =? 110)%N then                      (* n *)
            match expect (js "ull") r with
            | Some rest => Some (JNull, rest) | None => None end
          else if (c =? 116)%N then                 (* t *)
            match expect (js "rue") r with
            | Some rest => Some (JBool true, rest) | None => None end
          else if (c =? 102)%N then                 (* f *)
            match expect (js "alse") r with
            | Some rest => Some (JBool false, rest) | None => None end
          else if (c =? 34)%N then                  (* string *)
            match parse_string_body r with
            | Some (str, rest) => Some (JStr str, rest) | None => None end
          else if (c =? 91)%N then                  (* [ *)
            match skip_ws r with
            | c' :: r' =>
                if (c' =? 93)%N then Some (JArr [], r')
                else match parse_elements f r with
                     | Some (vs, rest) => Some (JArr vs, rest)
                     | None => None
                     end
            | [] => None
            end
          else if (c =? 123)%N then                 (* { *)
            match skip_ws r with
            | c' :: r' =>
                if (c' =? 125)%N then Some (JObj [], r')
                else match parse_members f r with
                     | Some (ms, rest) => Some (JObj (obj_of_members ms), rest)
                     | None => None
                     end
            | [] => None
            end
          else
            match parse_number (c :: r) with
            | Some (n, rest) => Some (JNum n, rest) | None => None end
      end
  end

with parse_elements (fuel : nat) (s : jsstring) {struct fuel}
  : option (list json * jsstring) :=
  match fuel with
  | O => None
  | S f =>
      match parse_value f s with
      | Some (v, r) =>
          match skip_ws r with
          | c :: r' =>
              if (c =? 44)%N then
                match parse_elements f r' with
                | Some (vs, rest) => Some (v :: vs, rest)
                | None => None
                end
              else if (c =? 93)%N then Some ([v], r')
              else None
          | [] => None
          end
      | None => None
      end
  end

with parse_members (fuel : nat) (s : jsstring) {struct fuel}
  : option (list (jsstring * json) * jsstring) :=
  match fuel with
  | O => None
  | S f =>
      match skip_ws s with
      | q :: r0 =>
          if (q =? 34)%N then
            match parse_string_body r0 with
            | Some (k, r1) =>
                match skip_ws r1 with
                | colon :: r2 =>
                    if (colon =? 58)%N then
                      match parse_value f r2 with
                      | Some (v, r3) =>
                          match skip_ws r3 with
                          | c :: r4 =>
                              if (c =? 44)%N then
                                match parse_members f r4 with
                                | Some (ms, rest) => Some ((k, v) :: ms, rest)
                                | None => None
                                end
                              else if (c =? 125)%N then Some ([(k, v)], r4)
                              else None
                          | [] => None
                          end
                      | None => None
                      end
                    else None
                | [] => None
                end
            | None => None
            end
          else None
      | [] => None
      end
  end.

(** [JSON.parse(s)]; [None] stands for the [SyntaxError]. *)
Definition parse (s : jsstring) : option json :=
  match parse_value (S (length s)) s with
  | Some (v, rest) =>
      match skip_ws rest with
      | [] => Some v
      | _ :: _ => None
      end
  | None => None
  end.

(** *** Notions used to state the round trip *)

(** The serialisation of the elements of an array and of the members of an
    object, as [stringify] writes them between the brackets. *)
Definition stringify_elems : list json -> jsstring :=
  fix elems (l : list json) : jsstring :=
    match l with
    | [] => []
    | x :: r =>
        stringify x ++ match r with [] => [] | _ :: _ => 44%N :: elems r end
    end.

Definition stringify_members : list (jsstring * json) -> jsstring :=
  fix members (m : list (jsstring * json)) : jsstring :=
    match m with
    | [] => []
    | (k, x) :: r =>
        quote k ++ 58%N :: stringify x
          ++ match r with [] => [] | _ :: _ => 44%N :: members r end
    end.

(** A size that bounds the fuel the parser needs. *)
Fixpoint jsize (v : json) : nat :=
  match v with
  | JArr l => S ((fix elems (l : list json) : nat :=
                    match l with [] => 0 | x :: r => S (jsize x + elems r) end) l)
  | JObj m => S ((fix members (m : list (jsstring * json)) : nat :=
                    match m with [] => 0 | (_, x) :: r => S (jsize x + members r) end) m)
  | _ => 1
  end.

Definition elems_size : list json -> nat :=
  fix elems (l : list json) : nat :=
    match l with [] => 0 | x :: r => S (jsize x + elems r) end.

Definition members_size : list (jsstring * json) -> nat :=
  fix members (m : list (jsstring * json)) : nat :=
    match m with [] => 0 | (_, x) :: r => S (jsize x + members r) end.

(** Every object of the value has pairwise distinct property names, as
    every JavaScript object has. *)
Fixpoint wf_json (v : json) : Prop :=
  match v with
  | JArr l => (fix elems (l : list json) : Prop :=
                 match l with [] => True | x :: r => wf_json x /\ elems r end) l
  | JObj m => NoDup (map fst m) /\
              (fix members (m : list (jsstring * json)) : Prop :=
                 match m with [] => True | (_, x) :: r => wf_json x /\ members r end) m
  | _ => True
  end.

Definition wf_elems : list json -> Prop :=
  fix elems (l : list json) : Prop :=
    match l with [] => True | x :: r => wf_json x /\ elems r end.

Definition wf_members : list (jsstring * json) -> Prop :=
  fix members (m : list (jsstring * json)) : Prop :=
    match m with [] => True | (_, x) :: r => wf_json x /\ members r end.

(** What may follow a number: nothing, or a character that neither extends
    the digits nor opens a fraction or an exponent. *)
Definition ends_number (rest : jsstring) : Prop :=
  match rest with
  | [] => True
  | c :: _ => is_digit c = false /\ c <> 46%N /\ c <> 101%N /\ c <> 69%N
  end.

(** The first character of a serialised value: not white space, and none
    of the closing brackets. *)
Definition opens_value (c : N) : Prop :=
  is_ws c = false /\ c <> 93%N /\ c <> 125%N.

End Json.

(** ** The validation policy (lib/schemas)

    [ValidationConditionSchema] and [ApiPutRequestValidationPolicySchema]:
    the typed policy, the JSON value [JSON.stringify] writes for it, and
    the schema check that accepts a JSON value as a policy. *)

(** A number of a policy, as JavaScript has it.  An integer-valued number
    is kept as its value ([NumInt 0] is the positive zero); the negative
    zero, [NaN] and the two infinities are values of their own.  A number
    with a fractional part is not modelled. *)
Inductive PolicyNumber : Type :=
| NumInt (n : Z)
| NumNegZero
| NumNaN
| NumPosInfinity
| NumNegInfinity.

Inductive StringOrNumber : Type :=
| SNString (s : jsstring)
| SNNumber (n : PolicyNumber).

Inductive ValidationCondition : Type :=
| CondString (s : jsstring)
| CondNumber (n : PolicyNumber)
| CondStartsWith (s : jsstring)
| CondEndsWith (s : jsstring)
| CondLte (n : PolicyNumber)
| CondGte (n : PolicyNumber)
| CondOneOf (l : list StringOrNumber)
| CondRange (lo hi : PolicyNumber).

Inductive AccessControl : Type := Public | Private.

Record ApiPutRequestValidationPolicy : Type := {
  conditions : list (jsstring * ValidationCondition);
  accessControl : AccessControl;
}.

Module Schemas.

(** What [JSON.stringify] writes for a number: [null] for [NaN] and the
    infinities, [0] for the negative zero. *)
Definition number_to_json (x : PolicyNumber) : json :=
  match x with
  | NumInt n => JNum n
  | NumNegZero => JNum 0
  | NumNaN | NumPosInfinity | NumNegInfinity => JNull
  end.

Definition string_or_number_to_json (x : StringOrNumber) : json :=
  match x with
  | SNString s => JStr s
  | SNNumber n => number_to_json n
  end.

Definition condition_to_json (c : ValidationCondition) : json :=
  match c with
  | CondString s => JStr s
  | CondNumber n => number_to_json n
  | CondStartsWith s => JObj [(js "startsWith", JStr s)]
  | CondEndsWith s => JObj [(js "endsWith", JStr s)]
  | CondLte n => JObj [(js "lte", number_to_json n)]
  | CondGte n => JObj [(js "gte", number_to_json n)]
  | CondOneOf l => JObj [(js "oneOf", JArr (map string_or_number_to_json l))]
  | CondRange lo hi => JObj [(js "range", JArr [number_to_json lo; number_to_json hi])]
  end.

Definition access_control_name (a : AccessControl) : jsstring :=
  match a with
  | Public => js "public"
  | Private => js "private"
  end.

(** The object [{ apiPutV1: { conditions: {...}, accessControl } }] as
    [JSON.stringify] serialises it. *)
Definition policy_to_json (p : ApiPutRequestValidationPolicy) : json :=
  JObj [(js "apiPutV1",
         JObj [(js "conditions",
                JObj (map (fun kc => (fst kc, condition_to_json (snd kc)))
                          (conditions p)));
               (js "accessControl", JStr (access_control_name (accessControl p)))])].

Definition string_or_number_parse (v : json) : option StringOrNumber :=
  match v with
  | JStr s => Some (SNString s)
  | JNum n => Some (SNNumber (NumInt n))
  | _ => None
  end.

Fixpoint all_some {A} (l : list (option A)) : option (list A) :=
  match l with
  | [] => Some []
  | Some x :: r =>
      match all_some r with
      | Some xs => Some (x :: xs)
      | None => None
      end
  | None :: _ => None
  end.

(** [ValidationConditionSchema]: the union's options are tried in the
    order they are listed; an object option reads its one key and strips
    the others. *)
Definition ValidationConditionSchema_parse (v : json) : option ValidationCondition :=
  match v with
  | JStr s => Some (CondString s)
  | JNum n => Some (CondNumber (NumInt n))
  | JObj o =>
      match Json.obj_get (js "startsWith") o with
      | Some (JStr s) => Some (CondStartsWith s)
      | _ =>
      match Json.obj_get (js "endsWith") o with
      | Some (JStr s) => Some (CondEndsWith s)
      | _ =>
      match Json.obj_get (js "lte") o with
      | Some (JNum n) => Some (CondLte (NumInt n))
      | _ =>
      match Json.obj_get (js "gte") o with
      | Some (JNum n) => Some (CondGte (NumInt n))
      | _ =>
      match
        match Json.obj_get (js "oneOf") o with
        | Some (JArr l) => all_some (map string_or_number_parse l)
        | _ => None
        end
      with
      | Some l => Some (CondOneOf l)
      | None =>
      match Json.obj_get (js "range") o with
      | Some (JArr [JNum lo; JNum hi]) => Some (CondRange (NumInt lo) (NumInt hi))
      | _ => None
      end end end end end end
  | _ => None
  end.

Definition access_control_parse (v : json) : option AccessControl :=
  match v with
  | JStr s =>
      if Json.jsstring_eqb s (js "public") then Some Public
      else if Json.jsstring_eqb s (js "private") then Some Private
      else None
  | _ => None
  end.

(** [ApiPutRequestValidationPolicySchema]: condition names are strings of
    length at least one. *)
Definition ApiPutRequestValidationPolicySchema_parse (v : json)
  : option ApiPutRequestValidationPolicy :=
  match v with
  | JObj top =>
      match Json.obj_get (js "apiPutV1") top with
      | Some (JObj o) =>
          match Json.obj_get (js "conditions") o,
                Json.obj_get (js "accessControl") o with
          | Some (JObj cs), Some ac =>
              match
                all_some
                  (map (fun kv =>
                          match fst kv, ValidationConditionSchema_parse (snd kv) with
                          | _ :: _, Some c => Some (fst kv, c)
                          | _, _ => None
                          end) cs),
                access_control_parse ac
              with
              | Some conds, Some a =>
                  Some {| conditions := conds; accessControl := a |}
              | _, _ => None
              end
          | _, _ => None
          end
      | _ => None
      end
  | _ => None
  end.

End Schemas.

(** ** JavaScript values

    The policy as the object the caller supplies, with its numbers as they
    are, and the value [JSON.parse] returns for a JSON text. *)

Inductive jsvalue : Type :=
| VNull
| VBool (b : bool)
| VNum (x : PolicyNumber)
| VStr (s : jsstring)
| VArr (elems : list jsvalue)
| VObj (members : list (jsstring * jsvalue)).

Module JsValue.


(** The JSON value [JSON.stringify] serialises for a value. *)
Fixpoint to_json (v : jsvalue) : json :=
  match v with
  | VNull => JNull
  | VBool b => JBool b
  | VNum x => Schemas.number_to_json x
  | VStr s => JStr s
  | VArr l => JArr (map to_json l)
  | VObj m => JObj (map (fun '(k, x) => (k, to_json x)) m)
  end.

End JsValue.

Definition string_or_number_value (x : StringOrNumber) : jsvalue :=
  match x with
  | SNString s => VStr s
  | SNNumber n => VNum n
  end.

Definition condition_value (c : ValidationCondition) : jsvalue :=
  match c with
  | CondString s => VStr s
  | CondNumber n => VNum n
  | CondStartsWith s => VObj [(js "startsWith", VStr s)]
  | CondEndsWith s => VObj [(js "endsWith", VStr s)]
  | CondLte n => VObj [(js "lte", VNum n)]
  | CondGte n => VObj [(js "gte", VNum n)]
  | CondOneOf l => VObj [(js "oneOf", VArr (map string_or_number_value l))]
  | CondRange lo hi => VObj [(js "range", VArr [VNum lo; VNum hi])]
  end.

(** The policy object [{ apiPutV1: { conditions: {...}, accessControl } }]
    supplied on a store command. *)
Definition policy_value (p : ApiPutRequestValidationPolicy) : jsvalue :=
  VObj [(js "apiPutV1",
         VObj [(js "conditions",
                VObj (map (fun kc => (fst kc, condition_value (snd kc)))
                          (conditions p)));
               (js "accessControl",
                VStr (Schemas.access_control_name (accessControl p)))])].

(** Every number of a condition, of a policy, passes the test [f]. *)
Definition string_or_number_all (f : PolicyNumber -> bool) (x : StringOrNumber) : bool :=
  match x with
  | SNString _ => true
  | SNNumber n => f n
  end.

Definition condition_all (f : PolicyNumber -> bool) (c : ValidationCondition) : bool :=
  match c with
  | CondString _ | CondStartsWith _ | CondEndsWith _ => true
  | CondNumber n | CondLte n | CondGte n => f n
  | CondOneOf l => forallb (string_or_number_all f) l
  | CondRange lo hi => f lo && f hi
  end.

Definition policy_all (f : PolicyNumber -> bool) (p : ApiPutRequestValidationPolicy)
  : bool :=
  forallb (fun kc => condition_all f (snd kc)) (conditions p).

(** An integer-valued number other than the negative zero: the numbers
    the schema reads from a JSON value. *)
Definition is_integer (x : PolicyNumber) : bool :=
  match x with
  | NumInt _ => true
  | NumNegZero | NumNaN | NumPosInfinity | NumNegInfinity => false
  end.

(** A safe integer ([Number.isSafeInteger]: magnitude at most 2^53 - 1)
    other than the negative zero.  [JSON.stringify] writes such a number
    with all its digits, and [JSON.parse] reads the same number back. *)
Definition plain_integer (x : PolicyNumber) : bool :=
  match x with
  | NumInt n => (Z.abs n <=? 2 ^ 53 - 1)%Z
  | NumNegZero | NumNaN | NumPosInfinity | NumNegInfinity => false
  end.

(** Every number of the policy is a safe integer other than [-0]. *)
Definition policy_plain (p : ApiPutRequestValidationPolicy) : bool :=
  policy_all plain_integer p.

(** ** URLs and their query parameters *)

Record URL : Type := {
  protocol : jsstring;
  host : jsstring;
  pathname : jsstring;
  searchParams : list (jsstring * jsstring);
  hash : jsstring;
}.

Module SearchParams.

(** [URLSearchParams.get]: the value of the first pair named [name]. *)
Fixpoint get (name : jsstring) (l : list (jsstring * jsstring)) : option jsstring :=
  match l with
  | [] => None
  | (n, v) :: r => if Json.jsstring_eqb n name then Some v else get name r
  end.

(** [URLSearchParams.set]: the first pair named [name] takes the value and
    the other pairs of that name are removed; without one, the pair is
    appended. *)
Fixpoint set (name value : jsstring) (l : list (jsstring * jsstring))
  : list (jsstring * jsstring) :=
  match l with
  | [] => [(name, value)]
  | (n, v) :: r =>
      if Json.jsstring_eqb n name
      then (n, value) :: filter (fun p => negb (Json.jsstring_eqb (fst p) name)) r
      else (n, v) :: set name value r
  end.

End SearchParams.

Definition URL_set_param (name value : jsstring) (u : URL) : URL :=
  {| protocol := protocol u; host := host u; pathname := pathname u;
     searchParams := SearchParams.set name value (searchParams u);
     hash := hash u |}.

(** ** Numbers as [createSignedUrl] compares them

    [expiresInSeconds] is a JavaScript number: a finite value (kept exactly,
    as a rational), NaN or an infinity.  Comparisons follow IEEE 754: every
    comparison with NaN is false. *)

Inductive jsnumber : Type :=
| JFin (q : Q)
| JNaN
| JPosInf
| JNegInf.

Definition Qltb (a b : Q) : bool :=
  (Qnum a * Zpos (Qden b) <? Qnum b * Zpos (Qden a))%Z.

Definition js_lt (a b : jsnumber) : bool :=
  match a, b with
  | JNaN, _ | _, JNaN => false
  | JFin x, JFin y => Qltb x y
  | JNegInf, JNegInf => false
  | JNegInf, _ => true
  | _, JNegInf => false
  | JPosInf, _ => false
  | _, JPosInf => true
  end.

(** Addition, exact on finite values: the sum JavaScript computes whenever
    the exact sum is a double, as for two integers whose sum has a magnitude
    of at most 2^53.  Otherwise JavaScript rounds the sum to the nearest
    double, which is not modelled. *)
Definition js_add (a b : jsnumber) : jsnumber :=
  match a, b with
  | JNaN, _ | _, JNaN => JNaN
  | JFin x, JFin y => JFin (x + y)%Q
  | JPosInf, JNegInf | JNegInf, JPosInf => JNaN
  | JPosInf, _ | _, JPosInf => JPosInf
  | JNegInf, _ | _, JNegInf => JNegInf
  end.

(** Membership in the closed interval [lo, hi] of the reals. *)
Definition in_closed_interval (lo hi : Z) (x : jsnumber) : Prop :=
  match x with
  | JFin q => (inject_Z lo <= q)%Q /\ (q <= inject_Z hi)%Q
  | _ => False
  end.

(** ** Results, exceptions and client errors *)

(** neverthrow's [Result]: [ok(v)] or [err(e)]. *)
Inductive Result (T E : Type) : Type :=
| Ok (v : T)
| Err (e : E).
Arguments Ok {T E} v.
Arguments Err {T E} e.

(** A thrown value (a rejected promise): an [Error] instance with its name
    and message, or any other value with its [String(e)]. *)
Inductive JsExn : Type :=
| JsError (name message : jsstring)
| JsThrown (text : jsstring).

(** [e instanceof Error ? e.message : String(e)] *)
Definition exn_message (e : JsExn) : jsstring :=
  match e with
  | JsError _ m => m
  | JsThrown s => s
  end.

(** The [context] values the client attaches to an error. *)
Inductive ErrorContext : Type :=
| CtxNotJson (status : Z) (statusText : jsstring)
             (contentType : option jsstring) (content : jsstring)
| CtxStatus (status : Z) (statusText : jsstring)
| CtxIssues (rawData : json)
| CtxDetails (details : json)
| CtxText (text : jsstring).

(** [MedoroDataplaneClientError]; [details] is the key an error envelope may
    carry, kept by the object spread. *)
Record MedoroDataplaneClientError : Type := {
  type : jsstring;
  message : jsstring;
  code : option jsstring;
  details : option json;
  context : option ErrorContext;
}.

(** ** Objects, references and the command classes *)

Definition loc := nat.

(** The bytes behind a [Blob] or an [ArrayBuffer]. *)
Inductive BodyInit : Type :=
| BodyText (s : jsstring)
| BodyRef (l : loc).

Inductive Cell : Type :=
| CellURL (u : URL)
| CellHeaders (h : list (jsstring * jsstring))
| CellPolicy (p : ApiPutRequestValidationPolicy)
| CellBody (bytes : list N).

Inductive Method : Type := PUT | GET | DELETE.

Definition method_name (m : Method) : jsstring :=
  match m with
  | PUT => js "PUT"
  | GET => js "GET"
  | DELETE => js "DELETE"
  end.

(** The private fields of the base class; the getters are the projections and
    there is no setter. *)
Record MedoroDataplaneCommand : Type := {
  method : Method;
  key : jsstring;
  headers : loc;
}.

(** The three exported classes.  A [PutObjectCommand] adds the fields
    [#policy] (a reference to the caller's policy object) and [#content]. *)
Inductive Command : Type :=
| PutObjectCommand (super : MedoroDataplaneCommand) (policy : loc)
                   (content : option BodyInit)
| GetObjectCommand (super : MedoroDataplaneCommand)
| DeleteObjectCommand (super : MedoroDataplaneCommand).

Definition super_of (c : Command) : MedoroDataplaneCommand :=
  match c with
  | PutObjectCommand s _ _ => s
  | GetObjectCommand s => s
  | DeleteObjectCommand s => s
  end.

(** ['policy' in command]: the getter lives on [PutObjectCommand.prototype]. *)
Definition policy_in (c : Command) : option loc :=
  match c with
  | PutObjectCommand _ p _ => Some p
  | _ => None
  end.

(** ** Requests handed to the collaborators, responses, events *)

Inductive SignatureInput : Type :=
| Component (name : jsstring)
| QueryParam (name : jsstring).

Inductive CryptoKey : Type :=
| KeyHandle (id : N)
| KeyNull.

(** The argument of [createSignatureForRequest].  [request_url] is the URL
    object passed by reference and [request_url_value] what it holds when the
    call is made; likewise for the headers. *)
Record SignRequest : Type := {
  signatureInputs : list SignatureInput;
  signatureLabel : jsstring;
  keyid : jsstring;
  alg : jsstring;
  created : Z;
  expires : jsnumber;
  request_url : loc;
  request_url_value : URL;
  request_headers : loc;
  request_headers_value : list (jsstring * jsstring);
  request_method : Method;
  sign : jsstring -> Result (list N) MedoroDataplaneClientError;
}.

Inductive BodyValue : Type :=
| TextBody (s : jsstring)
| BytesBody (bytes : list N).

Record FetchRequest : Type := {
  fetch_url : loc;
  fetch_url_value : URL;
  fetch_method : Method;
  fetch_headers : list (jsstring * jsstring);
  fetch_body : option BodyValue;
}.

(** A [Response]: what its accessors give.  [body_text] and [body_json] are
    the outcomes of the promises [text()] and [json()]. *)
Record Response : Type := {
  status : Z;
  statusText : jsstring;
  contentType : option jsstring;
  body_text : Result jsstring JsExn;
  body_json : Result json JsExn;
}.

(** [response.ok] *)
Definition response_ok (r : Response) : bool :=
  ((200 <=? status r) && (status r <=? 299))%Z.

Inductive Event : Type :=
| EvSign (req : SignRequest)
| EvFetch (req : FetchRequest)
| EvBodyText (r : Response)
| EvBodyJson (r : Response).

(** The collaborators the client is linked against.  They answer from the
    arguments they are handed and write to none of the caller's objects. *)
Record Platform : Type := {
  (** [new URL(input, base)]; [None] is the [TypeError] of an invalid URL *)
  URL_parse : jsstring -> jsstring -> option URL;
  (** http-msg-sig's signing primitive: [{ signatureInput, signature }] *)
  createSignatureForRequest :
    SignRequest -> Result (jsstring * jsstring) MedoroDataplaneClientError;
  (** [crypto.subtle.sign({ name: 'Ed25519' }, key, utf8(signatureBase))] *)
  crypto_subtle_sign : CryptoKey -> jsstring -> Result (list N) JsExn;
  (** the transport *)
  fetch : FetchRequest -> Result Response JsExn;
  (** the n-th reading of [Date.now()], in milliseconds *)
  Date_now : nat -> Z;
  (** the message of the [ZodError] raised on a rejected value *)
  ZodError_message : json -> jsstring;
}.

(** ** The monad of the embedding

    A computation runs on the object store, appends to the log of calls made
    to the collaborators and counts the clock readings.  It returns, throws,
    or goes [Wrong] when a reference does not hold an object of the class the
    code expects (which no JavaScript state does). *)

Record State : Type := {
  heap : list Cell;
  trace : list Event;
  ticks : nat;
}.

Inductive Outcome (A : Type) : Type :=
| Ret (a : A)
| Throw (e : JsExn)
| Wrong.
Arguments Ret {A} a.
Arguments Throw {A} e.
Arguments Wrong {A}.

Definition M (A : Type) : Type := State -> Outcome A * State.

Definition ret {A} (a : A) : M A := fun σ => (Ret a, σ).

Definition bind {A B} (m : M A) (k : A -> M B) : M B :=
  fun σ =>
    match m σ with
    | (Ret a, σ') => k a σ'
    | (Throw e, σ') => (Throw e, σ')
    | (Wrong, σ') => (Wrong, σ')
    end.

Notation "x <- m ;; k" := (bind m (fun x => k))
  (at level 100, m at next level, right associativity).
Notation "m ;;; k" := (bind m (fun _ => k))
  (at level 100, right associativity).

Definition throw {A} (e : JsExn) : M A := fun σ => (Throw e, σ).
Definition wrong {A} : M A := fun σ => (Wrong, σ).

Definition alloc (c : Cell) : M loc :=
  fun σ => (Ret (length (heap σ)),
            {| heap := heap σ ++ [c]; trace := trace σ; ticks := ticks σ |}).

Definition load (l : loc) : M Cell :=
  fun σ => match heap σ !! l with
           | Some c => (Ret c, σ)
           | None => (Wrong, σ)
           end.

Definition store (l : loc) (c : Cell) : M unit :=
  fun σ => (Ret tt,
            {| heap := <[l := c]> (heap σ); trace := trace σ; ticks := ticks σ |}).

Definition emit (ev : Event) : M unit :=
  fun σ => (Ret tt,
            {| heap := heap σ; trace := trace σ ++ [ev]; ticks := ticks σ |}).

Definition load_url (l : loc) : M URL :=
  c <- load l ;; match c with CellURL u => ret u | _ => wrong end.

Definition load_headers (l : loc) : M (list (jsstring * jsstring)) :=
  c <- load l ;; match c with CellHeaders h => ret h | _ => wrong end.

Definition load_policy (l : loc) : M ApiPutRequestValidationPolicy :=
  c <- load l ;; match c with CellPolicy p => ret p | _ => wrong end.

Definition load_body (b : BodyInit) : M BodyValue :=
  match b with
  | BodyText s => ret (TextBody s)
  | BodyRef l =>
      c <- load l ;; match c with CellBody bytes => ret (BytesBody bytes) | _ => wrong end
  end.

(** [url.searchParams.set(name, value)] *)
Definition searchParams_set (l : loc) (name value : jsstring) : M unit :=
  u <- load_url l ;; store l (CellURL (URL_set_param name value u)).

(** [new URL(url)]: a fresh object with the same components. *)
Definition URL_copy (l : loc) : M loc :=
  u <- load_url l ;; alloc (CellURL u).

(** [btoa] as a computation. *)
Definition InvalidCharacterError : JsExn :=
  JsError (js "InvalidCharacterError") (js "Invalid character").

Definition btoa (s : jsstring) : M jsstring :=
  match Base64.btoa s with
  | Some b => ret b
  | None => throw InvalidCharacterError
  end.

(** *** The command constructors *)

(** [constructor({ method, headers = new Headers(), key })] *)
Definition new_MedoroDataplaneCommand
    (m : Method) (hdrs : option loc) (k : jsstring) : M MedoroDataplaneCommand :=
  h <- match hdrs with
       | Some h => ret h
       | None => alloc (CellHeaders [])
       end ;;
  ret {| method := m; key := k; headers := h |}.

(** [constructor({ key, policy, content }) { super({ key, method: 'PUT' }); ... }] *)
Definition new_PutObjectCommand
    (k : jsstring) (policy : loc) (content : option BodyInit) : M Command :=
  s <- new_MedoroDataplaneCommand PUT None k ;;
  ret (PutObjectCommand s policy content).

Definition new_GetObjectCommand (k : jsstring) : M Command :=
  s <- new_MedoroDataplaneCommand GET None k ;;
  ret (GetObjectCommand s).

Definition new_DeleteObjectCommand (k : jsstring) : M Command :=
  s <- new_MedoroDataplaneCommand DELETE None k ;;
  ret (DeleteObjectCommand s).

(** ** The response envelope ([ApiResponseSchema]) *)

(** The [error] object of a validated error envelope; the schema keeps these
    four keys and strips the others. *)
Record ApiError : Type := {
  error_code : jsstring;
  error_type : jsstring;
  error_message : jsstring;
  error_details : option json;
}.

(** A validated envelope: [{ success: true, data }] ([data] may be missing)
    or [{ success: false, error }]. *)
Inductive ApiResponse : Type :=
| ApiSuccess (data : option json)
| ApiFailure (error : ApiError).

(** [ApiResponseSchema.parseAsync]: a union discriminated on [success];
    [None] is the [ZodError]. *)
Definition ApiResponseSchema_parse (rawData : json) : option ApiResponse :=
  match rawData with
  | JObj o =>
      match Json.obj_get (js "success") o with
      | Some (JBool true) => Some (ApiSuccess (Json.obj_get (js "data") o))
      | Some (JBool false) =>
          match Json.obj_get (js "error") o with
          | Some (JObj e) =>
              match Json.obj_get (js "code") e, Json.obj_get (js "type") e,
                    Json.obj_get (js "message") e with
              | Some (JStr c), Some (JStr t), Some (JStr m) =>
                  Some (ApiFailure {| error_code := c; error_type := t;
                                      error_message := m;
                                      error_details := Json.obj_get (js "details") e |})
              | _, _, _ => None
              end
          | _ => None
          end
      | _ => None
      end
  | _ => None
  end.

(** JavaScript truthiness of a JSON value. *)
Definition truthy (v : json) : bool :=
  match v with
  | JNull => false
  | JBool b => b
  | JNum n => negb (n =? 0)%Z
  | JStr s => negb (bool_decide (s = []))
  | JArr _ | JObj _ => true
  end.

(** [details || statusText] *)
Definition details_or (details : option json) (statusText : jsstring) : ErrorContext :=
  match details with
  | Some d => if truthy d then CtxDetails d else CtxText statusText
  | None => CtxText statusText
  end.

(** ** The client *)

(** The configuration held in the private fields of the client. *)
Record MedoroDataplaneClient : Type := {
  origin : jsstring;
  privateKey : CryptoKey;
  keyId : jsstring;
}.

(** The value [createSignedUrl] resolves to: [{ signedUrl, method }]. *)
Record SignedUrl : Type := {
  signedUrl : loc;
  signed_method : Method;
}.

(** What [send] resolves to: the raw response of a fetch, or the [data] of a
    success envelope. *)
Inductive SendValue : Type :=
| RawResponse (r : Response)
| Data (d : option json).

Definition x_medoro_policy : jsstring := js "x-medoro-policy".
Definition x_medoro_signature_input : jsstring := js "x-medoro-signature-input".
Definition x_medoro_signature : jsstring := js "x-medoro-signature".

Definition base_signature_inputs : list SignatureInput :=
  [Component (js "@method"); Component (js "@scheme");
   Component (js "@authority"); Component (js "@path")].

(** [expiresInSeconds < 10 || expiresInSeconds > 604800] *)
Definition expiry_rejected (expiresInSeconds : jsnumber) : bool :=
  js_lt expiresInSeconds (JFin (inject_Z 10))
  || js_lt (JFin (inject_Z 604800)) expiresInSeconds.

Definition validation_error_expiry : MedoroDataplaneClientError :=
  {| type := js "validation";
     message := js "expiresInSeconds must be between 10 and 604800";
     code := None; details := None; context := None |}.

Section Client.

Variable P : Platform.
Variable this : MedoroDataplaneClient.

(** [new URL(input, base)] *)
Definition new_URL (input base : jsstring) : M loc :=
  match URL_parse P input base with
  | Some u => alloc (CellURL u)
  | None => throw (JsError (js "TypeError") (js "Invalid URL"))
  end.

(** [Date.now()] *)
Definition now : M Z :=
  fun σ => (Ret (Date_now P (ticks σ)),
            {| heap := heap σ; trace := trace σ; ticks := S (ticks σ) |}).

(** The [sign] callback handed to the signing primitive. *)
Definition sign_callback (signatureBase : jsstring)
  : Result (list N) MedoroDataplaneClientError :=
  match crypto_subtle_sign P (privateKey this) signatureBase with
  | Ok v => Ok v
  | Err e =>
      Err {| type := js "signature_error";
             message := js "Failed to sign request: " ++ exn_message e;
             code := None; details := None; context := None |}
  end.

(** [async createSignedUrl({ command, expiresInSeconds = 60 })].  The event
    [EvSign] records the call of the signing primitive, with the URL as it
    stands when the call is made. *)
Definition createSignedUrl (command : Command) (expiresInSeconds : option jsnumber)
  : M (Result SignedUrl MedoroDataplaneClientError) :=
  let expiresInSeconds := default (JFin (inject_Z 60)) expiresInSeconds in
  if expiry_rejected expiresInSeconds then ret (Err validation_error_expiry)
  else
    url <- new_URL (key (super_of command)) (origin this) ;;
    inputs <-
      match policy_in command with
      | Some policy =>
          p <- load_policy policy ;;
          encoded <- btoa (Json.stringify (Schemas.policy_to_json p)) ;;
          searchParams_set url x_medoro_policy encoded ;;;
          ret (base_signature_inputs ++ [QueryParam x_medoro_policy])
      | None => ret base_signature_inputs
      end ;;
    t1 <- now ;;
    t2 <- now ;;
    u <- load_url url ;;
    h <- load_headers (headers (super_of command)) ;;
    let req :=
      {| signatureInputs := inputs;
         signatureLabel := js "medoro";
         keyid := keyId this;
         alg := js "ed25519";
         created := (t1 / 1000)%Z;
         expires := js_add (JFin (inject_Z (t2 / 1000))) expiresInSeconds;
         request_url := url;
         request_url_value := u;
         request_headers := headers (super_of command);
         request_headers_value := h;
         request_method := method (super_of command);
         sign := sign_callback |} in
    emit (EvSign req) ;;;
    match createSignatureForRequest P req with
    | Err e => ret (Err e)
    | Ok (signatureInput, signature) =>
        signed <- URL_copy url ;;
        searchParams_set signed x_medoro_signature_input signatureInput ;;;
        searchParams_set signed x_medoro_signature signature ;;;
        ret (Ok {| signedUrl := signed;
                   signed_method := method (super_of command) |})
    end.

(** [response.headers.get('content-type')?.includes('application/json')],
    with [undefined] read as false. *)
Definition declares_json (response : Response) : bool :=
  match contentType response with
  | Some ct => includes ct (js "application/json")
  | None => false
  end.

(** [async parseJsonResponse(response)], the response classifier.  Its
    success value [{ success: true, data }] is kept as [data]. *)
Definition parseJsonResponse (response : Response)
  : M (Result (option json) MedoroDataplaneClientError) :=
  if negb (declares_json response) then
    emit (EvBodyText response) ;;;
    match body_text response with
    | Err e => throw e
    | Ok content =>
        ret (Err {| type := js "json_parse_error";
                    message := js "Response is not JSON";
                    code := None; details := None;
                    context := Some (CtxNotJson (status response) (statusText response)
                                       (contentType response) content) |})
    end
  else
    emit (EvBodyJson response) ;;;
    match body_json response with
    | Err e =>
        ret (Err {| type := js "json_parse_error";
                    message := js "Failed to parse JSON response: " ++ exn_message e;
                    code := None; details := None;
                    context := Some (CtxStatus (status response) (statusText response)) |})
    | Ok rawData =>
        match ApiResponseSchema_parse rawData with
        | None =>
            ret (Err {| type := js "validation_error";
                        message := js "API response validation failed: "
                                     ++ ZodError_message P rawData;
                        code := None; details := None;
                        context := Some (CtxIssues rawData) |})
        | Some (ApiSuccess data) => ret (Ok data)
        | Some (ApiFailure error) =>
            ret (Err {| type := error_type error;
                        message := error_message error;
                        code := Some (error_code error);
                        details := error_details error;
                        context := Some (details_or (error_details error)
                                           (statusText response)) |})
        end
    end.

Definition api_error (response : Response) : MedoroDataplaneClientError :=
  {| type := js "api_error";
     message := js "API returned a non-ok response";
     code := Some (Json.number_to_string (status response));
     details := None;
     context := Some (CtxText (statusText response)) |}.

Definition network_error (m : Method) (e : JsExn) : MedoroDataplaneClientError :=
  {| type := js "network_error";
     message := js "Network error during " ++ method_name m ++ js ": " ++ exn_message e;
     code := None; details := None; context := None |}.

(** The part of [send] that follows the transport's answer: the branch on
    [command instanceof GetObjectCommand] and on [response.ok]. *)
Definition route_response (command : Command) (response : Response)
  : M (Result SendValue MedoroDataplaneClientError) :=
  match command with
  | GetObjectCommand _ =>
      if negb (response_ok response) then
        errorParseResult <- parseJsonResponse response ;;
        match errorParseResult with
        | Err e => ret (Err e)
        | Ok _ => ret (Err (api_error response))
        end
      else ret (Ok (RawResponse response))
  | _ =>
      parseResult <- parseJsonResponse response ;;
      match parseResult with
      | Err e => ret (Err e)
      | Ok data => ret (Ok (Data data))
      end
  end.

(** The arguments of the call of [fetch] in [send]: the signed URL and
    [{ method, headers, body }], the body being the content of a
    [PutObjectCommand] and [undefined] otherwise. *)
Definition fetch_request (command : Command) (su : SignedUrl)
  : M FetchRequest :=
  body <- match command with
          | PutObjectCommand _ _ (Some content) =>
              b <- load_body content ;; ret (Some b)
          | _ => ret None
          end ;;
  u <- load_url (signedUrl su) ;;
  h <- load_headers (headers (super_of command)) ;;
  ret {| fetch_url := signedUrl su; fetch_url_value := u;
         fetch_method := method (super_of command);
         fetch_headers := h; fetch_body := body |}.

(** [async send({ command })] *)
Definition send (command : Command)
  : M (Result SendValue MedoroDataplaneClientError) :=
  resultOfSignedUrl <- createSignedUrl command None ;;
  match resultOfSignedUrl with
  | Err e => ret (Err e)
  | Ok su =>
      req <- fetch_request command su ;;
      emit (EvFetch req) ;;;
      match fetch P req with
      | Err e => ret (Err (network_error (method (super_of command)) e))
      | Ok response => route_response command response
      end
  end.

End Client.

(** ** Notions used in the statements *)

(** The expiry [createSignedUrl] works with: the argument, or its default. *)
Definition expiry_of (e : option jsnumber) : jsnumber :=
  default (JFin (inject_Z 60)) e.

Definition push_cell (σ : State) (c : Cell) : State :=
  {| heap := heap σ ++ [c]; trace := trace σ; ticks := ticks σ |}.

Definition log (σ : State) (ev : Event) : State :=
  {| heap := heap σ; trace := trace σ ++ [ev]; ticks := ticks σ |}.

(** The body accessor [parseJsonResponse] consumes. *)
Definition body_read (response : Response) : Event :=
  if declares_json response then EvBodyJson response else EvBodyText response.

(** The references of a command point to objects of their classes. *)
Definition wf_command (σ : State) (c : Command) : Prop :=
  (exists h, heap σ !! headers (super_of c) = Some (CellHeaders h)) /\
  match c with
  | PutObjectCommand _ pol content =>
      (exists p, heap σ !! pol = Some (CellPolicy p)) /\
      match content with
      | Some (BodyRef l) => exists bytes, heap σ !! l = Some (CellBody bytes)
      | _ => True
      end
  | _ => True
  end.

Definition store_or_remove (c : Command) : Prop :=
  match c with
  | GetObjectCommand _ => False
  | _ => True
  end.

Section Steps.

Variable P : Platform.
Variable this : MedoroDataplaneClient.

(** The request [createSignedUrl] hands to the signing primitive when it
    runs from [σ] and the URL to sign holds [u]. *)
Definition sign_request (cmd : Command) (e : option jsnumber) (σ : State)
    (u : URL) (inputs : list SignatureInput) (h : list (jsstring * jsstring))
  : SignRequest :=
  {| signatureInputs := inputs;
     signatureLabel := js "medoro";
     keyid := keyId this;
     alg := js "ed25519";
     created := (Date_now P (ticks σ) / 1000)%Z;
     expires := js_add (JFin (inject_Z (Date_now P (S (ticks σ)) / 1000)))
                       (expiry_of e);
     request_url := length (heap σ);
     request_url_value := u;
     request_headers := headers (super_of cmd);
     request_headers_value := h;
     request_method := method (super_of cmd);
     sign := sign_callback P this |}.

Definition signed_state (σ : State) (u : URL) (req : SignRequest) : State :=
  {| heap := heap σ ++ [CellURL u]; trace := trace σ ++ [EvSign req];
     ticks := S (S (ticks σ)) |}.

(** The end of [createSignedUrl], from the clock readings on, when the URL
    to sign holds [u] and stands at the first free location of [σ]. *)
Definition sign_and_append (cmd : Command) (e : option jsnumber) (σ : State)
    (u : URL) (inputs : list SignatureInput)
  : Outcome (Result SignedUrl MedoroDataplaneClientError) * State :=
  match (heap σ ++ [CellURL u]) !! headers (super_of cmd) with
  | Some (CellHeaders h) =>
      let req := sign_request cmd e σ u inputs h in
      match createSignatureForRequest P req with
      | Err er => (Ret (Err er), signed_state σ u req)
      | Ok (signatureInput, signature) =>
          (Ret (Ok {| signedUrl := S (length (heap σ));
                      signed_method := method (super_of cmd) |}),
           push_cell (signed_state σ u req)
             (CellURL (URL_set_param x_medoro_signature signature
                         (URL_set_param x_medoro_signature_input signatureInput u))))
      end
  | _ => (Wrong, {| heap := heap σ ++ [CellURL u]; trace := trace σ;
                    ticks := S (S (ticks σ)) |})
  end.

(** [send] reached the transport, which answered with [response]; [σ1] is
    the state in which the answer is routed. *)
Definition dispatched (cmd : Command) (σ : State) (response : Response)
    (σ1 : State) : Prop :=
  exists su σ0 req,
    createSignedUrl P this cmd None σ = (Ret (Ok su), σ0) /\
    fetch_request cmd su σ0 = (Ret req, σ0) /\
    fetch P req = Ok response /\
    σ1 = log σ0 (EvFetch req).

(** The error is one the classifier produced for [response]. *)
Definition classified_error (response : Response) (σ : State)
    (e : MedoroDataplaneClientError) : Prop :=
  exists σ', parseJsonResponse P response σ = (Ret (Err e), σ').

(** What a caller may do with commands, one call after the other on the
    same store: the operations the module exports, and the methods of
    [Headers] ([set], [append], [delete]) on the object a command hands out
    through its [headers] getter, which leave that object with a content of
    the caller's choice. *)
Inductive Call : Type :=
| CallNewPut (k : jsstring) (policy : loc) (content : option BodyInit)
| CallNewGet (k : jsstring)
| CallNewDelete (k : jsstring)
| CallCreateSignedUrl (command : Command) (expiresInSeconds : option jsnumber)
| CallSend (command : Command)
| CallHeadersUpdate (headers : loc) (content : list (jsstring * jsstring)).

Definition run_call (c : Call) (σ : State) : State :=
  match c with
  | CallNewPut k policy content => snd (new_PutObjectCommand k policy content σ)
  | CallNewGet k => snd (new_GetObjectCommand k σ)
  | CallNewDelete k => snd (new_DeleteObjectCommand k σ)
  | CallCreateSignedUrl command e => snd (createSignedUrl P this command e σ)
  | CallSend command => snd (send P this command σ)
  | CallHeadersUpdate l h =>
      match heap σ !! l with
      | Some (CellHeaders _) =>
          {| heap := <[l := CellHeaders h]> (heap σ);
             trace := trace σ; ticks := ticks σ |}
      | _ => σ
      end
  end.

Definition run_calls (cs : list Call) (σ : State) : State :=
  fold_left (fun σ c => run_call c σ) cs σ.

End Steps.

(** The call changes the [Headers] object at [l]. *)
Definition updates_headers (l : loc) (c : Call) : bool :=
  match c with
  | CallHeadersUpdate l' _ => bool_decide (l' = l)
  | _ => false
  end.

(** What the [Headers] object at [l], holding [h], holds after the calls
    if only the caller's updates change it: the content of the last update
    of [l], and [h] when there is none. *)
Definition headers_after (l : loc) (cs : list Call) (h : list (jsstring * jsstring))
  : list (jsstring * jsstring) :=
  fold_left (fun h c =>
               match c with
               | CallHeadersUpdate l' h' => if bool_decide (l' = l) then h' else h
               | _ => h
               end) cs h.

(** The body of an error envelope whose error is [error]. *)
Definition error_envelope (response : Response) (error : ApiError) : Prop :=
  declares_json response = true /\
  exists rawData, body_json response = Ok rawData /\
                  ApiResponseSchema_parse rawData = Some (ApiFailure error).

(** The body of a success envelope whose payload is [data]. *)
Definition success_envelope (response : Response) (data : option json) : Prop :=
  declares_json response = true /\
  exists rawData, body_json response = Ok rawData /\
                  ApiResponseSchema_parse rawData = Some (ApiSuccess data).

(** ** A sample platform, client and commands

    Used to run the client on concrete inputs. *)

Module Sample.

(** A stand-in for the URL parser on the keys of the samples: the key is a
    path under the sample origin. *)
Definition parse_url (input base : jsstring) : option URL :=
  Some {| protocol := js "https:";
          host := js "test-bucket.content-serve.com";
          pathname := 47%N :: input;
          searchParams := [];
          hash := [] |}.

Definition platform (answer : Result Response JsExn) : Platform :=
  {| URL_parse := parse_url;
     createSignatureForRequest :=
       fun _ => Ok (js "medoro=(...);keyid=test-key-id", js "medoro=:c2lnbmF0dXJl:");
     crypto_subtle_sign := fun _ _ => Ok [];
     fetch := fun _ => answer;
     Date_now := fun _ => 1700000000123%Z;
     ZodError_message := fun _ => js "Invalid input" |}.

Definition client : MedoroDataplaneClient :=
  {| origin := js "https://test-bucket.content-serve.com";
     privateKey := KeyHandle 1;
     keyId := js "test-key-id" |}.

(** [{ apiPutV1: { conditions: { content_length: { lte: 100 },
      content_type: 'text/plain' }, accessControl: 'public' } }] *)
Definition policy : ApiPutRequestValidationPolicy :=
  {| conditions := [(js "content_length", CondLte (NumInt 100));
                    (js "content_type", CondString (js "text/plain"))];
     accessControl := Public |}.

(** A policy the schema accepts whose one condition value holds the two
    code units U+65E5 U+672C. *)
Definition policy_beyond_latin1 : ApiPutRequestValidationPolicy :=
  {| conditions := [(js "title", CondString [26085; 26412]%N)];
     accessControl := Public |}.

(** The store in which a caller holds a policy object (location 0) and has
    built a command, whose [Headers] object stands at location 1. *)
Definition state_with (p : ApiPutRequestValidationPolicy) : State :=
  {| heap := [CellPolicy p; CellHeaders []]; trace := []; ticks := 0 |}.

Definition put : Command :=
  PutObjectCommand {| method := PUT; key := js "test-key"; headers := 1 |}
                   0 (Some (BodyText (js "Hello Medoro!"))).

Definition get : Command :=
  GetObjectCommand {| method := GET; key := js "test-key"; headers := 1 |}.

Definition delete : Command :=
  DeleteObjectCommand {| method := DELETE; key := js "test-key"; headers := 1 |}.

Definition json_response (st : Z) (text : jsstring) (body : json) : Response :=
  {| status := st; statusText := text;
     contentType := Some (js "application/json");
     body_text := Ok (Json.stringify body);
     body_json := Ok body |}.

Definition html_response (st : Z) (text : jsstring) : Response :=
  {| status := st; statusText := text;
     contentType := Some (js "text/html");
     body_text := Ok (js "<html>Bad Gateway</html>");
     body_json := Err (JsError (js "SyntaxError") (js "Unexpected token <")) |}.

Definition error_body (details : option json) : json :=
  JObj [(js "success", JBool false);
        (js "error",
         JObj ([(js "type", JStr (js "api_error"));
                (js "message", JStr (js "Not Found"));
                (js "code", JStr (js "404"))]
               ++ match details with
                  | Some d => [(js "details", d)]
                  | None => []
                  end))].

Definition success_body (data : json) : json :=
  JObj [(js "success", JBool true); (js "data", data)].

(** A transport that cannot reach the service. *)
Definition offline : Platform :=
  platform (Err (JsError (js "TypeError") (js "fetch failed"))).

Definition bad_gateway : Response := html_response 502 (js "Bad Gateway").

(** [404] with an error envelope whose error has [details: 0]. *)
Definition not_found_details_zero : Response :=
  json_response 404 (js "Not Found") (error_body (Some (JNum 0))).

Definition not_found : Response :=
  json_response 404 (js "Not Found") (error_body None).

Definition not_found_error : ApiError :=
  {| error_code := js "404"; error_type := js "api_error";
     error_message := js "Not Found"; error_details := None |}.

(** [404] with a body that is a success envelope. *)
Definition not_found_success : Response :=
  json_response 404 (js "Not Found") (success_body JNull).

Definition uploaded : Response :=
  json_response 200 (js "OK") (success_body (JObj [(js "key", JStr (js "test-key"))])).

End Sample.

(** ** Further notions used by the lemmas on the client *)

(** The query parameters of a URL without the two signature parameters. *)
Definition is_signature_param (name : jsstring) : bool :=
  Json.jsstring_eqb name x_medoro_signature_input
  || Json.jsstring_eqb name x_medoro_signature.

Definition unsigned_params (u : URL) : list (jsstring * jsstring) :=
  filter (fun p => negb (is_signature_param (fst p))) (searchParams u).

(** The object is a [URL]. *)
Definition is_url_cell (c : Cell) : bool :=
  match c with CellURL _ => true | _ => false end.

(** ** [atob] and the byte helpers of the first client

    [atob] is the forgiving base64 decoding of the platform: ASCII
    whitespace is dropped, one or two closing [=] are dropped when the
    length is a multiple of four, a length of 1 modulo 4 or a character
    outside the alphabet raises [InvalidCharacterError] ([None] here), and
    the bits left over at the end are discarded. *)

Module Atob.

Definition is_ascii_whitespace (c : N) : bool :=
  ((c =? 9) || (c =? 10) || (c =? 12) || (c =? 13) || (c =? 32))%N.

Definition remove_whitespace (data : jsstring) : jsstring :=
  List.filter (fun c => negb (is_ascii_whitespace c)) data.

Definition strip_padding (data : jsstring) : jsstring :=
  if (length data mod 4 =? 0)%nat then
    match rev data with
    | x :: r =>
        if (x =? Base64.pad)%N then
          match r with
          | y :: r' => if (y =? Base64.pad)%N then rev r' else rev r
          | [] => []
          end
        else data
    | [] => data
    end
  else data.

Fixpoint sextets (data : jsstring) : option (list N) :=
  match data with
  | [] => Some []
  | c :: r =>
      match Base64.sextet_of_char c, sextets r with
      | Some x, Some xs => Some (x :: xs)
      | _, _ => None
      end
  end.

Fixpoint bytes_of_sextets (l : list N) : list N :=
  match l with
  | a :: b :: c :: d :: r =>
      (a * 4 + b / 16)%N :: ((b mod 16) * 16 + c / 4)%N :: ((c mod 4) * 64 + d)%N
        :: bytes_of_sextets r
  | [a; b; c] => [(a * 4 + b / 16)%N; ((b mod 16) * 16 + c / 4)%N]
  | [a; b] => [(a * 4 + b / 16)%N]
  | _ => []
  end.

Definition atob (data : jsstring) : option jsstring :=
  let d := strip_padding (remove_whitespace data) in
  if (length d mod 4 =? 1)%nat then None
  else option_map bytes_of_sextets (sextets d).

End Atob.

(** The byte helpers and the response classifier of [MedoroClient]; a
    [Uint8Array] is the list of its bytes, and storing a number into it
    keeps the number modulo 256. *)

Module MedoroClient.

Definition to_uint8 (c : N) : Byte.byte :=
  match Byte.of_N (c mod 256) with
  | Some b => b
  | None => Byte.x00
  end.

(** [base64ToUint8Array(base64)] *)
Definition base64ToUint8Array (base64 : jsstring) : option (list Byte.byte) :=
  match Atob.atob base64 with
  | Some binaryString => Some (map to_uint8 binaryString)
  | None => None
  end.

(** [uint8ArrayToBase64(uint8Array)]: [btoa] of the text whose code units
    are the bytes.  The limit an engine puts on the number of arguments of
    [String.fromCharCode] is not modelled. *)
Definition uint8ArrayToBase64 (uint8Array : list Byte.byte) : option jsstring :=
  Base64.btoa (map Byte.to_N uint8Array).

(** [async parseJsonResponse(response)] of the first client: no look at the
    content type, and the error of an error envelope is returned as it
    is. *)
Definition parseJsonResponse (P : Platform) (response : Response)
  : M (Result (option json) MedoroDataplaneClientError) :=
  emit (EvBodyJson response) ;;;
  match body_json response with
  | Err e =>
      ret (Err {| type := js "json_parse_error";
                  message := js "Failed to parse JSON response: " ++ exn_message e;
                  code := None; details := None;
                  context := Some (CtxStatus (status response) (statusText response)) |})
  | Ok rawData =>
      match ApiResponseSchema_parse rawData with
      | None =>
          ret (Err {| type := js "validation_error";
                      message := js "API response validation failed: "
                                   ++ ZodError_message P rawData;
                      code := None; details := None;
                      context := Some (CtxIssues rawData) |})
      | Some (ApiSuccess data) => ret (Ok data)
      | Some (ApiFailure error) =>
          ret (Err {| type := error_type error;
                      message := error_message error;
                      code := Some (error_code error);
                      details := error_details error;
                      context := None |})
      end
  end.

End MedoroClient.

(** ** More sample runs *)

Module Scenario.

(** A platform whose signing primitive refuses to sign. *)
Definition signing_refused : MedoroDataplaneClientError :=
  {| type := js "signature_error";
     message := js "Failed to sign request: key is not usable";
     code := None; details := None; context := None |}.

Definition refusing : Platform :=
  {| URL_parse := Sample.parse_url;
     createSignatureForRequest := fun _ => Err signing_refused;
     crypto_subtle_sign :=
       fun _ _ => Err (JsError (js "InvalidAccessError") (js "key is not usable"));
     fetch := fun _ => Ok Sample.uploaded;
     Date_now := fun _ => 1700000000123%Z;
     ZodError_message := fun _ => js "Invalid input" |}.

(** The signed URL of [Sample.put] and of [Sample.get] from
    [Sample.state_with]: the second object allocated. *)
Definition signed_put : SignedUrl := {| signedUrl := 3; signed_method := PUT |}.

(** What [Sample.parse_url] gives for a key. *)
Definition sample_url (k : jsstring) : URL :=
  {| protocol := js "https:";
     host := js "test-bucket.content-serve.com";
     pathname := 47%N :: k;
     searchParams := [];
     hash := [] |}.



(** [502] with an HTML body of which [text()] rejects: the connection
    breaks while the body is read. *)
Definition connection_lost : JsExn := JsError (js "TypeError") (js "terminated").

Definition broken_body : Response :=
  {| status := 502; statusText := js "Bad Gateway";
     contentType := Some (js "text/html");
     body_text := Err connection_lost;
     body_json := Err connection_lost |}.

(** [command.headers.set('x-trace', '1')] on the command [Sample.get],
    whose [Headers] object is empty. *)
Definition set_trace_header : Call :=
  CallHeadersUpdate (headers (super_of Sample.get)) [(js "x-trace", js "1")].

(** The bytes of [Hi!]. *)
Definition hi : list Byte.byte := [Byte.x48; Byte.x69; Byte.x21].

End Scenario.

(* ===================================================================== *)
(** * Part II: lemmas                                                      *)
(* ===================================================================== *)

(** Case analysis on the tests of a cascade of conditionals, outermost
    first. *)
Ltac case_if :=
  match goal with
  | |- context [if ?c then _ else _] =>
      lazymatch c with
      | context [if _ then _ else _] => fail
      | _ => destruct c eqn:?
      end
  end.

(** Boolean tests on code units, turned into the facts [lia] reads. *)
Ltac bool_hyps :=
  repeat match goal with
         | H : (_ && _) = true |- _ => apply andb_true_iff in H; destruct H
         | H : (_ && _) = false |- _ => apply andb_false_iff in H; destruct H
         | H : (_ || _) = true |- _ => apply orb_true_iff in H; destruct H
         | H : (_ || _) = false |- _ => apply orb_false_iff in H; destruct H
         | H : negb _ = true |- _ => apply negb_true_iff in H
         | H : negb _ = false |- _ => apply negb_false_iff in H
         | H : (_ <=? _)%N = true |- _ => apply N.leb_le in H
         | H : (_ <=? _)%N = false |- _ => apply N.leb_gt in H
         | H : (_ <? _)%N = true |- _ => apply N.ltb_lt in H
         | H : (_ <? _)%N = false |- _ => apply N.ltb_ge in H
         | H : (_ =? _)%N = true |- _ => apply N.eqb_eq in H
         | H : (_ =? _)%N = false |- _ => apply N.eqb_neq in H
         end.

Ltac solve_cases :=
  repeat case_if; bool_hyps; solve [f_equal; lia | lia | reflexivity].

Ltac div_mod_lia := zify; Z.to_euclidean_division_equations; lia.

(** ** Base64 *)

Module Base64Facts.
Import Base64.

Lemma sextet_roundtrip (n : N) :
  (n < 64)%N -> sextet_of_char (char_of_sextet n) = Some n.
Proof.
  intros Hn. unfold char_of_sextet, sextet_of_char.
  solve_cases.
Qed.

Lemma char_of_sextet_not_pad (n : N) : (char_of_sextet n =? pad)%N = false.
Proof.
  unfold char_of_sextet, pad. apply N.eqb_neq. solve_cases.
Qed.

Lemma group3 (a b c : N) :
  (a <= 255)%N -> (b <= 255)%N -> (c <= 255)%N ->
  let s1 := (a / 4)%N in
  let s2 := ((a mod 4) * 16 + b / 16)%N in
  let s3 := ((b mod 16) * 4 + c / 64)%N in
  let s4 := (c mod 64)%N in
  (s1 < 64 /\ s2 < 64 /\ s3 < 64 /\ s4 < 64 /\
   s1 * 4 + s2 / 16 = a /\ (s2 mod 16) * 16 + s3 / 4 = b /\
   (s3 mod 4) * 64 + s4 = c)%N.
Proof.
  intros Ha Hb Hc. cbv zeta.
  repeat split; zify; Z.to_euclidean_division_equations; lia.
Qed.

Lemma list_ind3 {A} (Q : list A -> Prop) :
  Q [] -> (forall a, Q [a]) -> (forall a b, Q [a; b]) ->
  (forall a b c r, Q r -> Q (a :: b :: c :: r)) ->
  forall l, Q l.
Proof.
  intros H0 H1 H2 H3.
  assert (H : forall l, Q l /\ (forall a, Q (a :: l)) /\ (forall a b, Q (a :: b :: l))).
  { induction l as [|x l (IH0 & IH1 & IH2)]; repeat split; auto. }
  intros l. apply H.
Qed.

Lemma decode_encode (s : list N) :
  latin1 s = true -> decode (encode s) = Some s.
Proof.
  unfold latin1. induction s as [|a|a b|a b c r IH] using list_ind3; intros Hs.
  - reflexivity.
  - simpl in Hs. bool_hyps.
    cbn [encode decode].
    rewrite !sextet_roundtrip by div_mod_lia.
    rewrite N.eqb_refl. do 2 f_equal. div_mod_lia.
  - simpl in Hs. bool_hyps.
    cbn [encode decode].
    rewrite !sextet_roundtrip by div_mod_lia.
    rewrite N.eqb_refl, char_of_sextet_not_pad.
    do 2 f_equal; [div_mod_lia | f_equal; div_mod_lia].
  - simpl in Hs. bool_hyps.
    cbn [encode decode app].
    rewrite !sextet_roundtrip by div_mod_lia.
    rewrite char_of_sextet_not_pad, IH by assumption.
    destruct (group3 a b c) as (_ & _ & _ & _ & Ea & Eb & Ec); [assumption ..|].
    cbv zeta in Ea, Eb, Ec. rewrite Ea, Eb, Ec. reflexivity.
Qed.

(** [btoa] followed by decoding gives the string back. *)
Lemma decode_btoa (s b : jsstring) :
  btoa s = Some b -> decode b = Some s.
Proof.
  unfold btoa. destruct (latin1 s) eqn:E; [|discriminate].
  intros [= <-]. now apply decode_encode.
Qed.

End Base64Facts.

(** ** JSON: parsing what [JSON.stringify] writes *)

Module JsonFacts.
Import Json.

Lemma hex_roundtrip (d : N) : (d < 16)%N -> hex_value (hex_digit d) = Some d.
Proof. intros Hd. unfold hex_value, hex_digit. solve_cases. Qed.


Lemma parse_unicode_escape (c : N) (t : jsstring) :
  (c < 65536)%N ->
  parse_string_body (unicode_escape c ++ t) = cons_unit c (parse_string_body t).
Proof.
  intros Hc. unfold unicode_escape. cbn [app parse_string_body].
  change (92 =? 34)%N with false. change (92 =? 92)%N with true.
  change (117 =? 117)%N with true. cbv iota.
  rewrite !hex_roundtrip by div_mod_lia.
  replace (c / 4096 * 4096 + c / 256 mod 16 * 256 + c / 16 mod 16 * 16 + c mod 16)%N
    with c by div_mod_lia.
  unfold cons_unit. destruct (parse_string_body t) as [[str rest]|]; reflexivity.
Qed.

Lemma parse_plain_unit (c : N) (t : jsstring) :
  c <> 34%N -> c <> 92%N -> (32 <= c)%N ->
  parse_string_body (c :: t) = cons_unit c (parse_string_body t).
Proof.
  intros H1 H2 H3. cbn [parse_string_body].
  apply N.eqb_neq in H1, H2. rewrite H1, H2.
  apply N.ltb_ge in H3. rewrite H3. reflexivity.
Qed.

Lemma parse_quote_unit (c : N) (t : jsstring) :
  is_high_surrogate c = false -> is_low_surrogate c = false ->
  parse_string_body (quote_unit c ++ t) = cons_unit c (parse_string_body t).
Proof.
  intros Hh Hl. unfold quote_unit.
  repeat case_if; bool_hyps; subst;
    try reflexivity.
  - apply parse_unicode_escape. lia.
  - apply parse_plain_unit; lia.
Qed.

Lemma parse_quote_units (n : nat) :
  forall s rest, length s <= n ->
  parse_string_body (quote_units s ++ 34%N :: rest) = Some (s, rest).
Proof.
  induction n as [|n IH]; intros s rest Hlen.
  - destruct s; [reflexivity | simpl in Hlen; lia].
  - destruct s as [|c r]; [reflexivity|]. simpl in Hlen.
    cbn [quote_units].
    destruct (is_high_surrogate c) eqn:Hh.
    + destruct r as [|d r'].
      * rewrite parse_unicode_escape by (unfold is_high_surrogate in Hh; bool_hyps; lia).
        reflexivity.
      * destruct (is_low_surrogate d) eqn:Hl.
        -- cbn [app].
           unfold is_high_surrogate in Hh. unfold is_low_surrogate in Hl. bool_hyps.
           rewrite !parse_plain_unit by lia.
           rewrite IH by (simpl in Hlen; lia). reflexivity.
        -- rewrite <- app_assoc, parse_unicode_escape
             by (unfold is_high_surrogate in Hh; bool_hyps; lia).
           rewrite IH by lia. reflexivity.
    + destruct (is_low_surrogate c) eqn:Hl.
      * rewrite <- app_assoc, parse_unicode_escape
          by (unfold is_low_surrogate in Hl; bool_hyps; lia).
        rewrite IH by lia. reflexivity.
      * rewrite <- app_assoc, parse_quote_unit by assumption.
        rewrite IH by lia. reflexivity.
Qed.

(** A quoted string is read back, whatever follows it. *)
Lemma parse_quote (s rest : jsstring) :
  parse_string_body (quote_units s ++ 34%N :: rest) = Some (s, rest).
Proof. now apply (parse_quote_units (length s)). Qed.


Lemma chars_of_uint_digits (d : Decimal.uint) :
  forallb is_digit (chars_of_uint d) = true.
Proof. induction d; simpl; auto. Qed.

Lemma span_digits_app (ds rest : jsstring) :
  forallb is_digit ds = true ->
  match rest with [] => True | c :: _ => is_digit c = false end ->
  span_digits (ds ++ rest) = (ds, rest).
Proof.
  intros Hds Hrest. induction ds as [|c ds IH]; cbn [span_digits forallb app] in *.
  - destruct rest as [|c r]; [reflexivity|]. cbn [span_digits]. now rewrite Hrest.
  - apply andb_true_iff in Hds as [Hc Hds]. rewrite Hc, IH by assumption. reflexivity.
Qed.

Lemma uint_of_chars_of_uint (d : Decimal.uint) :
  uint_of_chars (chars_of_uint d) = d.
Proof. induction d; simpl; f_equal; assumption. Qed.

(** A normalised numeral is [0] or starts with a non-zero digit. *)
Lemma unorm_fixpoint_head (d : Decimal.uint) :
  Decimal.unorm d = d ->
  match chars_of_uint d with
  | [] => False
  | c :: more => (c =? 48)%N && negb (bool_decide (more = [])) = false
  end.
Proof.
  intros Hd. destruct d; simpl; try reflexivity.
  - now apply unorm_nonnil in Hd.
  - destruct d; simpl; try reflexivity.
    all: exfalso; rewrite unorm_D0 in Hd;
      match type of Hd with
      | Decimal.unorm ?x = _ =>
          pose proof (nb_digits_unorm x ltac:(discriminate)) as Hn
      end;
      rewrite Hd in Hn; simpl in Hn; lia.
Qed.

Lemma to_uint_normal (p : positive) : Decimal.unorm (Pos.to_uint p) = Pos.to_uint p.
Proof.
  rewrite <- (DecimalPos.Unsigned.to_of (Pos.to_uint p)).
  now rewrite DecimalPos.Unsigned.of_to.
Qed.

Lemma parse_digits_chars (d : Decimal.uint) (rest : jsstring) :
  Decimal.unorm d = d -> ends_number rest ->
  parse_digits (chars_of_uint d ++ rest) = Some (d, rest).
Proof.
  intros Hd Hrest. unfold parse_digits.
  rewrite span_digits_app.
  - pose proof (unorm_fixpoint_head d Hd) as Hh.
    pose proof (uint_of_chars_of_uint d) as Hu.
    destruct (chars_of_uint d) as [|c more]; [contradiction|].
    rewrite Hh, Hu.
    destruct rest as [|x r]; [reflexivity|].
    destruct Hrest as (_ & H1 & H2 & H3).
    apply N.eqb_neq in H1, H2, H3. now rewrite H1, H2, H3.
  - apply chars_of_uint_digits.
  - destruct rest; [exact I | apply Hrest].
Qed.

Lemma chars_of_uint_head (d : Decimal.uint) :
  match chars_of_uint d with
  | [] => True
  | c :: _ => (c =? 45)%N = false
  end.
Proof. destruct d; simpl; auto. Qed.

Lemma parse_number_to_string (n : Z) (rest : jsstring) :
  ends_number rest ->
  parse_number (number_to_string n ++ rest) = Some (n, rest).
Proof.
  intros Hrest. unfold number_to_string.
  pose proof (DecimalZ.of_to n) as Hn.
  destruct n as [|p|p]; cbn [Z.to_int] in *.
  - cbn [chars_of_uint app parse_number]. change (48 =? 45)%N with false. cbv iota.
    change (48%N :: rest) with (chars_of_uint (Decimal.D0 Decimal.Nil) ++ rest).
    rewrite parse_digits_chars by (auto || reflexivity). now rewrite Hn.
  - pose proof (chars_of_uint_head (Pos.to_uint p)) as Hh.
    pose proof (parse_digits_chars (Pos.to_uint p) rest (to_uint_normal p) Hrest) as Hp.
    pose proof (unorm_fixpoint_head _ (to_uint_normal p)) as Hne.
    destruct (chars_of_uint (Pos.to_uint p)) as [|c more] eqn:E; [contradiction|].
    cbn [app parse_number]. rewrite Hh.
    cbn [app] in Hp. rewrite Hp, Hn. reflexivity.
  - cbn [app parse_number]. change (45 =? 45)%N with true. cbv iota.
    rewrite parse_digits_chars by (auto using to_uint_normal).
    now rewrite Hn.
Qed.

Lemma stringify_arr l : stringify (JArr l) = 91%N :: stringify_elems l ++ [93%N].
Proof. reflexivity. Qed.
Lemma stringify_obj m : stringify (JObj m) = 123%N :: stringify_members m ++ [125%N].
Proof. reflexivity. Qed.
Lemma jsize_arr l : jsize (JArr l) = S (elems_size l).
Proof. reflexivity. Qed.
Lemma jsize_obj m : jsize (JObj m) = S (members_size m).
Proof. reflexivity. Qed.
Lemma wf_arr l : wf_json (JArr l) = wf_elems l.
Proof. reflexivity. Qed.
Lemma wf_obj m : wf_json (JObj m) = (NoDup (map fst m) /\ wf_members m).
Proof. reflexivity. Qed.

Lemma obj_set_fresh k v o :
  k ∉ map fst o -> obj_set k v o = o ++ [(k, v)].
Proof.
  induction o as [|[k' v'] o IH]; intros Hk; [reflexivity|].
  cbn [obj_set map fst] in *. apply not_elem_of_cons in Hk as [Hne Hk].
  unfold jsstring_eqb. rewrite bool_decide_eq_false_2 by congruence.
  cbn [app]. now rewrite IH.
Qed.

Lemma obj_of_members_nodup ms :
  NoDup (map fst ms) -> obj_of_members ms = ms.
Proof.
  unfold obj_of_members.
  assert (H : forall acc, NoDup (map fst (acc ++ ms)) ->
              fold_left (fun o kv => obj_set (fst kv) (snd kv) o) ms acc = acc ++ ms).
  { induction ms as [|[k v] ms IH]; intros acc Hnd; cbn [fold_left fst snd].
    - now rewrite app_nil_r.
    - rewrite obj_set_fresh.
      + rewrite IH; rewrite <- app_assoc; [reflexivity | exact Hnd].
      + rewrite map_app in Hnd. apply NoDup_app in Hnd as (_ & Hd & _).
        intros Hin. apply (Hd k Hin). cbn. left. }
  intros Hnd. now apply (H []).
Qed.


Lemma number_to_string_head n :
  exists c t, number_to_string n = c :: t /\ (is_digit c = true \/ c = 45%N).
Proof.
  unfold number_to_string. destruct (Z.to_int n) as [d|d] eqn:E.
  - pose proof (chars_of_uint_digits d) as Hd.
    destruct (chars_of_uint d) as [|c t] eqn:Ec.
    + exfalso. destruct n as [|p|p]; cbn [Z.to_int] in E; inversion E; subst d.
      * discriminate Ec.
      * pose proof (unorm_fixpoint_head _ (to_uint_normal p)) as Hh.
        now rewrite Ec in Hh.
    + cbn [forallb] in Hd. apply andb_true_iff in Hd as [Hc _]. eauto.
  - eauto.
Qed.

Lemma stringify_head v :
  exists c t, stringify v = c :: t /\ opens_value c.
Proof.
  unfold opens_value.
  destruct v as [|[]|n|s|l|m];
    try (do 2 eexists; split; [reflexivity|]; repeat split; (reflexivity || lia)).
  1: exists 110%N, (js "ull").
  2: exists 116%N, (js "rue").
  3: exists 102%N, (js "alse").
  1-3: split; [reflexivity|]; repeat split; (reflexivity || lia).
  cbn [stringify]. destruct (number_to_string_head n) as (c & t & -> & Hc).
  exists c, t. split; [reflexivity|]. unfold is_ws, is_digit in *.
  destruct Hc as [Hc| ->]; [|repeat split; lia].
  bool_hyps. repeat split; try lia.
  repeat (apply orb_false_iff; split); apply N.eqb_neq; lia.
Qed.

Lemma skip_ws_head c t : is_ws c = false -> skip_ws (c :: t) = c :: t.
Proof. intros H. cbn [skip_ws]. now rewrite H. Qed.

Lemma skip_ws_stringify v rest : skip_ws (stringify v ++ rest) = stringify v ++ rest.
Proof.
  destruct (stringify_head v) as (c & t & -> & Hws & _). now apply skip_ws_head.
Qed.

Lemma parse_value_number fuel c t :
  is_digit c = true \/ c = 45%N ->
  parse_value (S fuel) (c :: t) =
    match parse_number (c :: t) with
    | Some (n, rest) => Some (JNum n, rest)
    | None => None
    end.
Proof.
  intros Hc. cbn [parse_value].
  assert (Hws : is_ws c = false).
  { unfold is_ws, is_digit in *. destruct Hc as [Hc| ->]; [|reflexivity].
    bool_hyps. repeat (apply orb_false_iff; split); apply N.eqb_neq; lia. }
  rewrite skip_ws_head by assumption.
  assert (Hn : forall k, In k [110; 116; 102; 34; 91; 123]%N -> (c =? k)%N = false).
  { intros k Hk. apply N.eqb_neq. unfold is_digit in Hc.
    destruct Hc as [Hc| ->]; [bool_hyps|]; cbn in Hk; intuition lia. }
  rewrite !Hn by (cbn; tauto). reflexivity.
Qed.

Section Induction.
Variable n : nat.
Hypothesis IHn : forall v, jsize v <= n -> forall fuel rest,
  jsize v <= fuel -> wf_json v -> ends_number rest ->
  parse_value fuel (stringify v ++ rest) = Some (v, rest).

Lemma parse_elements_stringify l :
  elems_size l <= n -> l <> [] -> wf_elems l ->
  forall fuel rest, elems_size l <= fuel ->
  parse_elements fuel (stringify_elems l ++ 93%N :: rest) = Some (l, rest).
Proof.
  induction l as [|x l IHl]; intros Hsz Hne Hwf fuel rest Hfuel; [congruence|].
  cbn [elems_size] in Hsz, Hfuel. destruct Hwf as [Hx Hl].
  destruct fuel as [|f]; [lia|]. cbn [parse_elements stringify_elems].
  rewrite <- app_assoc.
  destruct l as [|y l'].
  - cbn [app]. rewrite IHn by (try assumption; try lia; cbn; repeat split; lia).
    reflexivity.
  - cbn [app]. rewrite IHn by (try assumption; try lia; cbn; repeat split; lia).
    rewrite skip_ws_head by reflexivity.
    change (44 =? 44)%N with true. cbv iota.
    rewrite IHl by (try assumption; try lia; congruence). reflexivity.
Qed.

Lemma parse_members_stringify m :
  members_size m <= n -> m <> [] -> wf_members m ->
  forall fuel rest, members_size m <= fuel ->
  parse_members fuel (stringify_members m ++ 125%N :: rest) = Some (m, rest).
Proof.
  induction m as [|[k x] m IHm]; intros Hsz Hne Hwf fuel rest Hfuel; [congruence|].
  cbn [members_size] in Hsz, Hfuel. destruct Hwf as [Hx Hm].
  destruct fuel as [|f]; [lia|]. cbn [parse_members stringify_members].
  unfold quote. cbn [app]. rewrite skip_ws_head by reflexivity.
  change (34 =? 34)%N with true. cbv iota.
  rewrite <- !app_assoc. cbn [app]. rewrite parse_quote.
  rewrite skip_ws_head by reflexivity.
  change (58 =? 58)%N with true. cbv iota.
  destruct m as [|ky m'].
  - rewrite <- app_assoc. cbn [app].
    rewrite IHn by (try assumption; try lia; cbn; repeat split; lia).
    reflexivity.
  - rewrite <- app_assoc. cbn [app]. rewrite IHn by (try assumption; try lia; cbn; repeat split; lia).
    rewrite skip_ws_head by reflexivity.
    change (44 =? 44)%N with true. cbv iota.
    rewrite IHm by (try assumption; try lia; congruence). reflexivity.
Qed.
End Induction.

Lemma parse_value_stringify_bounded (n : nat) :
  forall v, jsize v <= n -> forall fuel rest,
    jsize v <= fuel -> wf_json v -> ends_number rest ->
    parse_value fuel (stringify v ++ rest) = Some (v, rest).
Proof.
  induction n as [|n IH]; intros v Hn fuel rest Hfuel Hwf Hrest.
  { destruct v; cbn in Hn; lia. }
  destruct fuel as [|f]; [destruct v; cbn in Hfuel; lia|].
  destruct v as [|[]|z|s|l|m].
  - reflexivity.
  - reflexivity.
  - reflexivity.
  - cbn [stringify].
    destruct (number_to_string_head z) as (c & t & E & Hc).
    pose proof (parse_number_to_string z rest Hrest) as Hp.
    rewrite E in *. cbn [app] in *.
    rewrite parse_value_number by assumption. now rewrite Hp.
  - cbn [stringify]. unfold quote. cbn [app]. rewrite <- app_assoc. cbn [app].
    cbn [parse_value]. rewrite skip_ws_head by reflexivity.
    change (34 =? 110)%N with false. change (34 =? 116)%N with false.
    change (34 =? 102)%N with false. change (34 =? 34)%N with true. cbv iota.
    now rewrite parse_quote.
  - rewrite stringify_arr, jsize_arr in *. rewrite wf_arr in Hwf.
    cbn [app]. rewrite <- app_assoc. cbn [app].
    cbn [parse_value]. rewrite skip_ws_head by reflexivity.
    change (91 =? 110)%N with false. change (91 =? 116)%N with false.
    change (91 =? 102)%N with false. change (91 =? 34)%N with false.
    change (91 =? 91)%N with true. cbv iota.
    destruct l as [|x l'].
    + reflexivity.
    + assert (Hhead : exists c t, stringify_elems (x :: l') ++ 93%N :: rest = c :: t
                                  /\ opens_value c).
      { cbn [stringify_elems]. destruct (stringify_head x) as (c & t & -> & Hc).
        cbn [app]. eauto. }
      destruct Hhead as (c & t & E & Hws & H93 & _).
      rewrite E, skip_ws_head by assumption. apply N.eqb_neq in H93. rewrite H93.
      rewrite <- E.
      rewrite (parse_elements_stringify n IH) by (try assumption; try lia; congruence).
      reflexivity.
  - rewrite stringify_obj, jsize_obj in *. rewrite wf_obj in Hwf.
    destruct Hwf as [Hnd Hwf].
    cbn [app]. rewrite <- app_assoc. cbn [app].
    cbn [parse_value]. rewrite skip_ws_head by reflexivity.
    change (123 =? 110)%N with false. change (123 =? 116)%N with false.
    change (123 =? 102)%N with false. change (123 =? 34)%N with false.
    change (123 =? 91)%N with false. change (123 =? 123)%N with true. cbv iota.
    destruct m as [|[k x] m'].
    + reflexivity.
    + assert (E : stringify_members ((k, x) :: m') ++ 125%N :: rest
                  = 34%N :: tl (stringify_members ((k, x) :: m') ++ 125%N :: rest))
        by reflexivity.
      rewrite E, skip_ws_head by reflexivity.
      change (34 =? 125)%N with false. cbv iota. rewrite <- E.
      rewrite (parse_members_stringify n IH) by (try assumption; try lia; congruence).
      now rewrite obj_of_members_nodup.
Qed.

Lemma jsize_le_length v : jsize v <= length (stringify v).
Proof.
  revert v.
  assert (H : forall n v, jsize v <= n -> jsize v <= length (stringify v)).
  { induction n as [|n IH]; intros v Hn; [destruct v; cbn in Hn; lia|].
    destruct v as [|[]|z|s|l|m]; try (cbn; lia).
    - cbn [jsize stringify]. destruct (number_to_string_head z) as (c & t & -> & _).
      cbn. lia.
    - rewrite stringify_arr, jsize_arr in *. cbn [length]. rewrite length_app. cbn [length].
      assert (Hl : forall l0, elems_size l0 <= n ->
                     elems_size l0 <= length (stringify_elems l0) + 1).
      { clear Hn. intros l0. induction l0 as [|x l' IHl]; intros Hs; [cbn; lia|].
        cbn [elems_size stringify_elems] in *.
        rewrite length_app. specialize (IH x ltac:(lia)).
        destruct l' as [|y l'']; [cbn; lia|].
        cbn [length] in *. specialize (IHl ltac:(lia)). lia. }
      specialize (Hl l ltac:(lia)). lia.
    - rewrite stringify_obj, jsize_obj in *. cbn [length]. rewrite length_app. cbn [length].
      assert (Hl : forall m0, members_size m0 <= n ->
                     members_size m0 <= length (stringify_members m0) + 1).
      { clear Hn. intros m0. induction m0 as [|[k x] m' IHm]; intros Hs; [cbn; lia|].
        cbn [members_size stringify_members] in *.
        rewrite !length_app. cbn [length]. rewrite length_app.
        specialize (IH x ltac:(lia)).
        destruct m' as [|y m'']; [cbn; lia|].
        cbn [length] in *. specialize (IHm ltac:(lia)). lia. }
      specialize (Hl m ltac:(lia)). lia. }
  intros v. now apply (H (jsize v)).
Qed.

(** [JSON.parse(JSON.stringify(v))] is [v]. *)
Lemma parse_stringify (v : json) : wf_json v -> parse (stringify v) = Some v.
Proof.
  intros Hwf. unfold parse.
  pose proof (parse_value_stringify_bounded (jsize v) v (le_n _)
                (S (length (stringify v))) [] ) as H.
  rewrite app_nil_r in H. rewrite H; [reflexivity | | assumption | exact I].
  pose proof (jsize_le_length v). lia.
Qed.

End JsonFacts.

(** ** Query parameters *)

Module SearchParamsFacts.
Import SearchParams.

Lemma get_filter_other (name name' : jsstring) l :
  name <> name' ->
  get name' (filter (fun p => negb (Json.jsstring_eqb (fst p) name)) l) = get name' l.
Proof.
  intros Hne. induction l as [|[n v] l IH]; [reflexivity|].
  rewrite filter_cons. cbn [fst get]. unfold Json.jsstring_eqb in *.
  destruct (bool_decide_reflect (n = name)) as [->|Hn]; cbn [negb].
  - rewrite decide_False by (intros []).
    rewrite bool_decide_eq_false_2 by assumption. exact IH.
  - rewrite decide_True by exact I. cbn [get]. now rewrite IH.
Qed.

Lemma get_set_same (name value : jsstring) l :
  get name (set name value l) = Some value.
Proof.
  induction l as [|[n v] l IH]; cbn [set get]; unfold Json.jsstring_eqb in *.
  - now rewrite bool_decide_eq_true_2.
  - destruct (bool_decide_reflect (n = name)) as [->|Hn]; cbn [get];
      unfold Json.jsstring_eqb.
    + now rewrite bool_decide_eq_true_2.
    + now rewrite bool_decide_eq_false_2.
Qed.

Lemma get_set_other (name name' value : jsstring) l :
  name <> name' -> get name' (set name value l) = get name' l.
Proof.
  intros Hne. induction l as [|[n v] l IH]; cbn [set get]; unfold Json.jsstring_eqb in *.
  - now rewrite bool_decide_eq_false_2.
  - destruct (bool_decide_reflect (n = name)) as [->|Hn]; cbn [get];
      unfold Json.jsstring_eqb.
    + rewrite bool_decide_eq_false_2 by assumption. now apply get_filter_other.
    + now rewrite IH.
Qed.
End SearchParamsFacts.

(** ** The policy as a JSON value *)

Module SchemaFacts.
Import Json Schemas.

Lemma wf_number (x : PolicyNumber) : wf_json (number_to_json x).
Proof. destruct x; exact I. Qed.

Lemma wf_condition (c : ValidationCondition) : wf_json (condition_to_json c).
Proof.
  destruct c as [s|n|s|s|n|n|l|lo hi]; cbn [condition_to_json];
    try exact I; try apply wf_number;
    (split; [apply NoDup_singleton|]); (split; [|exact I]);
    try exact I; try apply wf_number.
  - induction l as [|[s|n] l IH]; cbn; auto using wf_number.
  - repeat split; apply wf_number.
Qed.

Lemma wf_obj_intro (m : list (jsstring * json)) :
  NoDup (map fst m) -> wf_members m -> wf_json (JObj m).
Proof. intros Hnd Hm. split; assumption. Qed.

Lemma wf_policy (p : ApiPutRequestValidationPolicy) :
  NoDup (map fst (conditions p)) -> wf_json (policy_to_json p).
Proof.
  intros Hnd. unfold policy_to_json.
  apply wf_obj_intro; [apply NoDup_singleton|].
  split; [|exact I].
  apply wf_obj_intro.
  { cbn. apply NoDup_cons. split; [|apply NoDup_singleton].
    rewrite list_elem_of_singleton. discriminate. }
  split; [|repeat split].
  apply wf_obj_intro.
  - rewrite map_map. cbn [fst]. exact Hnd.
  - clear Hnd. induction (conditions p) as [|[k c] l IH]; cbn; [exact I|].
    split; [apply wf_condition | exact IH].
Qed.
Lemma string_or_number_all_impl (f g : PolicyNumber -> bool) (x : StringOrNumber) :
  (forall n, f n = true -> g n = true) ->
  string_or_number_all f x = true -> string_or_number_all g x = true.
Proof. intros H. destruct x; cbn; auto. Qed.

Lemma condition_all_impl (f g : PolicyNumber -> bool) (c : ValidationCondition) :
  (forall n, f n = true -> g n = true) ->
  condition_all f c = true -> condition_all g c = true.
Proof.
  intros H. destruct c as [s|n|s|s|n|n|l|lo hi]; cbn [condition_all]; auto.
  - rewrite !forallb_forall. intros Hl x Hx.
    exact (string_or_number_all_impl f g x H (Hl x Hx)).
  - rewrite !andb_true_iff. intros [? ?]; auto.
Qed.

Lemma policy_all_impl (f g : PolicyNumber -> bool) (p : ApiPutRequestValidationPolicy) :
  (forall n, f n = true -> g n = true) ->
  policy_all f p = true -> policy_all g p = true.
Proof.
  intros H. unfold policy_all. rewrite !forallb_forall. intros Hl kc Hkc.
  exact (condition_all_impl f g (snd kc) H (Hl kc Hkc)).
Qed.

Lemma plain_is_integer (n : PolicyNumber) : plain_integer n = true -> is_integer n = true.
Proof. destruct n; auto. Qed.

Lemma parse_number_to_json (n : PolicyNumber) :
  is_integer n = true -> exists z, n = NumInt z /\ number_to_json n = JNum z.
Proof. destruct n; try discriminate. eauto. Qed.

Lemma parse_condition_to_json (c : ValidationCondition) :
  condition_all is_integer c = true ->
  ValidationConditionSchema_parse (condition_to_json c) = Some c.
Proof.
  destruct c as [s|n|s|s|n|n|l|lo hi]; cbn [condition_all]; intros Hc;
    try reflexivity;
    try (destruct (parse_number_to_json n Hc) as (z & -> & _); reflexivity).
  - cbn [condition_to_json]. unfold ValidationConditionSchema_parse.
    change (obj_get (js "startsWith") [(js "oneOf", JArr (map string_or_number_to_json l))])
      with (@None json).
    change (obj_get (js "endsWith") [(js "oneOf", JArr (map string_or_number_to_json l))])
      with (@None json).
    change (obj_get (js "lte") [(js "oneOf", JArr (map string_or_number_to_json l))])
      with (@None json).
    change (obj_get (js "gte") [(js "oneOf", JArr (map string_or_number_to_json l))])
      with (@None json).
    change (obj_get (js "oneOf") [(js "oneOf", JArr (map string_or_number_to_json l))])
      with (Some (JArr (map string_or_number_to_json l))).
    cbv iota beta.
    assert (E : all_some (map string_or_number_parse (map string_or_number_to_json l))
                = Some l).
    { induction l as [|[s|n] l IH]; [reflexivity|..];
        cbn [forallb string_or_number_all] in Hc; apply andb_true_iff in Hc as [Hx Hl];
        cbn [map all_some string_or_number_parse string_or_number_to_json].
      - now rewrite (IH Hl).
      - destruct (parse_number_to_json n Hx) as (z & -> & _).
        cbn [number_to_json string_or_number_parse]. now rewrite (IH Hl). }
    now rewrite E.
  - apply andb_true_iff in Hc as [Hlo Hhi].
    destruct (parse_number_to_json lo Hlo) as (zl & -> & _).
    destruct (parse_number_to_json hi Hhi) as (zh & -> & _). reflexivity.
Qed.

Lemma str_or_else {A} (x : option json) (f : jsstring -> option A) (K : option A) c :
  match x with Some (JStr s) => f s | _ => K end = Some c ->
  (exists s, f s = Some c) \/ K = Some c.
Proof. destruct x as [[]|]; eauto. Qed.

Lemma num_or_else {A} (x : option json) (f : Z -> option A) (K : option A) c :
  match x with Some (JNum n) => f n | _ => K end = Some c ->
  (exists n, f n = Some c) \/ K = Some c.
Proof. destruct x as [[]|]; eauto. Qed.

Lemma all_some_integer (l : list json) (r : list StringOrNumber) :
  all_some (map string_or_number_parse l) = Some r ->
  forallb (string_or_number_all is_integer) r = true.
Proof.
  revert r. induction l as [|x l IH]; intros r; cbn [map all_some].
  - intros [= <-]. reflexivity.
  - destruct (string_or_number_parse x) as [y|] eqn:E; [|discriminate].
    destruct (all_some _) as [ys|]; [|discriminate]. intros [= <-].
    cbn [forallb]. rewrite (IH _ eq_refl), andb_true_r.
    destruct x; try discriminate; injection E as <-; reflexivity.
Qed.

Lemma range_inv (x : option json) (c : ValidationCondition) :
  match x with
  | Some (JArr [JNum lo; JNum hi]) => Some (CondRange (NumInt lo) (NumInt hi))
  | _ => None
  end = Some c ->
  exists lo hi, c = CondRange (NumInt lo) (NumInt hi).
Proof.
  destruct x as [[| | | |[|[| |lo| | |] [|[| |hi| | |] [|? ?]]]|]|]; try discriminate.
  intros [= <-]. eauto.
Qed.

(** What the schema reads holds integer-valued numbers only. *)
Lemma parse_condition_integer (v : json) (c : ValidationCondition) :
  ValidationConditionSchema_parse v = Some c -> condition_all is_integer c = true.
Proof.
  unfold ValidationConditionSchema_parse.
  destruct v as [| |n|s| |o]; try discriminate; try (intros [= <-]; reflexivity).
  intros H.
  apply str_or_else in H as [[s [= <-]] | H]; [reflexivity|].
  apply str_or_else in H as [[s [= <-]] | H]; [reflexivity|].
  apply num_or_else in H as [[n [= <-]] | H]; [reflexivity|].
  apply num_or_else in H as [[n [= <-]] | H]; [reflexivity|].
  destruct (match obj_get (js "oneOf") o with
            | Some (JArr l) => all_some (map string_or_number_parse l)
            | _ => None
            end) as [l|] eqn:E.
  - injection H as <-. cbn [condition_all].
    destruct (obj_get (js "oneOf") o) as [[| | | |l0|]|]; try discriminate.
    exact (all_some_integer _ _ E).
  - apply range_inv in H as (lo & hi & ->). reflexivity.
Qed.

(** The schema accepts the object of a typed policy whose condition names
    are not empty and whose numbers are integers, and reads the policy back
    from it. *)
Lemma schema_accepts_policy (p : ApiPutRequestValidationPolicy) :
  Forall (fun kc => fst kc <> []) (conditions p) ->
  policy_all is_integer p = true ->
  ApiPutRequestValidationPolicySchema_parse (policy_to_json p) = Some p.
Proof.
  intros Hk Hint. destruct p as [conds ac]. unfold policy_all in Hint.
  cbn [conditions accessControl] in *.
  unfold ApiPutRequestValidationPolicySchema_parse, policy_to_json.
  cbn [conditions accessControl].
  match goal with
  | |- context [obj_get (js "apiPutV1") ((js "apiPutV1", ?v) :: ?r)] =>
      change (obj_get (js "apiPutV1") ((js "apiPutV1", v) :: r)) with (Some v)
  end.
  cbv iota beta.
  match goal with
  | |- context [obj_get (js "conditions") ((js "conditions", ?v) :: ?r)] =>
      change (obj_get (js "conditions") ((js "conditions", v) :: r)) with (Some v)
  end.
  match goal with
  | |- context [obj_get (js "accessControl") [?a; (js "accessControl", ?v)]] =>
      change (obj_get (js "accessControl") [a; (js "accessControl", v)]) with (Some v)
  end.
  cbv iota beta.
  match goal with
  | |- match ?x with Some _ => _ | None => _ end = _ =>
      assert (E : x = Some conds)
  end.
  { induction Hk as [|[k c] conds Hne _ IH]; [reflexivity|].
    cbn [forallb snd] in Hint. apply andb_true_iff in Hint as [Hc Hrest].
    cbn [map all_some fst snd] in *. rewrite (parse_condition_to_json _ Hc).
    destruct k as [|a k]; [congruence|]. now rewrite (IH Hrest). }
  rewrite E. now destruct ac.
Qed.



(** [policy_to_json] is what [JSON.stringify] serialises for the policy
    object. *)
Lemma to_json_policy (p : ApiPutRequestValidationPolicy) :
  JsValue.to_json (policy_value p) = policy_to_json p.
Proof.
  unfold policy_to_json, policy_value. cbn [JsValue.to_json map]. do 7 f_equal.
  induction (conditions p) as [|[k c] l IH]; [reflexivity|].
  cbn [map fst snd]. rewrite IH. do 2 f_equal.
  destruct c as [s|n|s|s|n|n|l0|lo hi]; try reflexivity.
  cbn [condition_to_json condition_value JsValue.to_json map]. do 4 f_equal.
  induction l0 as [|[s|n] l0 IH0]; [reflexivity|..];
    cbn [map string_or_number_to_json string_or_number_value JsValue.to_json];
    now rewrite IH0.
Qed.

End SchemaFacts.

(** ** The expiry check *)

Lemma Qltb_lt (a b : Q) : Qltb a b = true <-> (a < b)%Q.
Proof. unfold Qltb, Qlt. apply Z.ltb_lt. Qed.

Lemma expiry_rejected_fin (q : Q) :
  expiry_rejected (JFin q) = true <-> ~ in_closed_interval 10 604800 (JFin q).
Proof.
  unfold expiry_rejected, in_closed_interval, js_lt.
  rewrite orb_true_iff, !Qltb_lt. split.
  - intros [H|H] [H1 H2].
    + exact (Qlt_not_le _ _ H H1).
    + exact (Qlt_not_le _ _ H H2).
  - intros Hn. destruct (Qlt_le_dec q (inject_Z 10)) as [|H1]; [now left|].
    destruct (Qlt_le_dec (inject_Z 604800) q) as [|H2]; [now right|].
    exfalso. apply Hn. split; assumption.
Qed.

(** The check on every number but NaN: rejected exactly outside [10, 604800]. *)
Lemma expiry_rejected_iff (x : jsnumber) :
  x <> JNaN ->
  (expiry_rejected x = true <-> ~ in_closed_interval 10 604800 x).
Proof.
  intros Hx. destruct x as [q| | |].
  - apply expiry_rejected_fin.
  - congruence.
  - split; [intros _ [] | reflexivity].
  - split; [intros _ [] | reflexivity].
Qed.

Lemma expiry_accepted_inside (x : jsnumber) :
  in_closed_interval 10 604800 x -> expiry_rejected x = false.
Proof.
  intros Hin. destruct x as [q| | |]; try contradiction.
  destruct (expiry_rejected (JFin q)) eqn:E; [|reflexivity].
  apply expiry_rejected_fin in E. contradiction.
Qed.

Lemma expiry_endpoints_accepted :
  expiry_rejected (JFin (inject_Z 10)) = false /\
  expiry_rejected (JFin (inject_Z 604800)) = false /\
  expiry_rejected (expiry_of None) = false.
Proof. repeat split. Qed.

(** ** Running the client *)

Ltac red_state := cbn [heap trace ticks].

Ltac run :=
  unfold searchParams_set, URL_copy, load_url, load_headers, load_policy,
    load, store, alloc, emit, now, btoa, new_URL, bind, ret, throw, wrong,
    push_cell, log; red_state.

Lemma lookup_fresh (h : list Cell) (c : Cell) : (h ++ [c]) !! length h = Some c.
Proof. apply list_lookup_middle. reflexivity. Qed.

Lemma insert_fresh (h : list Cell) (c c' : Cell) :
  <[length h := c']> (h ++ [c]) = h ++ [c'].
Proof. rewrite insert_app_r_alt by lia. now rewrite Nat.sub_diag. Qed.

Section ClientFacts.

Variable P : Platform.
Variable this : MedoroDataplaneClient.

Lemma sign_phase cmd e σ u inputs :
  (t1 <- now P ;;
   t2 <- now P ;;
   u' <- load_url (length (heap σ)) ;;
   h <- load_headers (headers (super_of cmd)) ;;
   let req :=
     {| signatureInputs := inputs;
        signatureLabel := js "medoro";
        keyid := keyId this;
        alg := js "ed25519";
        created := (t1 / 1000)%Z;
        expires := js_add (JFin (inject_Z (t2 / 1000))) (expiry_of e);
        request_url := length (heap σ);
        request_url_value := u';
        request_headers := headers (super_of cmd);
        request_headers_value := h;
        request_method := method (super_of cmd);
        sign := sign_callback P this |} in
   emit (EvSign req) ;;;
   match createSignatureForRequest P req with
   | Err er => ret (Err er)
   | Ok (signatureInput, signature) =>
       signed <- URL_copy (length (heap σ)) ;;
       searchParams_set signed x_medoro_signature_input signatureInput ;;;
       searchParams_set signed x_medoro_signature signature ;;;
       ret (Ok {| signedUrl := signed;
                  signed_method := method (super_of cmd) |})
   end) (push_cell σ (CellURL u))
  = sign_and_append P this cmd e σ u inputs.
Proof.
  unfold sign_and_append, signed_state, sign_request. run.
  rewrite lookup_fresh. red_state.
  destruct ((heap σ ++ [CellURL u]) !! headers (super_of cmd)) as [[?|h|?|?]|];
    red_state; try reflexivity.
  match goal with
  | |- context [createSignatureForRequest P ?r] =>
      destruct (createSignatureForRequest P r) as [[si sg]|er]
  end; red_state; [|reflexivity].
  rewrite lookup_fresh. red_state.
  rewrite lookup_fresh. red_state.
  rewrite insert_fresh, lookup_fresh. red_state.
  rewrite insert_fresh, length_app, Nat.add_1_r. reflexivity.
Qed.

(** [createSignedUrl], path by path. *)
Lemma createSignedUrl_unfold cmd e σ :
  createSignedUrl P this cmd e σ =
  if expiry_rejected (expiry_of e) then (Ret (Err validation_error_expiry), σ)
  else
    match URL_parse P (key (super_of cmd)) (origin this) with
    | None => (Throw (JsError (js "TypeError") (js "Invalid URL")), σ)
    | Some u0 =>
        match policy_in cmd with
        | Some pol =>
            match (heap σ ++ [CellURL u0]) !! pol with
            | Some (CellPolicy p) =>
                match Base64.btoa (Json.stringify (Schemas.policy_to_json p)) with
                | Some encoded =>
                    sign_and_append P this cmd e σ
                      (URL_set_param x_medoro_policy encoded u0)
                      (base_signature_inputs ++ [QueryParam x_medoro_policy])
                | None => (Throw InvalidCharacterError, push_cell σ (CellURL u0))
                end
            | _ => (Wrong, push_cell σ (CellURL u0))
            end
        | None => sign_and_append P this cmd e σ u0 base_signature_inputs
        end
    end.
Proof.
  unfold createSignedUrl. fold (expiry_of e).
  destruct (expiry_rejected (expiry_of e)); [reflexivity|].
  unfold bind at 1. unfold new_URL.
  destruct (URL_parse P _ _) as [u0|]; [|reflexivity].
  unfold alloc at 1. fold (push_cell σ (CellURL u0)).
  destruct (policy_in cmd) as [pol|].
  - unfold bind at 1. unfold bind at 1. unfold load_policy, bind at 1, load at 1.
    cbn [heap push_cell].
    destruct ((heap σ ++ [CellURL u0]) !! pol) as [[?|?|p|?]|]; try reflexivity.
    unfold ret at 1. unfold bind at 1, btoa.
    destruct (Base64.btoa _) as [encoded|]; [|reflexivity].
    unfold ret at 1. unfold bind at 1.
    change {| heap := heap σ ++ [CellURL u0]; trace := trace σ; ticks := ticks σ |}
      with (push_cell σ (CellURL u0)).
    assert (E : searchParams_set (length (heap σ)) x_medoro_policy encoded
                  (push_cell σ (CellURL u0))
                = (Ret tt, push_cell σ (CellURL (URL_set_param x_medoro_policy encoded u0)))).
    { run. rewrite lookup_fresh. cbn. now rewrite insert_fresh. }
    rewrite E. unfold ret at 1. apply sign_phase.
  - unfold bind at 1. unfold ret at 1. apply sign_phase.
Qed.

(** A rejected expiry ends the call at once: nothing is allocated, no
    collaborator is called, the clock is not read. *)
Lemma createSignedUrl_rejects cmd e σ :
  expiry_rejected (expiry_of e) = true ->
  createSignedUrl P this cmd e σ = (Ret (Err validation_error_expiry), σ).
Proof. intros H. now rewrite createSignedUrl_unfold, H. Qed.

(** What [sign_and_append] leaves behind. *)
Lemma sign_and_append_inv cmd e σ u inputs r σ' :
  sign_and_append P this cmd e σ u inputs = (r, σ') ->
  (r = Wrong /\ heap σ' = heap σ ++ [CellURL u] /\ trace σ' = trace σ) \/
  exists h,
    (heap σ ++ [CellURL u]) !! headers (super_of cmd) = Some (CellHeaders h) /\
    let req := sign_request P this cmd e σ u inputs h in
    trace σ' = trace σ ++ [EvSign req] /\
    ((exists er, createSignatureForRequest P req = Err er /\ r = Ret (Err er) /\
                 heap σ' = heap σ ++ [CellURL u]) \/
     (exists si sg,
        createSignatureForRequest P req = Ok (si, sg) /\
        r = Ret (Ok {| signedUrl := S (length (heap σ));
                       signed_method := method (super_of cmd) |}) /\
        heap σ' = heap σ ++
                    [CellURL u;
                     CellURL (URL_set_param x_medoro_signature sg
                                (URL_set_param x_medoro_signature_input si u))])).
Proof.
  unfold sign_and_append.
  destruct (_ !! headers (super_of cmd)) as [[?|h|?|?]|];
    try (intros [= <- <-]; left; repeat split; reflexivity).
  cbv zeta.
  destruct (createSignatureForRequest P _) as [[si sg]|er] eqn:E;
    intros [= <- <-]; right; exists h; (split; [reflexivity|]); cbv zeta;
    (split; [reflexivity|]).
  - right. exists si, sg. repeat split; try assumption.
    cbn. now rewrite <- app_assoc.
  - left. exists er. repeat split; assumption.
Qed.

(** [createSignedUrl] only appends to the store. *)
Lemma createSignedUrl_extends cmd e σ r σ' :
  createSignedUrl P this cmd e σ = (r, σ') ->
  exists new, heap σ' = heap σ ++ new.
Proof.
  rewrite createSignedUrl_unfold.
  repeat match goal with
         | |- context [match ?x with _ => _ end] =>
             lazymatch x with
             | context [match _ with _ => _ end] => fail
             | _ => destruct x eqn:?
             end
         end;
    try (intros [= <- <-];
         first [ exists []; symmetry; apply app_nil_r | eexists; reflexivity ]);
    intros H; apply sign_and_append_inv in H;
    destruct H as [(_ & -> & _) | (h & _ & _ & [(er & _ & _ & ->) | (si & sg & _ & _ & ->)])];
    eexists; reflexivity.
Qed.

Lemma createSignedUrl_frame cmd e σ r σ' l c :
  createSignedUrl P this cmd e σ = (r, σ') ->
  heap σ !! l = Some c -> heap σ' !! l = Some c.
Proof.
  intros H Hl. apply createSignedUrl_extends in H as [new ->].
  now apply lookup_app_l_Some.
Qed.

End ClientFacts.

Section SigningClaims.

Variable P : Platform.
Variable this : MedoroDataplaneClient.


(** C1.  Whenever [createSignedUrl] calls the signing primitive for a store
    command, the request it hands over lists the [x-medoro-policy] query
    parameter after the four base components, and the URL of that request
    already carries the parameter, set to the base64 encoding of the JSON
    serialisation of the command's policy.  The call is the only one
    made, and every signed URL returned comes from such a call. *)
Theorem policy_is_part_of_the_signed_surface
    (super : MedoroDataplaneCommand) (pol : loc) (content : option BodyInit)
    (e : option jsnumber) (σ σ' : State)
    (r : Outcome (Result SignedUrl MedoroDataplaneClientError))
    (p : ApiPutRequestValidationPolicy) :
  heap σ !! pol = Some (CellPolicy p) ->
  createSignedUrl P this (PutObjectCommand super pol content) e σ = (r, σ') ->
  exists calls,
    trace σ' = trace σ ++ calls /\
    (forall ev, ev ∈ calls ->
       exists req encoded,
         ev = EvSign req /\
         signatureInputs req = base_signature_inputs ++ [QueryParam x_medoro_policy] /\
         Base64.btoa (Json.stringify (Schemas.policy_to_json p)) = Some encoded /\
         SearchParams.get x_medoro_policy (searchParams (request_url_value req))
           = Some encoded) /\
    (forall su, r = Ret (Ok su) ->
       exists req sig,
         calls = [EvSign req] /\ createSignatureForRequest P req = Ok sig).
Proof.
  intros Hp. rewrite createSignedUrl_unfold.
  destruct (expiry_rejected _).
  { intros [= <- <-]. exists []. rewrite app_nil_r.
    repeat split; [intros ev Hev; inversion Hev | discriminate]. }
  destruct (URL_parse P _ _) as [u0|].
  2:{ intros [= <- <-]. exists []. rewrite app_nil_r.
      repeat split; [intros ev Hev; inversion Hev | discriminate]. }
  cbn [policy_in]. rewrite (lookup_app_l_Some _ _ _ _ Hp).
  destruct (Base64.btoa _) as [encoded|] eqn:Hb.
  2:{ intros [= <- <-]. exists []. cbn. rewrite app_nil_r.
      repeat split; [intros ev Hev; inversion Hev | discriminate]. }
  intros H. apply sign_and_append_inv in H.
  destruct H as [(-> & _ & Ht) | (h & _ & H)].
  { exists []. rewrite app_nil_r.
    repeat split; [assumption | intros ev Hev; inversion Hev | discriminate]. }
  cbv zeta in H. destruct H as [Ht Hr].
  eexists. split; [exact Ht|]. split.
  - intros ev Hev. apply list_elem_of_singleton in Hev as ->.
    do 2 eexists. split; [reflexivity|]. split; [reflexivity|].
    split; [reflexivity|]. cbn. apply SearchParamsFacts.get_set_same.
  - intros su ->. destruct Hr as [(er & _ & [=] & _) | (si & sg & Hs & _ & _)].
    do 2 eexists. split; [reflexivity | exact Hs].
Qed.


(** C9.  [createSignedUrl] leaves every object that exists when it is
    called as it is: the command's [Headers], its policy and its content,
    and any other object of the caller.  The command's own fields have no
    setter.  The signed URL it returns is a new object, distinct from the
    URL handed to the signing primitive, which still holds what was signed. *)
Theorem createSignedUrl_mutates_nothing
    (cmd : Command) (e : option jsnumber) (σ σ' : State)
    (r : Outcome (Result SignedUrl MedoroDataplaneClientError)) :
  createSignedUrl P this cmd e σ = (r, σ') ->
  (forall l c, heap σ !! l = Some c -> heap σ' !! l = Some c) /\
  (forall su, r = Ret (Ok su) ->
     signed_method su = method (super_of cmd) /\
     heap σ !! signedUrl su = None /\
     exists req,
       trace σ' = trace σ ++ [EvSign req] /\
       request_url req <> signedUrl su /\
       heap σ !! request_url req = None /\
       heap σ' !! request_url req = Some (CellURL (request_url_value req))).
Proof.
  intros H. split.
  { intros l c. now apply createSignedUrl_frame with (1 := H). }
  intros su ->. rewrite createSignedUrl_unfold in H.
  assert (Hend : forall u inputs,
            sign_and_append P this cmd e σ u inputs = (Ret (Ok su), σ') ->
            signed_method su = method (super_of cmd) /\
            heap σ !! signedUrl su = None /\
            exists req,
              trace σ' = trace σ ++ [EvSign req] /\
              request_url req <> signedUrl su /\
              heap σ !! request_url req = None /\
              heap σ' !! request_url req = Some (CellURL (request_url_value req))).
  { intros u inputs Hs. apply sign_and_append_inv in Hs.
    destruct Hs as [([=] & _) | (h & _ & Hs)]. cbv zeta in Hs.
    destruct Hs as [Ht [(er & _ & [=] & _) | (si & sg & _ & [= ->] & Hh)]].
    cbn [signedUrl signed_method]. split; [reflexivity|].
    split; [apply lookup_ge_None; lia|].
    eexists. split; [exact Ht|]. cbn [request_url request_url_value sign_request].
    split; [lia|]. split; [apply lookup_ge_None; lia|].
    rewrite Hh. rewrite lookup_app_r by lia. now rewrite Nat.sub_diag. }
  destruct (expiry_rejected _); [discriminate|].
  destruct (URL_parse P _ _) as [u0|]; [|discriminate].
  destruct (policy_in cmd) as [pol|]; [|now apply Hend in H].
  destruct (_ !! pol) as [[?|?|p|?]|]; try discriminate.
  destruct (Base64.btoa _); [|discriminate]. now apply Hend in H.
Qed.

End SigningClaims.

Section DispatchFacts.

Variable P : Platform.
Variable this : MedoroDataplaneClient.

(** The classifier reads the body once and touches nothing else. *)
Lemma parseJsonResponse_state response σ :
  snd (parseJsonResponse P response σ) = log σ (body_read response).
Proof.
  unfold parseJsonResponse, body_read.
  destruct (declares_json response); cbn [negb]; run.
  - destruct (body_json response) as [rawData|ex]; [|reflexivity].
    destruct (ApiResponseSchema_parse rawData) as [[data|error]|]; reflexivity.
  - destruct (body_text response); reflexivity.
Qed.

(** Its result does not depend on the state it runs in. *)
Lemma parseJsonResponse_result response σ σ0 :
  fst (parseJsonResponse P response σ) = fst (parseJsonResponse P response σ0).
Proof.
  unfold parseJsonResponse.
  destruct (declares_json response); cbn [negb]; run.
  - destruct (body_json response) as [rawData|ex]; [|reflexivity].
    destruct (ApiResponseSchema_parse rawData) as [[data|error]|]; reflexivity.
  - destruct (body_text response); reflexivity.
Qed.

Lemma parseJsonResponse_error_envelope response error σ :
  error_envelope response error ->
  parseJsonResponse P response σ =
    (Ret (Err {| type := error_type error;
                 message := error_message error;
                 code := Some (error_code error);
                 details := error_details error;
                 context := Some (details_or (error_details error)
                                    (statusText response)) |}),
     log σ (EvBodyJson response)).
Proof.
  intros (Hj & rawData & Hb & Hs). unfold parseJsonResponse.
  rewrite Hj. cbn [negb]. run. now rewrite Hb, Hs.
Qed.

Lemma parseJsonResponse_success_envelope response data σ :
  success_envelope response data ->
  parseJsonResponse P response σ = (Ret (Ok data), log σ (EvBodyJson response)).
Proof.
  intros (Hj & rawData & Hb & Hs). unfold parseJsonResponse.
  rewrite Hj. cbn [negb]. run. now rewrite Hb, Hs.
Qed.

(** A result [Ok] of the classifier is the payload of a success envelope. *)
Lemma parseJsonResponse_ok_inv response σ data σ' :
  parseJsonResponse P response σ = (Ret (Ok data), σ') ->
  success_envelope response data.
Proof.
  unfold parseJsonResponse, success_envelope.
  destruct (declares_json response); cbn [negb]; run.
  - destruct (body_json response) as [rawData|ex]; [|discriminate].
    destruct (ApiResponseSchema_parse rawData) as [[d|error]|] eqn:E;
      try discriminate.
    intros [= -> _]. split; [reflexivity|]. now exists rawData.
  - destruct (body_text response); discriminate.
Qed.

Lemma route_response_unfold cmd response σ :
  route_response P cmd response σ =
    match cmd with
    | GetObjectCommand _ =>
        if response_ok response then (Ret (Ok (RawResponse response)), σ)
        else
          (match fst (parseJsonResponse P response σ) with
           | Ret (Ok _) => Ret (Err (api_error response))
           | Ret (Err e) => Ret (Err e)
           | Throw ex => Throw ex
           | Wrong => Wrong
           end, log σ (body_read response))
    | _ =>
        (match fst (parseJsonResponse P response σ) with
         | Ret (Ok data) => Ret (Ok (Data data))
         | Ret (Err e) => Ret (Err e)
         | Throw ex => Throw ex
         | Wrong => Wrong
         end, log σ (body_read response))
    end.
Proof.
  pose proof (parseJsonResponse_state response σ) as Hs.
  unfold route_response.
  destruct cmd as [s pol content|s|s];
    [| destruct (response_ok response); cbn [negb]; [reflexivity|] |];
    unfold bind;
    destruct (parseJsonResponse P response σ) as [[[data|e]|ex|] σ'];
    cbn [fst snd] in *; subst σ'; reflexivity.
Qed.

Lemma send_dispatched cmd σ response σ1 :
  dispatched P this cmd σ response σ1 ->
  send P this cmd σ = route_response P cmd response σ1.
Proof.
  intros (su & σ0 & req & Hs & Hr & Hf & ->).
  unfold send. unfold bind at 1. rewrite Hs.
  unfold bind at 1. rewrite Hr. unfold bind at 1, emit.
  fold (log σ0 (EvFetch req)). now rewrite Hf.
Qed.

(** Up to the call of the transport, [send] has called the signing
    primitive once and nothing else. *)
Lemma fetch_request_state cmd su σ r σ' :
  fetch_request cmd su σ = (r, σ') -> σ' = σ.
Proof.
  unfold fetch_request, load_body. run.
  destruct cmd as [s pol [[text|l]|]|s|s];
    repeat match goal with
           | |- context [match ?x with _ => _ end] =>
               lazymatch x with
               | context [match _ with _ => _ end] => fail
               | _ => destruct x
               end
           end; intros [= _ <-]; reflexivity.
Qed.

Lemma createSignedUrl_ok_trace cmd e σ su σ' :
  createSignedUrl P this cmd e σ = (Ret (Ok su), σ') ->
  exists req, trace σ' = trace σ ++ [EvSign req].
Proof.
  rewrite createSignedUrl_unfold.
  assert (Hend : forall u inputs,
            sign_and_append P this cmd e σ u inputs = (Ret (Ok su), σ') ->
            exists req, trace σ' = trace σ ++ [EvSign req]).
  { intros u inputs Hs. apply sign_and_append_inv in Hs.
    destruct Hs as [([=] & _) | (h & _ & Hs)]. cbv zeta in Hs.
    destruct Hs as [Ht _]. eauto. }
  destruct (expiry_rejected _); [discriminate|].
  destruct (URL_parse P _ _) as [u0|]; [|discriminate].
  destruct (policy_in cmd) as [pol|]; [|apply Hend].
  destruct (_ !! pol) as [[?|?|p|?]|]; try discriminate.
  destruct (Base64.btoa _); [|discriminate]. apply Hend.
Qed.

Lemma dispatched_trace cmd σ response σ1 :
  dispatched P this cmd σ response σ1 ->
  exists sreq freq, trace σ1 = trace σ ++ [EvSign sreq; EvFetch freq].
Proof.
  intros (su & σ0 & req & Hs & _ & _ & ->).
  apply createSignedUrl_ok_trace in Hs as [sreq Ht].
  exists sreq, req. cbn. rewrite Ht, <- app_assoc. reflexivity.
Qed.

End DispatchFacts.

Lemma truthy_false_iff (d : json) :
  truthy d = false <-> d = JNull \/ d = JBool false \/ d = JNum 0 \/ d = JStr [].
Proof.
  destruct d as [|[]|n|s|l|m]; cbn; split; intros H;
    repeat match goal with
           | H : _ \/ _ |- _ => destruct H
           end;
    try discriminate; try congruence; auto.
  - apply negb_false_iff, Z.eqb_eq in H. subst. auto.
  - injection H as ->. reflexivity.
  - apply negb_false_iff, bool_decide_eq_true in H. subst. auto 6.
  - injection H as ->. reflexivity.
Qed.

Section DispatchClaims.

Variable P : Platform.
Variable this : MedoroDataplaneClient.

(** [send] only appends to the store. *)
Lemma send_extends cmd σ r σ' :
  send P this cmd σ = (r, σ') -> exists new, heap σ' = heap σ ++ new.
Proof.
  unfold send. unfold bind at 1.
  destruct (createSignedUrl P this cmd None σ) as [[[su|e]|ex|] σ0] eqn:Hc;
    apply createSignedUrl_extends in Hc as [new Hnew];
    try (intros [= _ <-]; eauto).
  unfold bind at 1.
  destruct (fetch_request cmd su σ0) as [[req|ex|] σ0'] eqn:Hr;
    apply fetch_request_state in Hr as ->;
    try (intros [= _ <-]; eauto).
  unfold bind at 1, emit.
  destruct (fetch P req) as [response|ex].
  - rewrite route_response_unfold.
    destruct cmd as [s pol content|s|s]; try destruct (response_ok response);
      intros [= _ <-]; cbn [heap log]; eauto.
  - intros [= _ <-]. cbn [heap]. eauto.
Qed.

(** C6, as the code has it.  For a body that validates as an error
    envelope the classifier returns the embedded error (its code, type,
    message and details) with a context added: the details when they are
    truthy, and the HTTP status text when the details are missing or are
    one of [null], [false], [0] and the empty string. *)
Theorem error_envelope_context
    (response : Response) (error : ApiError) (σ : State) :
  error_envelope response error ->
  exists e,
    parseJsonResponse P response σ = (Ret (Err e), log σ (EvBodyJson response)) /\
    type e = error_type error /\
    message e = error_message error /\
    code e = Some (error_code error) /\
    details e = error_details error /\
    (forall d, error_details error = Some d ->
       d <> JNull -> d <> JBool false -> d <> JNum 0 -> d <> JStr [] ->
       context e = Some (CtxDetails d)) /\
    (forall d, error_details error = Some d ->
       d = JNull \/ d = JBool false \/ d = JNum 0 \/ d = JStr [] ->
       context e = Some (CtxText (statusText response))) /\
    (error_details error = None ->
     context e = Some (CtxText (statusText response))).
Proof.
  intros He. rewrite (parseJsonResponse_error_envelope P _ _ σ He).
  eexists. split; [reflexivity|].
  cbn [type message code details context]. repeat split.
  - intros d -> H1 H2 H3 H4. cbn [details_or].
    destruct (truthy d) eqn:E; [reflexivity|].
    apply truthy_false_iff in E. intuition congruence.
  - intros d -> Hd. cbn [details_or].
    apply truthy_false_iff in Hd. now rewrite Hd.
  - intros ->. reflexivity.
Qed.

(** C7.  For a store or a remove command [send] always runs the answer of
    the transport through the classifier, whatever the HTTP status: the
    body is read, an error envelope gives the envelope's error and a
    success envelope gives its [data]. *)
Theorem store_remove_always_classified
    (cmd : Command) (σ σ1 : State) (response : Response) :
  store_or_remove cmd ->
  dispatched P this cmd σ response σ1 ->
  send P this cmd σ =
    (match fst (parseJsonResponse P response σ1) with
     | Ret (Ok data) => Ret (Ok (Data data))
     | Ret (Err e) => Ret (Err e)
     | Throw ex => Throw ex
     | Wrong => Wrong
     end, log σ1 (body_read response)) /\
  (forall error, error_envelope response error ->
     exists e,
       fst (send P this cmd σ) = Ret (Err e) /\
       type e = error_type error /\ message e = error_message error /\
       code e = Some (error_code error) /\ details e = error_details error) /\
  (forall data, success_envelope response data ->
     fst (send P this cmd σ) = Ret (Ok (Data data))).
Proof.
  intros Hk Hd. rewrite (send_dispatched P this _ _ _ _ Hd), route_response_unfold.
  destruct cmd as [s pol content|s|s]; try contradiction.
  all: split; [reflexivity|]; split.
  all: try (intros error He;
            rewrite (parseJsonResponse_error_envelope P _ _ σ1 He);
            eexists; split; [reflexivity|]; repeat split).
  all: intros data Hs; now rewrite (parseJsonResponse_success_envelope P _ _ σ1 Hs).
Qed.

(** The routing of a fetch command: on a success status [send] returns the
    response itself and no body accessor is called (the only calls made
    are the signing and the transport); on any other status the body goes
    through the classifier, and the error it gives, the error of an error
    envelope or the failure to parse or validate the body, is the error
    returned. *)
Theorem fetch_routing
    (super : MedoroDataplaneCommand) (σ σ1 : State) (response : Response) :
  dispatched P this (GetObjectCommand super) σ response σ1 ->
  (response_ok response = true ->
     send P this (GetObjectCommand super) σ = (Ret (Ok (RawResponse response)), σ1) /\
     exists sreq freq, trace σ1 = trace σ ++ [EvSign sreq; EvFetch freq]) /\
  (response_ok response = false ->
     snd (send P this (GetObjectCommand super) σ) = log σ1 (body_read response) /\
     (forall e, classified_error P response σ1 e ->
        fst (send P this (GetObjectCommand super) σ) = Ret (Err e)) /\
     (forall error, error_envelope response error ->
        exists e, classified_error P response σ1 e /\
                  type e = error_type error /\ message e = error_message error /\
                  code e = Some (error_code error)) /\
     (declares_json response = false ->
      forall content, body_text response = Ok content ->
        exists e, classified_error P response σ1 e /\ type e = js "json_parse_error") /\
     (declares_json response = true ->
      forall ex, body_json response = Err ex ->
        exists e, classified_error P response σ1 e /\ type e = js "json_parse_error") /\
     (declares_json response = true ->
      forall rawData, body_json response = Ok rawData ->
        ApiResponseSchema_parse rawData = None ->
        exists e, classified_error P response σ1 e /\ type e = js "validation_error")).
Proof.
  intros Hd. rewrite (send_dispatched P this _ _ _ _ Hd), route_response_unfold.
  split; intros Hok; rewrite Hok.
  { split; [reflexivity|]. exact (dispatched_trace P this _ _ _ _ Hd). }
  cbn [fst snd]. split; [reflexivity|]. split; [|split; [|split; [|split]]].
  - intros e (σ' & He). now rewrite He.
  - intros error He. eexists. split.
    + eexists. exact (parseJsonResponse_error_envelope P _ _ σ1 He).
    + repeat split.
  - intros Hj content Hc. eexists. split.
    + eexists. unfold parseJsonResponse. rewrite Hj. cbn [negb]. run.
      rewrite Hc. reflexivity.
    + reflexivity.
  - intros Hj ex Hb. eexists. split.
    + eexists. unfold parseJsonResponse. rewrite Hj. cbn [negb]. run.
      rewrite Hb. reflexivity.
    + reflexivity.
  - intros Hj rawData Hb Hs. eexists. split.
    + eexists. unfold parseJsonResponse. rewrite Hj. cbn [negb]. run.
      rewrite Hb, Hs. reflexivity.
    + reflexivity.
Qed.

(** A fetch answered with a status outside the success range and a body
    that does not declare JSON, of which [text()] rejects: [send] throws
    what [text()] threw, and the classifier has no error to return. *)
Lemma send_throws_on_unreadable_body
    (super : MedoroDataplaneCommand) (σ σ1 : State) (response : Response) (ex : JsExn) :
  dispatched P this (GetObjectCommand super) σ response σ1 ->
  response_ok response = false ->
  declares_json response = false ->
  body_text response = Err ex ->
  send P this (GetObjectCommand super) σ = (Throw ex, log σ1 (EvBodyText response)) /\
  forall e σ0, ~ classified_error P response σ0 e.
Proof.
  intros Hd Hok Hj Hb. split.
  - rewrite (send_dispatched P this _ _ _ _ Hd), route_response_unfold, Hok.
    unfold parseJsonResponse, body_read. rewrite Hj. cbn [negb]. run.
    now rewrite Hb.
  - intros e σ0 [σ' He]. revert He.
    unfold parseJsonResponse. rewrite Hj. cbn [negb]. run. now rewrite Hb.
Qed.

(** C4, as the code has it.  After the transport has answered, the client
    itself raises the error of kind [api_error] when, and only when, the
    command is a fetch, the HTTP status is not a success status and the
    body nevertheless classifies as a success envelope; that error carries
    the HTTP status, in decimal, as its code.  Any other error returned is
    the one the classifier gave for the body. *)
Theorem api_error_origin
    (cmd : Command) (σ σ1 : State) (response : Response) :
  dispatched P this cmd σ response σ1 ->
  (forall super data,
     cmd = GetObjectCommand super -> response_ok response = false ->
     success_envelope response data ->
     fst (send P this cmd σ) = Ret (Err (api_error response))) /\
  (forall e,
     fst (send P this cmd σ) = Ret (Err e) ->
     classified_error P response σ1 e \/
     (e = api_error response /\
      (exists super, cmd = GetObjectCommand super) /\
      response_ok response = false /\
      exists data, success_envelope response data)) /\
  type (api_error response) = js "api_error" /\
  code (api_error response) = Some (Json.number_to_string (status response)).
Proof.
  intros Hd. rewrite (send_dispatched P this _ _ _ _ Hd), route_response_unfold.
  split; [|split; [|split; reflexivity]].
  - intros super data -> Hok Hs. rewrite Hok.
    now rewrite (parseJsonResponse_success_envelope P _ _ σ1 Hs).
  - intros e.
    destruct (parseJsonResponse P response σ1) as [[[data|e']|ex|] σ'] eqn:Hp;
      destruct cmd as [s pol content|s|s]; cbn [fst];
      try destruct (response_ok response) eqn:Hok; cbn [fst];
      try discriminate; intros [= <-];
      try (left; eexists; exact Hp).
    right. split; [reflexivity|]. split; [eauto|]. split; [reflexivity|].
    exists data. now apply (parseJsonResponse_ok_inv P _ _ _ _ Hp).
Qed.

(** An operation of the module leaves a [Headers] object as it is; an
    update by the caller changes the object it names, and no other. *)
Lemma run_call_headers (c : Call) (σ : State) (l : loc) (h : list (jsstring * jsstring)) :
  heap σ !! l = Some (CellHeaders h) ->
  heap (run_call P this c σ) !! l = Some (CellHeaders (headers_after l [c] h)).
Proof.
  intros Hl.
  assert (Hgrow : forall σ', (exists new, heap σ' = heap σ ++ new) ->
                             heap σ' !! l = Some (CellHeaders h)).
  { intros σ' [new ->]. now apply lookup_app_l_Some. }
  destruct c as [k pol content|k|k|cmd e|cmd|l' h']; cbn [run_call headers_after fold_left].
  - apply Hgrow. eexists. reflexivity.
  - apply Hgrow. eexists. reflexivity.
  - apply Hgrow. eexists. reflexivity.
  - apply Hgrow. destruct (createSignedUrl P this cmd e σ) as [r σ'] eqn:H.
    exact (createSignedUrl_extends P this _ _ _ _ _ H).
  - apply Hgrow. destruct (send P this cmd σ) as [r σ'] eqn:H.
    exact (send_extends _ _ _ _ H).
  - destruct (bool_decide (l' = l)) eqn:E.
    + apply bool_decide_eq_true in E as ->. rewrite Hl. cbn [heap].
      apply list_lookup_insert_eq. exact (lookup_lt_Some _ _ _ Hl).
    + apply bool_decide_eq_false in E.
      destruct (heap σ !! l') as [[?|?|?|?]|]; try exact Hl.
      cbn [heap]. rewrite list_lookup_insert_ne by exact E. exact Hl.
Qed.

Lemma run_calls_headers (cs : list Call) (σ : State) (l : loc)
    (h : list (jsstring * jsstring)) :
  heap σ !! l = Some (CellHeaders h) ->
  heap (run_calls P this cs σ) !! l = Some (CellHeaders (headers_after l cs h)).
Proof.
  revert σ h. induction cs as [|c cs IH]; intros σ h Hl; [exact Hl|].
  cbn [run_calls fold_left]. fold (run_calls P this cs (run_call P this c σ)).
  apply (IH _ _ (run_call_headers c σ l h Hl)).
Qed.

Lemma headers_after_no_update (l : loc) (cs : list Call) (h : list (jsstring * jsstring)) :
  Forall (fun c => updates_headers l c = false) cs -> headers_after l cs h = h.
Proof.
  intros H. revert h. induction H as [|c cs Hc _ IH]; intros h; [reflexivity|].
  cbn [headers_after fold_left]. fold (headers_after l cs).
  destruct c as [| | | | |l' h']; try apply IH.
  cbn [updates_headers] in Hc. rewrite Hc. apply IH.
Qed.

(** C10.  The constructors of the three command classes fix the method:
    PUT, GET and DELETE, whatever the caller passes; a command built without
    headers gets a new, empty [Headers] object.  The method and the
    reference to the headers are fields without setter.  The [Headers]
    object itself is handed out by the getter: whatever calls follow, on
    this command or on others, it holds what the caller's last update of it
    wrote, and what it held before when there is no such update; the
    operations of the module never change it. *)
Theorem method_fixed_by_variant
    (k : jsstring) (pol : loc) (content : option BodyInit) (σ : State) :
  new_PutObjectCommand k pol content σ
    = (Ret (PutObjectCommand
              {| method := PUT; key := k; headers := length (heap σ) |} pol content),
       push_cell σ (CellHeaders [])) /\
  new_GetObjectCommand k σ
    = (Ret (GetObjectCommand {| method := GET; key := k; headers := length (heap σ) |}),
       push_cell σ (CellHeaders [])) /\
  new_DeleteObjectCommand k σ
    = (Ret (DeleteObjectCommand
              {| method := DELETE; key := k; headers := length (heap σ) |}),
       push_cell σ (CellHeaders [])) /\
  (forall m, new_MedoroDataplaneCommand m None k σ
             = (Ret {| method := m; key := k; headers := length (heap σ) |},
                push_cell σ (CellHeaders []))) /\
  (forall cmd h σ1 calls,
     heap σ1 !! headers (super_of cmd) = Some (CellHeaders h) ->
     heap (run_calls P this calls σ1) !! headers (super_of cmd)
     = Some (CellHeaders (headers_after (headers (super_of cmd)) calls h))) /\
  (forall l calls h,
     Forall (fun c => updates_headers l c = false) calls ->
     headers_after l calls h = h) /\
  (forall calls,
     Forall (fun c => updates_headers (length (heap σ)) c = false) calls ->
     heap (run_calls P this calls (push_cell σ (CellHeaders []))) !! length (heap σ)
     = Some (CellHeaders [])).
Proof.
  repeat split.
  - intros cmd h σ1 calls Hh. now apply run_calls_headers.
  - intros l calls h. apply headers_after_no_update.
  - intros calls Hno.
    rewrite (run_calls_headers calls _ (length (heap σ)) []) by apply lookup_fresh.
    now rewrite headers_after_no_update.
Qed.

End DispatchClaims.

(** ** The client on the sample inputs *)

Section SampleRuns.
Import Sample.

Lemma sample_dispatched (cmd : Command) (response : Response) :
  cmd = put \/ cmd = get \/ cmd = delete ->
  exists σ1,
    dispatched (platform (Ok response)) client cmd (state_with policy) response σ1.
Proof.
  intros [-> | [-> | ->]]; eexists; unfold dispatched; do 3 eexists;
    (split; [vm_compute; reflexivity|]);
    (split; [vm_compute; reflexivity|]);
    (split; [reflexivity|]); reflexivity.
Qed.

(** A policy that [btoa] cannot encode makes a store command throw. *)
Lemma createSignedUrl_throws_on_unencodable
    (P : Platform) (this : MedoroDataplaneClient)
    (super : MedoroDataplaneCommand) (pol : loc) (content : option BodyInit)
    (e : option jsnumber) (σ : State) (p : ApiPutRequestValidationPolicy) (u0 : URL) :
  expiry_rejected (expiry_of e) = false ->
  URL_parse P (key super) (origin this) = Some u0 ->
  heap σ !! pol = Some (CellPolicy p) ->
  Base64.btoa (Json.stringify (Schemas.policy_to_json p)) = None ->
  createSignedUrl P this (PutObjectCommand super pol content) e σ
    = (Throw InvalidCharacterError, push_cell σ (CellURL u0)).
Proof.
  intros He Hu Hp Hb. rewrite createSignedUrl_unfold, He. cbn [super_of policy_in].
  now rewrite Hu, (lookup_app_l_Some _ _ _ _ Hp), Hb.
Qed.

(** The cases of the repository's tests, on the dataplane client. *)
Example store_success_yields_data :
  fst (send (platform (Ok uploaded)) client put (state_with policy))
  = Ret (Ok (Data (Some (JObj [(js "key", JStr (js "test-key"))])))).
Proof. vm_compute. reflexivity. Qed.

Example fetch_not_found_yields_envelope_error :
  fst (send (platform (Ok not_found)) client get (state_with policy))
  = Ret (Err {| type := js "api_error"; message := js "Not Found";
                code := Some (js "404"); details := None;
                context := Some (CtxText (js "Not Found")) |}).
Proof. vm_compute. reflexivity. Qed.

Example transport_failure_yields_network_error :
  fst (send offline client delete (state_with policy))
  = Ret (Err {| type := js "network_error";
                message := js "Network error during DELETE: fetch failed";
                code := None; details := None; context := None |}).
Proof. vm_compute. reflexivity. Qed.

Example expiry_below_range_is_rejected :
  createSignedUrl offline client get (Some (JFin (9 # 1))) (state_with policy)
  = (Ret (Err validation_error_expiry), state_with policy).
Proof. reflexivity. Qed.

(** C2 on the code.  NaN lies outside [10, 604800], yet the expiry check
    lets it through: [createSignedUrl] goes on to call the signing
    primitive, with an expiry time that is NaN, and returns a signed URL. *)
Theorem nan_expiry_is_not_rejected :
  ~ in_closed_interval 10 604800 JNaN /\
  expiry_rejected JNaN = false /\
  exists su σ' req,
    createSignedUrl offline client get (Some JNaN) (state_with policy)
      = (Ret (Ok su), σ') /\
    trace σ' = [EvSign req] /\
    expires req = JNaN.
Proof.
  split; [intros []|]. split; [reflexivity|].
  do 3 eexists. split; [vm_compute; reflexivity|]. split; reflexivity.
Qed.

(** C5 on the code.  The schema accepts the policy, and on a store command
    that carries it both [createSignedUrl] and [send] throw the
    [InvalidCharacterError] of [btoa] instead of returning a result. *)
Theorem unencodable_policy_throws :
  Schemas.ApiPutRequestValidationPolicySchema_parse
    (Schemas.policy_to_json policy_beyond_latin1) = Some policy_beyond_latin1 /\
  fst (createSignedUrl offline client put None (state_with policy_beyond_latin1))
    = Throw InvalidCharacterError /\
  fst (send offline client put (state_with policy_beyond_latin1))
    = Throw InvalidCharacterError.
Proof. repeat split; vm_compute; reflexivity. Qed.

(** C8 on the code.  A fetch is answered with status 502 and an HTML body,
    and the connection breaks while [text()] reads the body: [send] returns
    neither the error of an envelope nor a parse failure, it throws what
    [text()] threw; the classifier has no error to return. *)
Theorem unreadable_body_is_thrown :
  (exists σ1, dispatched (platform (Ok Scenario.broken_body)) client get
                (state_with policy) Scenario.broken_body σ1) /\
  response_ok Scenario.broken_body = false /\
  declares_json Scenario.broken_body = false /\
  body_text Scenario.broken_body = Err Scenario.connection_lost /\
  fst (send (platform (Ok Scenario.broken_body)) client get (state_with policy))
    = Throw Scenario.connection_lost /\
  (forall e σ,
     ~ classified_error (platform (Ok Scenario.broken_body)) Scenario.broken_body σ e) /\
  ~ (exists e, fst (send (platform (Ok Scenario.broken_body)) client get
                      (state_with policy)) = Ret (Err e)).
Proof.
  split; [apply sample_dispatched; auto|]. split; [reflexivity|].
  split; [reflexivity|]. split; [reflexivity|].
  split; [vm_compute; reflexivity|]. split.
  - intros e σ [σ' He]. revert He. unfold parseJsonResponse.
    change (declares_json Scenario.broken_body) with false. cbn [negb]. run.
    discriminate.
  - intros [e He]. vm_compute in He. discriminate.
Qed.


(** C10 as stated fails: a fetch command is built without headers, the
    caller sets a header on the object the [headers] getter returns, and
    the header map of the command is no longer empty; [send] transmits the
    header. *)
Lemma empty_headers_claim_counterexample :
  new_GetObjectCommand (js "test-key")
    {| heap := [CellPolicy policy]; trace := []; ticks := 0 |}
    = (Ret get, state_with policy) /\
  heap (state_with policy) !! headers (super_of get) = Some (CellHeaders []) /\
  heap (run_calls offline client [Scenario.set_trace_header] (state_with policy))
    !! headers (super_of get) = Some (CellHeaders [(js "x-trace", js "1")]) /\
  exists req,
    trace (snd (send offline client get
                  (run_calls offline client [Scenario.set_trace_header]
                     (state_with policy)))) !! 1 = Some (EvFetch req) /\
    fetch_headers req = [(js "x-trace", js "1")].
Proof.
  split; [reflexivity|]. split; [reflexivity|]. split; [reflexivity|].
  eexists. split; [vm_compute; reflexivity | reflexivity].
Qed.

(** C4 as stated fails: a fetch answered with status 502 and an HTML body
    has a non-success status and no structured error body, and the error
    returned is of kind [json_parse_error], not [api_error]. *)
Lemma api_error_claim_counterexample :
  (exists σ1, dispatched (platform (Ok bad_gateway)) client get
                (state_with policy) bad_gateway σ1) /\
  response_ok bad_gateway = false /\
  (forall error, ~ error_envelope bad_gateway error) /\
  (exists e, fst (send (platform (Ok bad_gateway)) client get (state_with policy))
             = Ret (Err e) /\ type e = js "json_parse_error") /\
  ~ (exists e, fst (send (platform (Ok bad_gateway)) client get (state_with policy))
               = Ret (Err e) /\ type e = js "api_error").
Proof.
  split; [apply sample_dispatched; auto|]. split; [reflexivity|]. split; [|split].
  - intros error (Hj & _). vm_compute in Hj. discriminate.
  - eexists. split; [vm_compute; reflexivity|]. reflexivity.
  - intros (e & He & Ht). vm_compute in He. injection He as <-.
    vm_compute in Ht. discriminate.
Qed.

(** C6 as stated fails: the error of the envelope carries a details field,
    [0], and the context of the returned error is the HTTP status text. *)
Lemma details_claim_counterexample :
  exists error e σ',
    error_envelope not_found_details_zero error /\
    error_details error = Some (JNum 0) /\
    parseJsonResponse offline not_found_details_zero (state_with policy)
      = (Ret (Err e), σ') /\
    context e = Some (CtxText (js "Not Found")) /\
    context e <> Some (CtxDetails (JNum 0)).
Proof.
  do 3 eexists. split; [|split; [|split; [|split]]].
  - split; [reflexivity|]. eexists. split; reflexivity.
  - reflexivity.
  - vm_compute. reflexivity.
  - reflexivity.
  - discriminate.
Qed.

End SampleRuns.

(** ** The theorems at the sample inputs *)

Section Witnesses.
Import Sample.

Lemma policy_is_part_of_the_signed_surface_witness :
  heap (state_with policy) !! 0 = Some (CellPolicy policy) /\
  exists calls,
    trace (snd (createSignedUrl offline client put None (state_with policy))) = calls /\
    (forall ev, ev ∈ calls ->
       exists req encoded,
         ev = EvSign req /\
         signatureInputs req = base_signature_inputs ++ [QueryParam x_medoro_policy] /\
         SearchParams.get x_medoro_policy (searchParams (request_url_value req))
           = Some encoded) /\
    exists req sig, calls = [EvSign req] /\
                    createSignatureForRequest offline req = Ok sig.
Proof.
  split; [reflexivity|].
  destruct (policy_is_part_of_the_signed_surface offline client
              {| method := PUT; key := js "test-key"; headers := 1 |} 0
              (Some (BodyText (js "Hello Medoro!"))) None (state_with policy) _ _
              policy eq_refl (surjective_pairing _)) as (calls & Ht & Hall & Hok).
  exists calls. split; [exact Ht|]. split.
  - intros ev Hev. destruct (Hall ev Hev) as (req & enc & H1 & H2 & _ & H3). eauto.
  - apply (Hok {| signedUrl := 3; signed_method := PUT |}). vm_compute. reflexivity.
Defined.


Lemma createSignedUrl_mutates_nothing_witness :
  (forall l c,
     heap (state_with policy) !! l = Some c ->
     heap (snd (createSignedUrl offline client put (Some (JFin (inject_Z 3600)))
                  (state_with policy))) !! l = Some c) /\
  heap (state_with policy) !! 3 = None.
Proof.
  destruct (createSignedUrl_mutates_nothing offline client put
              (Some (JFin (inject_Z 3600))) (state_with policy) _ _
              (surjective_pairing _)) as [Hframe Hok].
  split; [exact Hframe|].
  apply (Hok {| signedUrl := 3; signed_method := PUT |}). vm_compute. reflexivity.
Defined.

Lemma error_envelope_context_witness :
  error_envelope not_found not_found_error /\
  exists e,
    parseJsonResponse offline not_found (state_with policy)
      = (Ret (Err e), log (state_with policy) (EvBodyJson not_found)) /\
    type e = js "api_error" /\
    context e = Some (CtxText (js "Not Found")).
Proof.
  assert (He : error_envelope not_found not_found_error).
  { split; [reflexivity|]. eexists. split; reflexivity. }
  split; [exact He|].
  destruct (error_envelope_context offline not_found not_found_error
              (state_with policy) He)
    as (e & Hp & Ht & _ & _ & _ & _ & _ & Hc).
  exists e. split; [exact Hp|]. split; [exact Ht|]. apply Hc. reflexivity.
Defined.

Lemma store_remove_always_classified_witness :
  store_or_remove delete /\
  exists σ1,
    dispatched (platform (Ok uploaded)) client delete (state_with policy) uploaded σ1 /\
    fst (send (platform (Ok uploaded)) client delete (state_with policy))
      = Ret (Ok (Data (Some (JObj [(js "key", JStr (js "test-key"))])))).
Proof.
  split; [exact I|].
  destruct (sample_dispatched delete uploaded) as [σ1 Hd]; [auto|].
  exists σ1. split; [exact Hd|].
  destruct (store_remove_always_classified (platform (Ok uploaded)) client delete
              (state_with policy) σ1 uploaded I Hd) as (_ & _ & Hs).
  apply Hs. split; [reflexivity|]. eexists. split; reflexivity.
Defined.

Lemma fetch_routing_witness :
  exists σ1,
    dispatched (platform (Ok uploaded)) client get (state_with policy) uploaded σ1 /\
    send (platform (Ok uploaded)) client get (state_with policy)
      = (Ret (Ok (RawResponse uploaded)), σ1).
Proof.
  destruct (sample_dispatched get uploaded) as [σ1 Hd]; [auto|].
  exists σ1. split; [exact Hd|].
  destruct (fetch_routing (platform (Ok uploaded)) client
              {| method := GET; key := js "test-key"; headers := 1 |}
              (state_with policy) σ1 uploaded Hd) as [Hok _].
  apply Hok. reflexivity.
Defined.

Lemma api_error_origin_witness :
  exists σ1,
    dispatched (platform (Ok not_found_success)) client get (state_with policy)
      not_found_success σ1 /\
    fst (send (platform (Ok not_found_success)) client get (state_with policy))
      = Ret (Err (api_error not_found_success)) /\
    code (api_error not_found_success) = Some (js "404").
Proof.
  destruct (sample_dispatched get not_found_success) as [σ1 Hd]; [auto|].
  exists σ1. split; [exact Hd|].
  destruct (api_error_origin (platform (Ok not_found_success)) client get
              (state_with policy) σ1 not_found_success Hd) as (Hraise & _ & _ & Hcode).
  split; [|exact Hcode].
  apply (Hraise {| method := GET; key := js "test-key"; headers := 1 |} (Some JNull));
    [reflexivity | reflexivity |].
  split; [reflexivity|]. eexists. split; reflexivity.
Defined.

Lemma method_fixed_by_variant_witness :
  new_GetObjectCommand (js "test-key")
    {| heap := [CellPolicy policy]; trace := []; ticks := 0 |}
    = (Ret get, state_with policy) /\
  heap (state_with policy) !! headers (super_of get) = Some (CellHeaders []) /\
  heap (run_calls offline client
          [CallCreateSignedUrl get None; CallSend get; CallNewDelete (js "other")]
          (state_with policy)) !! headers (super_of get)
  = Some (CellHeaders []) /\
  heap (run_calls offline client
          [CallSend get; Scenario.set_trace_header; CallCreateSignedUrl get None]
          (state_with policy)) !! headers (super_of get)
  = Some (CellHeaders [(js "x-trace", js "1")]).
Proof.
  destruct (method_fixed_by_variant offline client (js "test-key") 0 None
              {| heap := [CellPolicy policy]; trace := []; ticks := 0 |})
    as (_ & Hget & _ & _ & Hlife & _ & Hnew).
  split; [exact Hget|]. split; [reflexivity|]. split.
  - apply (Hnew [CallCreateSignedUrl get None; CallSend get; CallNewDelete (js "other")]).
    repeat constructor.
  - apply (Hlife get [] (state_with policy)
             [CallSend get; Scenario.set_trace_header; CallCreateSignedUrl get None]).
    reflexivity.
Defined.

End Witnesses.

(** ** Further properties of the client *)

Section SigningFacts.

Variable P : Platform.
Variable this : MedoroDataplaneClient.

(** The URL [createSignedUrl] signs, from the parsed URL: with the policy
    parameter for a store command, as parsed otherwise. *)
Lemma createSignedUrl_ok_inv cmd e σ su σ' :
  createSignedUrl P this cmd e σ = (Ret (Ok su), σ') ->
  exists u0 u inputs h si sg,
    expiry_rejected (expiry_of e) = false /\
    URL_parse P (key (super_of cmd)) (origin this) = Some u0 /\
    match policy_in cmd with
    | Some pol =>
        exists p encoded,
          (heap σ ++ [CellURL u0]) !! pol = Some (CellPolicy p) /\
          Base64.btoa (Json.stringify (Schemas.policy_to_json p)) = Some encoded /\
          u = URL_set_param x_medoro_policy encoded u0 /\
          inputs = base_signature_inputs ++ [QueryParam x_medoro_policy]
    | None => u = u0 /\ inputs = base_signature_inputs
    end /\
    (heap σ ++ [CellURL u]) !! headers (super_of cmd) = Some (CellHeaders h) /\
    createSignatureForRequest P (sign_request P this cmd e σ u inputs h) = Ok (si, sg) /\
    su = {| signedUrl := S (length (heap σ));
            signed_method := method (super_of cmd) |} /\
    σ' = {| heap := heap σ ++
                      [CellURL u;
                       CellURL (URL_set_param x_medoro_signature sg
                                  (URL_set_param x_medoro_signature_input si u))];
            trace := trace σ ++ [EvSign (sign_request P this cmd e σ u inputs h)];
            ticks := S (S (ticks σ)) |}.
Proof.
  rewrite createSignedUrl_unfold.
  assert (Hend : forall u inputs,
            sign_and_append P this cmd e σ u inputs = (Ret (Ok su), σ') ->
            exists h si sg,
              (heap σ ++ [CellURL u]) !! headers (super_of cmd) = Some (CellHeaders h) /\
              createSignatureForRequest P (sign_request P this cmd e σ u inputs h)
                = Ok (si, sg) /\
              su = {| signedUrl := S (length (heap σ));
                      signed_method := method (super_of cmd) |} /\
              σ' = {| heap := heap σ ++
                                [CellURL u;
                                 CellURL (URL_set_param x_medoro_signature sg
                                            (URL_set_param x_medoro_signature_input si u))];
                      trace := trace σ ++ [EvSign (sign_request P this cmd e σ u inputs h)];
                      ticks := S (S (ticks σ)) |}).
  { intros u inputs. unfold sign_and_append.
    destruct (_ !! headers (super_of cmd)) as [[?|h|?|?]|]; try discriminate.
    cbv zeta.
    destruct (createSignatureForRequest P _) as [[si sg]|er] eqn:E; [|discriminate].
    intros [= <- <-]. exists h, si, sg. repeat split; try assumption.
    unfold push_cell, signed_state. cbn [heap trace ticks].
    now rewrite <- app_assoc. }
  destruct (expiry_rejected _) eqn:He; [discriminate|].
  destruct (URL_parse P _ _) as [u0|] eqn:Hu; [|discriminate].
  destruct (policy_in cmd) as [pol|] eqn:Hpol.
  - destruct (_ !! pol) as [[?|?|p|?]|] eqn:Hp; try discriminate.
    destruct (Base64.btoa _) as [encoded|] eqn:Hb; [|discriminate].
    intros H. apply Hend in H as (h & si & sg & Hh & Hs & -> & ->).
    exists u0, (URL_set_param x_medoro_policy encoded u0),
      (base_signature_inputs ++ [QueryParam x_medoro_policy]), h, si, sg.
    repeat split; try assumption. exists p, encoded. repeat split; assumption.
  - intros H. apply Hend in H as (h & si & sg & Hh & Hs & -> & ->).
    exists u0, u0, base_signature_inputs, h, si, sg.
    repeat split; assumption.
Qed.

End SigningFacts.

Lemma x_medoro_signature_names_distinct :
  x_medoro_signature_input <> x_medoro_signature.
Proof. discriminate. Qed.

Lemma lookup_second (h : list Cell) (a b : Cell) :
  (h ++ [a; b]) !! S (length h) = Some b.
Proof.
  rewrite lookup_app_r by lia.
  replace (S (length h) - length h) with 1 by lia. reflexivity.
Qed.

Section SigningExtras.

Variable P : Platform.
Variable this : MedoroDataplaneClient.

(** X1.  The URL a successful [createSignedUrl] returns carries the two
    signature parameters, and their values are the two strings the signing
    primitive returned for the request logged. *)
Theorem signed_url_carries_the_signature
    (cmd : Command) (e : option jsnumber) (σ σ' : State) (su : SignedUrl) :
  createSignedUrl P this cmd e σ = (Ret (Ok su), σ') ->
  exists req signatureInput signature u,
    trace σ' = trace σ ++ [EvSign req] /\
    createSignatureForRequest P req = Ok (signatureInput, signature) /\
    heap σ' !! signedUrl su = Some (CellURL u) /\
    SearchParams.get x_medoro_signature_input (searchParams u) = Some signatureInput /\
    SearchParams.get x_medoro_signature (searchParams u) = Some signature.
Proof.
  intros H.
  apply createSignedUrl_ok_inv in H
    as (u0 & u & inputs & h & si & sg & _ & _ & _ & _ & Hs & -> & ->).
  eexists _, si, sg, _. cbn [heap trace signedUrl].
  split; [reflexivity|]. split; [exact Hs|]. split; [apply lookup_second|].
  cbn [searchParams URL_set_param]. split.
  - rewrite SearchParamsFacts.get_set_other
      by (intros E; symmetry in E; now apply x_medoro_signature_names_distinct).
    apply SearchParamsFacts.get_set_same.
  - apply SearchParamsFacts.get_set_same.
Qed.

(** X2.  An error result of [createSignedUrl] is the validation error of a
    rejected expiry, raised before anything is done, or exactly the error
    the signing primitive returned; in that case the call was the only one
    made and no copy of the URL was created to hold a signature. *)
Theorem signing_failure_is_passed_on
    (cmd : Command) (e : option jsnumber) (σ σ' : State)
    (er : MedoroDataplaneClientError) :
  createSignedUrl P this cmd e σ = (Ret (Err er), σ') ->
  (expiry_rejected (expiry_of e) = true /\ er = validation_error_expiry /\ σ' = σ) \/
  (expiry_rejected (expiry_of e) = false /\
   exists req u,
     trace σ' = trace σ ++ [EvSign req] /\
     createSignatureForRequest P req = Err er /\
     heap σ' = heap σ ++ [CellURL u] /\
     request_url req = length (heap σ) /\
     request_url_value req = u).
Proof.
  rewrite createSignedUrl_unfold.
  assert (Hend : forall u inputs,
            sign_and_append P this cmd e σ u inputs = (Ret (Err er), σ') ->
            exists req u',
              trace σ' = trace σ ++ [EvSign req] /\
              createSignatureForRequest P req = Err er /\
              heap σ' = heap σ ++ [CellURL u'] /\
              request_url req = length (heap σ) /\
              request_url_value req = u').
  { intros u inputs Hs. apply sign_and_append_inv in Hs.
    destruct Hs as [([=] & _) | (h & _ & Hs)]. cbv zeta in Hs.
    destruct Hs as [Ht [(er' & Hc & [= <-] & Hh) | (si & sg & _ & [=] & _)]].
    eexists _, u. split; [exact Ht|]. split; [exact Hc|]. split; [exact Hh|].
    split; reflexivity. }
  destruct (expiry_rejected _) eqn:He.
  { intros [= <- <-]. left. repeat split. }
  destruct (URL_parse P _ _) as [u0|]; [|discriminate].
  destruct (policy_in cmd) as [pol|].
  - destruct (_ !! pol) as [[?|?|p|?]|]; try discriminate.
    destruct (Base64.btoa _); [|discriminate].
    intros H. right. split; [reflexivity|]. now apply Hend in H.
  - intros H. right. split; [reflexivity|]. now apply Hend in H.
Qed.


(** X4.  For a command without policy (fetch, remove) the request handed to
    the signing primitive lists the four base components only, and its URL
    is [new URL(key, origin)] as parsed: the client sets no query
    parameter before signing. *)
Theorem only_base_components_without_policy
    (cmd : Command) (e : option jsnumber) (σ σ' : State)
    (r : Outcome (Result SignedUrl MedoroDataplaneClientError)) :
  policy_in cmd = None ->
  createSignedUrl P this cmd e σ = (r, σ') ->
  exists calls,
    trace σ' = trace σ ++ calls /\
    forall ev, ev ∈ calls ->
      exists req,
        ev = EvSign req /\
        signatureInputs req = base_signature_inputs /\
        URL_parse P (key (super_of cmd)) (origin this) = Some (request_url_value req) /\
        request_method req = method (super_of cmd).
Proof.
  intros Hpol. rewrite createSignedUrl_unfold, Hpol.
  destruct (expiry_rejected _).
  { intros [= <- <-]. exists []. rewrite app_nil_r. split; [reflexivity|].
    intros ev Hev. inversion Hev. }
  destruct (URL_parse P _ _) as [u0|].
  2:{ intros [= <- <-]. exists []. rewrite app_nil_r. split; [reflexivity|].
      intros ev Hev. inversion Hev. }
  intros H. apply sign_and_append_inv in H.
  destruct H as [(_ & _ & Ht) | (h & _ & H)].
  { exists []. rewrite app_nil_r. split; [assumption|]. intros ev Hev. inversion Hev. }
  cbv zeta in H. destruct H as [Ht _].
  eexists. split; [exact Ht|].
  intros ev Hev. apply list_elem_of_singleton in Hev as ->.
  eexists. repeat split.
Qed.


(** X6.  [createSignedUrl] throws in two cases only, both before the
    signing primitive is called: the key does not resolve to a URL against
    the origin ([TypeError], nothing done), or the command has a policy
    whose JSON text [btoa] refuses ([InvalidCharacterError]). *)
Theorem createSignedUrl_throws_only
    (cmd : Command) (e : option jsnumber) (σ σ' : State) (ex : JsExn) :
  createSignedUrl P this cmd e σ = (Throw ex, σ') ->
  expiry_rejected (expiry_of e) = false /\
  trace σ' = trace σ /\
  ((URL_parse P (key (super_of cmd)) (origin this) = None /\
    ex = JsError (js "TypeError") (js "Invalid URL") /\ σ' = σ) \/
   (exists u0 pol p,
      URL_parse P (key (super_of cmd)) (origin this) = Some u0 /\
      policy_in cmd = Some pol /\
      (heap σ ++ [CellURL u0]) !! pol = Some (CellPolicy p) /\
      Base64.btoa (Json.stringify (Schemas.policy_to_json p)) = None /\
      ex = InvalidCharacterError)).
Proof.
  rewrite createSignedUrl_unfold.
  assert (Hend : forall u inputs,
            sign_and_append P this cmd e σ u inputs = (Throw ex, σ') -> False).
  { intros u inputs Hs. apply sign_and_append_inv in Hs.
    destruct Hs as [([=] & _) | (h & _ & Hs)]. cbv zeta in Hs.
    destruct Hs as [_ [(er & _ & [=] & _) | (si & sg & _ & [=] & _)]]. }
  destruct (expiry_rejected _); [discriminate|].
  destruct (URL_parse P _ _) as [u0|] eqn:Hu.
  2:{ intros [= <- <-]. repeat split. left. repeat split. }
  destruct (policy_in cmd) as [pol|]; [|intros H; now apply Hend in H].
  destruct (_ !! pol) as [[?|?|p|?]|] eqn:Hp; try discriminate.
  destruct (Base64.btoa _) eqn:Hb; [intros H; now apply Hend in H|].
  intros [= <- <-]. repeat split. right. exists u0, pol, p. repeat split; assumption.
Qed.

End SigningExtras.

Lemma filter_filter_weaker {A} (f g : A -> bool) (l : list A) :
  (forall x, f x = true -> g x = true) ->
  filter (fun x => f x) (filter (fun x => g x) l) = filter (fun x => f x) l.
Proof.
  intros Hfg. induction l as [|x l IH]; [reflexivity|].
  rewrite !filter_cons.
  destruct (f x) eqn:Hf.
  - rewrite (Hfg x Hf). rewrite decide_True by exact I.
    rewrite filter_cons, Hf, decide_True by exact I. now rewrite IH.
  - rewrite (decide_False (P := Is_true false)) by (intros []).
    destruct (g x).
    + rewrite decide_True by exact I. rewrite filter_cons, Hf.
      rewrite decide_False by (intros []). exact IH.
    + rewrite decide_False by (intros []). exact IH.
Qed.

Lemma unsigned_params_set (name value : jsstring) (u : URL) :
  is_signature_param name = true ->
  unsigned_params (URL_set_param name value u) = unsigned_params u.
Proof.
  intros Hn. unfold unsigned_params. cbn [URL_set_param searchParams].
  induction (searchParams u) as [|[n v] l IH]; cbn [SearchParams.set].
  - rewrite filter_cons. cbn [fst]. rewrite Hn.
    rewrite decide_False by (intros []). reflexivity.
  - unfold Json.jsstring_eqb at 1.
    destruct (bool_decide_reflect (n = name)) as [->|Hne].
    + rewrite !filter_cons. cbn [fst]. rewrite Hn.
      rewrite !decide_False by (intros []).
      apply (filter_filter_weaker (fun p => negb (is_signature_param (fst p)))
               (fun p => negb (Json.jsstring_eqb (fst p) name))).
      intros [n' v'] Hs. cbn [fst] in *. unfold Json.jsstring_eqb.
      destruct (bool_decide_reflect (n' = name)) as [->|]; [|reflexivity].
      rewrite Hn in Hs. discriminate.
    + rewrite !filter_cons. cbn [fst]. rewrite IH. reflexivity.
Qed.

Section Idempotence.

Variable P : Platform.
Variable this : MedoroDataplaneClient.

(** X7.  Two calls of [createSignedUrl] in a row on the same command and
    expiry, both successful, return two distinct URL objects that agree on
    scheme, authority, path, fragment and on every query parameter but the
    two signature parameters. *)
Theorem createSignedUrl_twice
    (cmd : Command) (e : option jsnumber) (σ σ1 σ2 : State) (su1 su2 : SignedUrl) :
  createSignedUrl P this cmd e σ = (Ret (Ok su1), σ1) ->
  createSignedUrl P this cmd e σ1 = (Ret (Ok su2), σ2) ->
  signedUrl su1 <> signedUrl su2 /\
  exists u1 u2,
    heap σ2 !! signedUrl su1 = Some (CellURL u1) /\
    heap σ2 !! signedUrl su2 = Some (CellURL u2) /\
    protocol u1 = protocol u2 /\ host u1 = host u2 /\
    pathname u1 = pathname u2 /\ hash u1 = hash u2 /\
    unsigned_params u1 = unsigned_params u2.
Proof.
  intros H1 H2.
  assert (Hframe : forall l c, heap σ1 !! l = Some c -> heap σ2 !! l = Some c)
    by (intros l c; apply (createSignedUrl_frame P this _ _ _ _ _ l c H2)).
  apply createSignedUrl_ok_inv in H1
    as (u0 & u & inputs & h & si & sg & _ & Hu & Hpol & _ & _ & -> & ->).
  apply createSignedUrl_ok_inv in H2
    as (u0' & u' & inputs' & h' & si' & sg' & _ & Hu' & Hpol' & _ & _ & -> & Hσ2).
  rewrite Hu in Hu'. injection Hu' as <-.
  cbn [heap signedUrl] in *. split.
  { rewrite length_app. cbn. lia. }
  assert (Euu : u' = u).
  { destruct (policy_in cmd) as [pol|].
    - destruct Hpol as (p & enc & Hp & Hb & -> & _).
      destruct Hpol' as (p' & enc' & Hp' & Hb' & -> & _).
      assert (Hlt : pol < length (heap σ)).
      { pose proof (lookup_lt_Some _ _ _ Hp) as Hlen.
        rewrite length_app in Hlen. cbn in Hlen.
        destruct (decide (pol = length (heap σ))) as [->|]; [|lia].
        rewrite lookup_fresh in Hp. discriminate. }
      rewrite lookup_app_l in Hp by assumption.
      rewrite <- !app_assoc, lookup_app_l in Hp' by assumption.
      rewrite Hp in Hp'. injection Hp' as <-.
      rewrite Hb in Hb'. injection Hb' as <-. reflexivity.
    - destruct Hpol as [-> _]. destruct Hpol' as [-> _]. reflexivity. }
  subst u'. do 2 eexists.
  split; [apply Hframe, lookup_second|].
  split; [rewrite Hσ2; cbn [heap]; apply lookup_second|].
  cbn [protocol host pathname hash URL_set_param].
  repeat split.
  rewrite !unsigned_params_set by reflexivity. reflexivity.
Qed.

End Idempotence.

(** X8.  The base constructor keeps the [Headers] object it is given and
    allocates nothing; without one, each construction allocates its own
    empty [Headers]: two commands built one after the other never share
    their headers. *)
Theorem commands_do_not_share_default_headers
    (m1 m2 : Method) (k1 k2 : jsstring) (σ σ1 σ2 : State)
    (s1 s2 : MedoroDataplaneCommand) :
  new_MedoroDataplaneCommand m1 None k1 σ = (Ret s1, σ1) ->
  new_MedoroDataplaneCommand m2 None k2 σ1 = (Ret s2, σ2) ->
  headers s1 <> headers s2 /\
  heap σ2 !! headers s1 = Some (CellHeaders []) /\
  heap σ2 !! headers s2 = Some (CellHeaders []) /\
  (forall l c, heap σ !! l = Some c -> heap σ2 !! l = Some c) /\
  (forall m h k s, new_MedoroDataplaneCommand m (Some h) k s
                   = (Ret {| method := m; key := k; headers := h |}, s)).
Proof.
  unfold new_MedoroDataplaneCommand, bind, alloc, ret.
  intros [= <- <-] [= <- <-]. cbn [headers heap].
  split; [rewrite length_app; cbn; lia|].
  split; [apply lookup_app_l_Some, lookup_fresh|].
  split; [apply lookup_fresh|].
  split; [|reflexivity].
  intros l c Hl. now apply lookup_app_l_Some, lookup_app_l_Some.
Qed.

Section DispatchExtras.

Variable P : Platform.
Variable this : MedoroDataplaneClient.

(** [send], stage by stage. *)
Lemma send_unfold cmd σ :
  send P this cmd σ =
    match createSignedUrl P this cmd None σ with
    | (Ret (Ok su), σ0) =>
        match fetch_request cmd su σ0 with
        | (Ret req, σ1) =>
            match fetch P req with
            | Err ex =>
                (Ret (Err (network_error (method (super_of cmd)) ex)),
                 log σ1 (EvFetch req))
            | Ok response => route_response P cmd response (log σ1 (EvFetch req))
            end
        | (Throw ex, σ1) => (Throw ex, σ1)
        | (Wrong, σ1) => (Wrong, σ1)
        end
    | (Ret (Err e), σ0) => (Ret (Err e), σ0)
    | (Throw ex, σ0) => (Throw ex, σ0)
    | (Wrong, σ0) => (Wrong, σ0)
    end.
Proof.
  unfold send. unfold bind at 1.
  destruct (createSignedUrl P this cmd None σ) as [[[su|e]|ex|] σ0]; try reflexivity.
  unfold bind at 1.
  destruct (fetch_request cmd su σ0) as [[req|ex|] σ1]; try reflexivity.
  unfold bind at 1, emit. fold (log σ1 (EvFetch req)).
  destruct (fetch P req); reflexivity.
Qed.

Lemma createSignedUrl_trace cmd e σ r σ' :
  createSignedUrl P this cmd e σ = (r, σ') ->
  (trace σ' = trace σ /\ forall su, r <> Ret (Ok su)) \/
  exists req, trace σ' = trace σ ++ [EvSign req].
Proof.
  rewrite createSignedUrl_unfold.
  assert (Hend : forall u inputs,
            sign_and_append P this cmd e σ u inputs = (r, σ') ->
            (trace σ' = trace σ /\ forall su, r <> Ret (Ok su)) \/
            exists req, trace σ' = trace σ ++ [EvSign req]).
  { intros u inputs Hs. apply sign_and_append_inv in Hs.
    destruct Hs as [(-> & _ & Ht) | (h & _ & Hs)].
    - left. split; [assumption | discriminate].
    - cbv zeta in Hs. destruct Hs as [Ht _]. right. eauto. }
  repeat match goal with
         | |- context [match ?x with _ => _ end] =>
             lazymatch x with
             | context [match _ with _ => _ end] => fail
             | _ => destruct x
             end
         end;
    try (intros [= <- <-]; left; split; [reflexivity | discriminate]);
    apply Hend.
Qed.

(** The arguments of the transport call made after a successful
    signing. *)
Lemma fetch_request_ready
    (cmd : Command) (σ σ0 : State) (su : SignedUrl)
    (h : list (jsstring * jsstring)) :
  wf_command σ cmd ->
  heap σ !! headers (super_of cmd) = Some (CellHeaders h) ->
  createSignedUrl P this cmd None σ = (Ret (Ok su), σ0) ->
  exists req u,
    fetch_request cmd su σ0 = (Ret req, σ0) /\
    length (trace σ0) = S (length (trace σ)) /\
    heap σ0 !! signedUrl su = Some (CellURL u) /\
    fetch_url req = signedUrl su /\ fetch_url_value req = u /\
    fetch_method req = method (super_of cmd) /\
    fetch_headers req = h /\
    match cmd with
    | PutObjectCommand _ _ (Some (BodyText s)) => fetch_body req = Some (TextBody s)
    | PutObjectCommand _ _ (Some (BodyRef l)) =>
        exists bytes, heap σ !! l = Some (CellBody bytes) /\
                      fetch_body req = Some (BytesBody bytes)
    | _ => fetch_body req = None
    end.
Proof.
  intros Hwf Hh Hc.
  pose proof Hc as Hinv.
  apply createSignedUrl_ok_inv in Hinv
    as (u0 & u & inputs & h' & si & sg & _ & _ & _ & _ & _ & Hsu & Hσ0).
  assert (Hframe : forall (l : loc) c, heap σ !! l = Some c -> heap σ0 !! l = Some c)
    by (intros l c; apply (createSignedUrl_frame P this _ _ _ _ _ l c Hc)).
  assert (Hurl : heap σ0 !! signedUrl su
                 = Some (CellURL (URL_set_param x_medoro_signature sg
                                    (URL_set_param x_medoro_signature_input si u)))).
  { rewrite Hsu, Hσ0. cbn [heap signedUrl]. apply lookup_second. }
  assert (Hlen : length (trace σ0) = S (length (trace σ))).
  { rewrite Hσ0. cbn [trace]. rewrite length_app. cbn. lia. }
  assert (Hrun : forall body : M (option BodyValue),
            forall b, body σ0 = (Ret b, σ0) ->
            (bd <- body ;;
             u1 <- load_url (signedUrl su) ;;
             h1 <- load_headers (headers (super_of cmd)) ;;
             ret {| fetch_url := signedUrl su; fetch_url_value := u1;
                    fetch_method := method (super_of cmd);
                    fetch_headers := h1; fetch_body := bd |}) σ0
            = (Ret {| fetch_url := signedUrl su;
                      fetch_url_value :=
                        URL_set_param x_medoro_signature sg
                          (URL_set_param x_medoro_signature_input si u);
                      fetch_method := method (super_of cmd);
                      fetch_headers := h; fetch_body := b |}, σ0)).
  { intros body b Hb. unfold bind at 1. rewrite Hb.
    unfold load_url, load_headers, load, bind, ret.
    cbv beta iota zeta. rewrite Hurl. cbv beta iota zeta.
    rewrite (Hframe _ _ Hh). reflexivity. }
  unfold fetch_request.
  destruct cmd as [sp pol [[s|l]|]|sp|sp].
  - eexists _, _. split; [apply Hrun; reflexivity|]. repeat split; assumption.
  - destruct Hwf as (_ & _ & bytes & Hb).
    eexists _, _. split.
    + apply Hrun. unfold load_body, bind, load, ret.
      rewrite (Hframe _ _ Hb). reflexivity.
    + repeat split; try assumption. exists bytes. split; [exact Hb | reflexivity].
  - eexists _, _. split; [apply Hrun; reflexivity|]. repeat split; assumption.
  - eexists _, _. split; [apply Hrun; reflexivity|]. repeat split; assumption.
  - eexists _, _. split; [apply Hrun; reflexivity|]. repeat split; assumption.
Qed.

(** X9.  One call of [send] makes at most one call of the signing
    primitive, then at most one call of the transport, then reads the body
    of the answer at most once, in this order: nothing is retried. *)
Theorem send_is_one_exchange (cmd : Command) (σ : State) :
  exists calls,
    trace (snd (send P this cmd σ)) = trace σ ++ calls /\
    (calls = [] \/
     (exists s, calls = [EvSign s]) \/
     (exists s f, calls = [EvSign s; EvFetch f]) \/
     (exists s f response,
        fetch P f = Ok response /\
        calls = [EvSign s; EvFetch f; body_read response])).
Proof.
  rewrite send_unfold.
  destruct (createSignedUrl P this cmd None σ) as [r σ0] eqn:Hc.
  pose proof (createSignedUrl_trace _ _ _ _ _ Hc) as Ht.
  assert (Hearly : trace σ0 = trace σ \/ exists s, trace σ0 = trace σ ++ [EvSign s]).
  { destruct Ht as [[Ht _] | Ht]; auto. }
  assert (Hstop : exists calls,
            trace σ0 = trace σ ++ calls /\
            (calls = [] \/ (exists s, calls = [EvSign s]) \/
             (exists s f, calls = [EvSign s; EvFetch f]) \/
             (exists s f response,
                fetch P f = Ok response /\
                calls = [EvSign s; EvFetch f; body_read response]))).
  { destruct Hearly as [E | [s E]].
    - exists []. rewrite app_nil_r. auto.
    - exists [EvSign s]. eauto. }
  destruct r as [[su|e]|ex|]; cbn [snd]; try exact Hstop.
  destruct Ht as [[_ Hno] | [s Hs]]; [now destruct (Hno su)|].
  destruct (fetch_request cmd su σ0) as [rq σ1] eqn:Hr.
  apply fetch_request_state in Hr as ->.
  destruct rq as [req|ex|]; cbn [snd]; try exact Hstop.
  destruct (fetch P req) as [response|ex] eqn:Hf; cbn [snd log trace].
  - rewrite route_response_unfold.
    destruct cmd as [sp pol content|sp|sp]; try destruct (response_ok response);
      cbn [snd log trace]; rewrite Hs, <- ?app_assoc; cbn [app];
      eexists; (split; [reflexivity|]); eauto 10.
  - rewrite Hs, <- app_assoc. cbn [app]. eexists. split; [reflexivity|]. eauto 10.
Qed.

(** X10.  When [createSignedUrl] does not give a signed URL, [send] ends
    with the same error or exception, in the same state: the transport is
    not called. *)
Theorem no_transport_without_signed_url
    (cmd : Command) (σ σ' : State)
    (r : Outcome (Result SignedUrl MedoroDataplaneClientError)) :
  createSignedUrl P this cmd None σ = (r, σ') ->
  (forall su, r <> Ret (Ok su)) ->
  snd (send P this cmd σ) = σ' /\
  match r with
  | Ret (Err e) => fst (send P this cmd σ) = Ret (Err e)
  | Throw ex => fst (send P this cmd σ) = Throw ex
  | _ => fst (send P this cmd σ) = Wrong
  end /\
  forall f, EvFetch f ∈ trace σ' -> EvFetch f ∈ trace σ.
Proof.
  intros Hc Hno. rewrite send_unfold, Hc.
  pose proof (createSignedUrl_trace _ _ _ _ _ Hc) as Ht.
  destruct r as [[su|e]|ex|]; [now destruct (Hno su)|..]; cbn [fst snd];
    (split; [reflexivity|]); (split; [reflexivity|]);
    intros f Hf; destruct Ht as [[Ht _] | [s Ht]]; rewrite Ht in Hf;
    try assumption;
    apply elem_of_app in Hf as [Hf|Hf]; try assumption;
    apply list_elem_of_singleton in Hf; discriminate.
Qed.

(** X11.  When the transport fails, [send] never succeeds; once the URL is
    signed it returns the error of kind [network_error] whose message names
    the method and carries the message of the failure, after one signing
    call and one transport call on the signed URL, and the body of no
    response is read. *)
Theorem transport_failure_is_a_network_error
    (cmd : Command) (σ : State) (ex : JsExn) :
  wf_command σ cmd ->
  (forall req, fetch P req = Err ex) ->
  (forall v, fst (send P this cmd σ) <> Ret (Ok v)) /\
  forall su σ0,
    createSignedUrl P this cmd None σ = (Ret (Ok su), σ0) ->
    exists s f e,
      send P this cmd σ = (Ret (Err e), log σ0 (EvFetch f)) /\
      trace σ0 = trace σ ++ [EvSign s] /\
      fetch_url f = signedUrl su /\
      type e = js "network_error" /\
      message e = js "Network error during " ++ method_name (method (super_of cmd))
                    ++ js ": " ++ exn_message ex /\
      code e = None /\ context e = None.
Proof.
  intros Hwf Hfail.
  assert (Hok : forall su σ0,
            createSignedUrl P this cmd None σ = (Ret (Ok su), σ0) ->
            exists s f,
              send P this cmd σ
                = (Ret (Err (network_error (method (super_of cmd)) ex)),
                   log σ0 (EvFetch f)) /\
              trace σ0 = trace σ ++ [EvSign s] /\ fetch_url f = signedUrl su).
  { intros su σ0 Hc. destruct Hwf as [[h Hh] Hrest].
    destruct (fetch_request_ready _ _ _ _ _ (conj (ex_intro _ h Hh) Hrest) Hh Hc)
      as (req & u & Hr & _ & _ & Hurl & _).
    destruct (createSignedUrl_trace _ _ _ _ _ Hc) as [[_ Hno] | [s Hs]];
      [now destruct (Hno su)|].
    exists s, req. rewrite send_unfold, Hc, Hr, Hfail. auto. }
  split.
  - intros v. destruct (createSignedUrl P this cmd None σ) as [r σ0] eqn:Hc.
    destruct r as [[su|e]|ex0|].
    + destruct (Hok _ _ eq_refl) as (s & f & -> & _). discriminate.
    + rewrite send_unfold, Hc. discriminate.
    + rewrite send_unfold, Hc. discriminate.
    + rewrite send_unfold, Hc. discriminate.
  - intros su σ0 Hc. destruct (Hok _ _ Hc) as (s & f & Hs & Ht & Hu).
    exists s, f, (network_error (method (super_of cmd)) ex).
    split; [exact Hs|]. repeat split; assumption.
Qed.

(** X12.  Once the URL of a command whose references are in order is
    signed, [send] does call the transport: with the signed URL, the method
    of the command, what its [Headers] object holds, and a body for a store
    command with content only. *)
Theorem transport_is_called_with_the_signed_url
    (cmd : Command) (σ σ0 : State) (su : SignedUrl)
    (h : list (jsstring * jsstring)) :
  wf_command σ cmd ->
  heap σ !! headers (super_of cmd) = Some (CellHeaders h) ->
  createSignedUrl P this cmd None σ = (Ret (Ok su), σ0) ->
  exists req u,
    trace (snd (send P this cmd σ)) !! S (length (trace σ)) = Some (EvFetch req) /\
    heap σ0 !! signedUrl su = Some (CellURL u) /\
    fetch_url req = signedUrl su /\ fetch_url_value req = u /\
    fetch_method req = method (super_of cmd) /\
    fetch_headers req = h /\
    match cmd with
    | PutObjectCommand _ _ (Some (BodyText s)) => fetch_body req = Some (TextBody s)
    | PutObjectCommand _ _ (Some (BodyRef l)) =>
        exists bytes, heap σ !! l = Some (CellBody bytes) /\
                      fetch_body req = Some (BytesBody bytes)
    | _ => fetch_body req = None
    end.
Proof.
  intros Hwf Hh Hc.
  destruct (fetch_request_ready _ _ _ _ _ Hwf Hh Hc) as (req & u & Hr & Hlen & Hfields).
  exists req, u. split; [|exact Hfields].
  rewrite send_unfold, Hc, Hr.
  destruct (fetch P req) as [response|ex]; cbn [snd].
  - rewrite route_response_unfold.
    destruct cmd as [sp pol content|sp|sp]; try destruct (response_ok response);
      cbn [snd log trace]; rewrite <- ?app_assoc, <- Hlen;
      apply list_lookup_middle; reflexivity.
  - cbn [log trace]. rewrite <- Hlen. apply list_lookup_middle. reflexivity.
Qed.

(** X13.  What a successful [send] returns depends on the class of the
    command only: for a fetch, the response of the transport itself, whose
    status is a success status; for a store or a remove, the [data] of the
    success envelope in the body of the response. *)
Theorem send_success_value
    (cmd : Command) (σ σ' : State) (v : SendValue) :
  send P this cmd σ = (Ret (Ok v), σ') ->
  exists req response,
    fetch P req = Ok response /\
    match cmd with
    | GetObjectCommand _ => v = RawResponse response /\ response_ok response = true
    | _ => exists data, v = Data data /\ success_envelope response data
    end.
Proof.
  rewrite send_unfold.
  destruct (createSignedUrl P this cmd None σ) as [[[su|e]|ex|] σ0]; try discriminate.
  destruct (fetch_request cmd su σ0) as [[req|ex|] σ1]; try discriminate.
  destruct (fetch P req) as [response|ex] eqn:Hf; [|discriminate].
  rewrite route_response_unfold. intros H. exists req, response. split; [exact Hf|].
  destruct (parseJsonResponse P response (log σ1 (EvFetch req)))
    as [[[data|e]|ex|] σ2] eqn:Hp;
    destruct cmd as [sp pol content|sp|sp]; try destruct (response_ok response) eqn:Hok;
    cbn [fst] in H; try discriminate; injection H as <- _;
    try (split; reflexivity);
    exists data; (split; [reflexivity|]);
    exact (parseJsonResponse_ok_inv P _ _ _ _ Hp).
Qed.

End DispatchExtras.

(** A heap that only grew keeps the references of a command in order. *)
Lemma wf_command_extends (σ σ' : State) (cmd : Command) (new : list Cell) :
  heap σ' = heap σ ++ new -> wf_command σ cmd -> wf_command σ' cmd.
Proof.
  intros Hh [[h Hhd] Hrest]. split.
  - exists h. rewrite Hh. now apply lookup_app_l_Some.
  - destruct cmd as [s pol content|s|s]; try exact I.
    destruct Hrest as [[p Hp] Hc]. split.
    + exists p. rewrite Hh. now apply lookup_app_l_Some.
    + destruct content as [[t|l]|]; try exact I.
      destruct Hc as [bytes Hb]. exists bytes. rewrite Hh. now apply lookup_app_l_Some.
Qed.

Section ProgressFacts.

Variable P : Platform.
Variable this : MedoroDataplaneClient.

Lemma sign_and_append_not_wrong cmd e σ u inputs :
  wf_command σ cmd ->
  fst (sign_and_append P this cmd e σ u inputs) <> Wrong.
Proof.
  intros [[h Hh] _]. unfold sign_and_append.
  rewrite (lookup_app_l_Some _ _ _ _ Hh).
  cbv zeta. destruct (createSignatureForRequest P _) as [[si sg]|er]; discriminate.
Qed.

Lemma createSignedUrl_not_wrong cmd e σ :
  wf_command σ cmd ->
  fst (createSignedUrl P this cmd e σ) <> Wrong.
Proof.
  intros Hwf. rewrite createSignedUrl_unfold.
  destruct (expiry_rejected (expiry_of e)); [discriminate|].
  destruct (URL_parse P _ _) as [u0|]; [|discriminate].
  destruct cmd as [s pol content|s|s]; cbn [policy_in];
    try now apply sign_and_append_not_wrong.
  destruct Hwf as [Hh [[p Hp] Hc]].
  rewrite (lookup_app_l_Some _ _ _ _ Hp).
  destruct (Base64.btoa _); [|discriminate].
  apply sign_and_append_not_wrong. split; [exact Hh|]. split; [eauto | exact Hc].
Qed.

Lemma parseJsonResponse_not_wrong response σ :
  fst (parseJsonResponse P response σ) <> Wrong.
Proof.
  unfold parseJsonResponse.
  destruct (declares_json response); cbn [negb]; run.
  - destruct (body_json response) as [rawData|ex]; [|discriminate].
    destruct (ApiResponseSchema_parse rawData) as [[d|error]|]; discriminate.
  - destruct (body_text response); discriminate.
Qed.

Lemma fetch_request_outcome cmd su σ :
  (exists req, fst (fetch_request cmd su σ) = Ret req) \/
  fst (fetch_request cmd su σ) = Wrong.
Proof.
  unfold fetch_request, load_body. run.
  destruct cmd as [s pol [[text|l]|]|s|s];
    repeat match goal with
           | |- context [match ?x with _ => _ end] =>
               lazymatch x with
               | context [match _ with _ => _ end] => fail
               | _ => destruct x
               end
           end; cbn [fst]; eauto.
Qed.

Lemma createSignedUrl_allocates cmd e σ r σ' :
  createSignedUrl P this cmd e σ = (r, σ') ->
  exists new, heap σ' = heap σ ++ new /\ length new <= 2 /\
              forallb is_url_cell new = true.
Proof.
  rewrite createSignedUrl_unfold.
  assert (Hend : forall u inputs,
            sign_and_append P this cmd e σ u inputs = (r, σ') ->
            exists new, heap σ' = heap σ ++ new /\ length new <= 2 /\
                        forallb is_url_cell new = true).
  { intros u inputs Hs. apply sign_and_append_inv in Hs.
    destruct Hs as [(_ & Hh & _) | (h & _ & Hs)].
    - exists [CellURL u]. repeat split; [exact Hh | cbn; lia].
    - cbv zeta in Hs. destruct Hs as [_ [(er & _ & _ & Hh) | (si & sg & _ & _ & Hh)]].
      + exists [CellURL u]. repeat split; [exact Hh | cbn; lia].
      + eexists. split; [exact Hh|]. split; [cbn; lia | reflexivity]. }
  repeat match goal with
         | |- context [match ?x with _ => _ end] =>
             lazymatch x with
             | context [match _ with _ => _ end] => fail
             | _ => destruct x
             end
         end;
    try apply Hend;
    intros [= <- <-];
    first [ exists []; rewrite app_nil_r; repeat split; cbn; lia
          | eexists [_]; repeat split; cbn; lia ].
Qed.

Lemma send_heap cmd σ :
  heap (snd (send P this cmd σ)) = heap (snd (createSignedUrl P this cmd None σ)).
Proof.
  rewrite send_unfold.
  destruct (createSignedUrl P this cmd None σ) as [[[su|e]|ex|] σ0]; try reflexivity.
  destruct (fetch_request cmd su σ0) as [rq σ1] eqn:Hr.
  apply fetch_request_state in Hr as ->.
  destruct rq as [req|ex|]; try reflexivity.
  destruct (fetch P req) as [response|ex]; [|reflexivity].
  rewrite route_response_unfold.
  destruct cmd as [sp pol content|sp|sp]; try destruct (response_ok response);
    reflexivity.
Qed.

(** X14.  On a command whose references are in order, [createSignedUrl]
    and [send] end with a [Result] or a thrown exception: every object they
    read (headers, policy, content, the two URLs) is there; and the
    references are still in order in the state they leave. *)
Theorem operations_find_their_objects (cmd : Command) (e : option jsnumber) (σ : State) :
  wf_command σ cmd ->
  fst (createSignedUrl P this cmd e σ) <> Wrong /\
  fst (send P this cmd σ) <> Wrong /\
  wf_command (snd (createSignedUrl P this cmd e σ)) cmd /\
  wf_command (snd (send P this cmd σ)) cmd.
Proof.
  intros Hwf.
  assert (Hkeep : forall e0, wf_command (snd (createSignedUrl P this cmd e0 σ)) cmd).
  { intros e0. destruct (createSignedUrl P this cmd e0 σ) as [r σ'] eqn:Hc.
    apply createSignedUrl_extends in Hc as [new Hnew].
    exact (wf_command_extends _ _ _ _ Hnew Hwf). }
  split; [now apply createSignedUrl_not_wrong|].
  split; [|split; [apply Hkeep|]].
  - pose proof (createSignedUrl_not_wrong cmd None σ Hwf) as Hc.
    pose proof (Hkeep None) as Hwf0.
    rewrite send_unfold.
    destruct (createSignedUrl P this cmd None σ) as [[[su|er]|ex|] σ0] eqn:Hcs;
      cbn [fst snd] in *; try discriminate; [|now destruct Hc].
    destruct Hwf as [[h Hh] Hrest].
    destruct (fetch_request_ready P this _ _ _ _ _ (conj (ex_intro _ h Hh) Hrest) Hh Hcs)
      as (req & u & Hr & _).
    rewrite Hr.
    destruct (fetch P req) as [response|ex]; [|discriminate].
    rewrite route_response_unfold.
    pose proof (parseJsonResponse_not_wrong response (log σ0 (EvFetch req))) as Hp.
    destruct cmd as [sp pol content|sp|sp]; try destruct (response_ok response);
      cbn [fst]; try discriminate;
      destruct (fst (parseJsonResponse P response (log σ0 (EvFetch req))))
        as [[d|er]|ex|]; congruence.
  - destruct (Hkeep None) as [Hh Hrest].
    assert (E : heap (snd (send P this cmd σ))
                = heap (snd (createSignedUrl P this cmd None σ)) ++ [])
      by (rewrite app_nil_r; apply send_heap).
    exact (wf_command_extends _ _ _ _ E (conj Hh Hrest)).
Qed.

End ProgressFacts.

Lemma starts_with_prefix (needle hay : jsstring) :
  starts_with needle hay = true <-> exists post, hay = needle ++ post.
Proof.
  revert hay. induction needle as [|a n IH]; intros hay; cbn [starts_with].
  - split; [eauto | reflexivity].
  - destruct hay as [|b h].
    + split; [discriminate | intros [post [=]]].
    + rewrite andb_true_iff, N.eqb_eq, IH. split.
      * intros [-> [post ->]]. exists post. reflexivity.
      * intros [post [= -> ->]]. eauto.
Qed.

Lemma includes_substring (hay needle : jsstring) :
  includes hay needle = true <-> exists pre post, hay = pre ++ needle ++ post.
Proof.
  induction hay as [|b h IH].
  - cbn [includes]. rewrite orb_false_r, starts_with_prefix. split.
    + intros [post ->]. exists [], post. reflexivity.
    + intros (pre & post & H). destruct pre as [|? ?]; [|discriminate].
      exists post. exact H.
  - cbn [includes]. rewrite orb_true_iff, starts_with_prefix, IH. split.
    + intros [[post ->] | (pre & post & ->)].
      * exists [], post. reflexivity.
      * exists (b :: pre), post. reflexivity.
    + intros (pre & post & H). destruct pre as [|c pre].
      * left. exists post. exact H.
      * right. injection H as -> ->. eauto.
Qed.

(** X15.  The classifier takes a response for JSON exactly when its
    [content-type] header is present and has [application/json] somewhere
    inside, whatever stands before or after (a charset, another type); it
    then reads the body with the JSON accessor, and with the text accessor
    otherwise. *)
Theorem json_content_type_is_a_substring_test
    (P : Platform) (response : Response) (σ : State) :
  (declares_json response = true <->
   exists pre post,
     contentType response = Some (pre ++ js "application/json" ++ post)) /\
  snd (parseJsonResponse P response σ)
    = log σ (if declares_json response then EvBodyJson response
             else EvBodyText response).
Proof.
  split; [|apply parseJsonResponse_state].
  unfold declares_json. destruct (contentType response) as [ct|].
  - rewrite includes_substring. split.
    + intros (pre & post & ->). eauto.
    + intros (pre & post & [= ->]). eauto.
  - split; [discriminate | intros (pre & post & [=])].
Qed.

Section SendExtras.

Variable P : Platform.
Variable this : MedoroDataplaneClient.

Lemma parseJsonResponse_throw_inv response σ ex :
  fst (parseJsonResponse P response σ) = Throw ex ->
  declares_json response = false /\ body_text response = Err ex.
Proof.
  unfold parseJsonResponse.
  destruct (declares_json response); cbn [negb]; run.
  - destruct (body_json response) as [rawData|e]; [|discriminate].
    destruct (ApiResponseSchema_parse rawData) as [[d|error]|]; discriminate.
  - destruct (body_text response); [discriminate|].
    cbn [fst]. intros [= ->]. split; reflexivity.
Qed.

(** X16.  The promise of [send] rejects in two cases only: the call of
    [createSignedUrl] rejected, or the transport answered without a JSON
    content type and reading the text of the body failed (for a fetch, with
    a status that is no success status). *)
Theorem send_throws_only (cmd : Command) (σ σ' : State) (ex : JsExn) :
  send P this cmd σ = (Throw ex, σ') ->
  createSignedUrl P this cmd None σ = (Throw ex, σ') \/
  exists req response,
    EvFetch req ∈ trace σ' /\
    fetch P req = Ok response /\
    declares_json response = false /\
    body_text response = Err ex /\
    match cmd with
    | GetObjectCommand _ => response_ok response = false
    | _ => True
    end.
Proof.
  rewrite send_unfold.
  destruct (createSignedUrl P this cmd None σ) as [[[su|e]|ex0|] σ0];
    try discriminate; [|intros [= -> ->]; left; reflexivity].
  destruct (fetch_request_outcome cmd su σ0) as [[req Hr] | Hr];
    destruct (fetch_request cmd su σ0) as [rq σ1]; cbn [fst] in Hr; subst rq;
    [|discriminate].
  destruct (fetch P req) as [response|e] eqn:Hf; [|discriminate].
  rewrite route_response_unfold. intros H. right. exists req, response.
  assert (Hin : forall s, EvFetch req ∈ trace (log (log σ1 (EvFetch req)) s)).
  { intros s. cbn [log trace]. rewrite !elem_of_app, !list_elem_of_singleton. auto. }
  destruct cmd as [sp pol content|sp|sp]; try destruct (response_ok response) eqn:Hok;
    try discriminate; injection H as H <-;
    destruct (fst (parseJsonResponse P response (log σ1 (EvFetch req))))
      as [[d|e]|ex1|] eqn:Hp; try discriminate; injection H as ->;
    apply parseJsonResponse_throw_inv in Hp as [Hj Hb]; auto 10.
Qed.

Lemma createSignedUrl_sign_event cmd e σ r σ' :
  createSignedUrl P this cmd e σ = (r, σ') ->
  trace σ' = trace σ \/
  exists u inputs h,
    trace σ' = trace σ ++ [EvSign (sign_request P this cmd e σ u inputs h)].
Proof.
  rewrite createSignedUrl_unfold.
  assert (Hend : forall u inputs,
            sign_and_append P this cmd e σ u inputs = (r, σ') ->
            trace σ' = trace σ \/
            exists u inputs h,
              trace σ' = trace σ ++ [EvSign (sign_request P this cmd e σ u inputs h)]).
  { intros u inputs Hs. apply sign_and_append_inv in Hs.
    destruct Hs as [(_ & _ & Ht) | (h & _ & Hs)]; [now left|].
    cbv zeta in Hs. destruct Hs as [Ht _]. right. eauto. }
  repeat match goal with
         | |- context [match ?x with _ => _ end] =>
             lazymatch x with
             | context [match _ with _ => _ end] => fail
             | _ => destruct x
             end
         end;
    try (intros [= <- <-]; left; reflexivity);
    apply Hend.
Qed.

(** X28.  The request handed to the signing primitive names the headers
    object and the method of the command and a URL object created by the
    call, and its [sign] callback signs with the private key of the client
    and no other: it returns the signature [crypto.subtle.sign] gives, and
    turns a failure of [crypto.subtle.sign] into the error result of kind
    [signature_error] that carries the message of the failure. *)
Theorem sign_callback_uses_the_key_of_the_client
    (cmd : Command) (e : option jsnumber) (σ : State) (req : SignRequest) :
  EvSign req ∈ drop (length (trace σ)) (trace (snd (createSignedUrl P this cmd e σ))) ->
  request_headers req = headers (super_of cmd) /\
  request_method req = method (super_of cmd) /\
  request_url req = length (heap σ) /\
  forall signatureBase,
    match crypto_subtle_sign P (privateKey this) signatureBase with
    | Ok signature => sign req signatureBase = Ok signature
    | Err ex =>
        exists er,
          sign req signatureBase = Err er /\
          type er = js "signature_error" /\
          message er = js "Failed to sign request: " ++ exn_message ex /\
          code er = None /\ context er = None
    end.
Proof.
  intros Hin.
  destruct (createSignedUrl P this cmd e σ) as [r σ'] eqn:Hc. cbn [snd] in Hin.
  destruct (createSignedUrl_sign_event _ _ _ _ _ Hc) as [Ht | (u & inputs & h & Ht)];
    rewrite Ht in Hin.
  - rewrite drop_all in Hin. inversion Hin.
  - rewrite drop_app_length in Hin. apply list_elem_of_singleton in Hin as [= ->].
    cbn [sign_request request_headers request_method request_url sign].
    repeat split. intros signatureBase. unfold sign_callback.
    destruct (crypto_subtle_sign P (privateKey this) signatureBase) as [v|ex];
      [reflexivity|].
    eexists. split; [reflexivity|]. repeat split.
Qed.

Lemma send_trace_after_signing cmd σ :
  exists more,
    trace (snd (send P this cmd σ))
      = trace (snd (createSignedUrl P this cmd None σ)) ++ more /\
    forall s, EvSign s ∉ more.
Proof.
  assert (Hnil : forall l : list Event, l = l ++ [] /\ forall s, EvSign s ∉ [])
    by (intros l; split; [now rewrite app_nil_r | intros s Hs; inversion Hs]).
  rewrite send_unfold.
  destruct (createSignedUrl P this cmd None σ) as [[[su|e]|ex|] σ0]; cbn [snd];
    try (eexists; apply Hnil).
  destruct (fetch_request cmd su σ0) as [rq σ1] eqn:Hr.
  apply fetch_request_state in Hr as ->.
  destruct rq as [req|ex|]; cbn [snd]; try (eexists; apply Hnil).
  assert (Hno : forall (l : list Event) s,
            (forall ev, ev ∈ l -> forall s', ev <> EvSign s') -> EvSign s ∉ l).
  { intros l s Hl Hs. exact (Hl _ Hs s eq_refl). }
  destruct (fetch P req) as [response|ex]; cbn [snd log trace].
  - rewrite route_response_unfold.
    destruct cmd as [sp pol content|sp|sp]; try destruct (response_ok response);
      cbn [snd log trace]; rewrite <- ?app_assoc; cbn [app];
      eexists; (split; [reflexivity|]); intros s; apply Hno; intros ev Hev s';
      repeat (apply elem_of_cons in Hev as [-> | Hev]);
      try (inversion Hev; fail); unfold body_read;
      try destruct (declares_json response); discriminate.
  - eexists. split; [reflexivity|]. intros s Hs.
    apply list_elem_of_singleton in Hs. discriminate.
Qed.

(** X17.  [send] signs with the default validity only: the one request it
    hands to the signing primitive is created at the clock's whole second
    and expires 60 seconds after the second reading of the clock. *)
Theorem send_signs_for_sixty_seconds (cmd : Command) (σ : State) (req : SignRequest) :
  EvSign req ∈ drop (length (trace σ)) (trace (snd (send P this cmd σ))) ->
  created req = (Date_now P (ticks σ) / 1000)%Z /\
  expires req = JFin (inject_Z (Date_now P (S (ticks σ)) / 1000) + inject_Z 60)%Q.
Proof.
  intros Hin.
  destruct (send_trace_after_signing cmd σ) as (more & Hm & Hno).
  rewrite Hm in Hin.
  destruct (createSignedUrl P this cmd None σ) as [r σ0] eqn:Hc. cbn [snd] in Hin.
  destruct (createSignedUrl_sign_event _ _ _ _ _ Hc) as [Ht | (u & inputs & h & Ht)];
    rewrite Ht in Hin.
  - rewrite drop_app_length in Hin. now destruct (Hno req).
  - rewrite <- app_assoc, drop_app_length in Hin.
    apply elem_of_cons in Hin as [[= ->] | Hin]; [|now destruct (Hno req)].
    split; reflexivity.
Qed.

(** X18.  [send] allocates what its call of [createSignedUrl] allocates and
    nothing else: at most two objects, both URLs; the objects that existed
    before the call (headers, policy and content of the command among them)
    hold what they held. *)
Theorem send_allocates_only_urls (cmd : Command) (σ : State) :
  exists new,
    heap (snd (send P this cmd σ)) = heap σ ++ new /\
    length new <= 2 /\
    forallb is_url_cell new = true /\
    forall (l : loc) c, heap σ !! l = Some c -> heap (snd (send P this cmd σ)) !! l = Some c.
Proof.
  destruct (createSignedUrl P this cmd None σ) as [r σ0] eqn:Hc.
  destruct (createSignedUrl_allocates P this _ _ _ _ _ Hc) as (new & Hh & Hlen & Hurl).
  exists new. rewrite send_heap, Hc. cbn [snd].
  split; [exact Hh|]. split; [exact Hlen|]. split; [exact Hurl|].
  intros l c Hl. rewrite Hh. now apply lookup_app_l_Some.
Qed.

End SendExtras.

(** X19.  The three constructors build the command from what they are
    given and nothing else: the key given, a [Headers] object that is new
    and empty, and for a store command the policy and the content given.
    Nothing that existed is changed, and the references of the new command
    are in order when the policy and content objects exist. *)
Theorem constructors_build_live_commands
    (k : jsstring) (pol : loc) (content : option BodyInit) (σ : State)
    (p : ApiPutRequestValidationPolicy) :
  heap σ !! pol = Some (CellPolicy p) ->
  match content with
  | Some (BodyRef l) => exists bytes, heap σ !! l = Some (CellBody bytes)
  | _ => True
  end ->
  heap σ !! length (heap σ) = None /\
  heap (push_cell σ (CellHeaders [])) !! length (heap σ) = Some (CellHeaders []) /\
  (forall (l : loc) c,
     heap σ !! l = Some c -> heap (push_cell σ (CellHeaders [])) !! l = Some c) /\
  (exists s,
     new_PutObjectCommand k pol content σ
       = (Ret (PutObjectCommand s pol content), push_cell σ (CellHeaders [])) /\
     key s = k /\ headers s = length (heap σ) /\
     wf_command (push_cell σ (CellHeaders [])) (PutObjectCommand s pol content)) /\
  (exists s,
     new_GetObjectCommand k σ
       = (Ret (GetObjectCommand s), push_cell σ (CellHeaders [])) /\
     key s = k /\ headers s = length (heap σ) /\
     wf_command (push_cell σ (CellHeaders [])) (GetObjectCommand s)) /\
  (exists s,
     new_DeleteObjectCommand k σ
       = (Ret (DeleteObjectCommand s), push_cell σ (CellHeaders [])) /\
     key s = k /\ headers s = length (heap σ) /\
     wf_command (push_cell σ (CellHeaders [])) (DeleteObjectCommand s)).
Proof.
  intros Hp Hc.
  assert (Hh : heap (push_cell σ (CellHeaders [])) !! length (heap σ)
               = Some (CellHeaders [])) by apply lookup_fresh.
  assert (Hframe : forall (l : loc) c,
            heap σ !! l = Some c -> heap (push_cell σ (CellHeaders [])) !! l = Some c).
  { intros l c Hl. cbn [push_cell heap]. now apply lookup_app_l_Some. }
  split; [apply lookup_ge_None; lia|]. split; [exact Hh|]. split; [exact Hframe|].
  split; [|split]; eexists; (split; [reflexivity|]);
    (split; [reflexivity|]); (split; [reflexivity|]);
    (split; [exists []; exact Hh|]); try exact I.
  split.
  - exists p. now apply Hframe.
  - destruct content as [[t|l]|]; try exact I.
    destruct Hc as [bytes Hb]. exists bytes. now apply Hframe.
Qed.

Module SchemaExtras.
Import Json Schemas.

Lemma all_some_map_inv {A B} (f : A -> option B) (l : list A) (r : list B) :
  all_some (map f l) = Some r -> Forall2 (fun x y => f x = Some y) l r.
Proof.
  revert r. induction l as [|x l IH]; intros r; cbn [map all_some].
  - intros [= <-]. constructor.
  - destruct (f x) as [y|] eqn:E; [|discriminate].
    destruct (all_some (map f l)) as [ys|]; [|discriminate].
    intros [= <-]. constructor; [exact E | now apply IH].
Qed.

Lemma access_control_parse_inv (v : json) (a : AccessControl) :
  access_control_parse v = Some a -> v = JStr (access_control_name a).
Proof.
  destruct v as [| | |s| |]; try discriminate. cbn [access_control_parse].
  unfold jsstring_eqb.
  destruct (bool_decide (s = js "public")) eqn:E1.
  - apply bool_decide_eq_true in E1 as ->. intros [= <-]. reflexivity.
  - destruct (bool_decide (s = js "private")) eqn:E2; [|discriminate].
    apply bool_decide_eq_true in E2 as ->. intros [= <-]. reflexivity.
Qed.

(** X20.  What [ApiPutRequestValidationPolicySchema] accepts: an object
    whose [apiPutV1] holds a [conditions] object and an [accessControl] that
    is the string [public] or [private].  The policy it returns has one
    condition per property of [conditions], under the same name and in the
    same order, every name non-empty, and is itself accepted by the schema,
    unchanged, when written back as an object. *)
Theorem policy_schema_sound (v : json) (p : ApiPutRequestValidationPolicy) :
  ApiPutRequestValidationPolicySchema_parse v = Some p ->
  (exists top o cs,
     v = JObj top /\
     obj_get (js "apiPutV1") top = Some (JObj o) /\
     obj_get (js "conditions") o = Some (JObj cs) /\
     obj_get (js "accessControl") o = Some (JStr (access_control_name (accessControl p))) /\
     Forall2 (fun kv kc => fst kc = fst kv /\
                           ValidationConditionSchema_parse (snd kv) = Some (snd kc))
             cs (conditions p)) /\
  Forall (fun kc => fst kc <> []) (conditions p) /\
  ApiPutRequestValidationPolicySchema_parse (policy_to_json p) = Some p.
Proof.
  intros H.
  assert (Hshape : exists top o cs,
            v = JObj top /\
            obj_get (js "apiPutV1") top = Some (JObj o) /\
            obj_get (js "conditions") o = Some (JObj cs) /\
            obj_get (js "accessControl") o
              = Some (JStr (access_control_name (accessControl p))) /\
            Forall2 (fun kv kc => fst kc <> [] /\ fst kc = fst kv /\
                                  ValidationConditionSchema_parse (snd kv) = Some (snd kc))
                    cs (conditions p)).
  { unfold ApiPutRequestValidationPolicySchema_parse in H.
    destruct v as [| | | | |top]; try discriminate.
    destruct (obj_get (js "apiPutV1") top) as [[| | | | |o]|] eqn:Ha; try discriminate.
    destruct (obj_get (js "conditions") o) as [[| | | | |cs]|] eqn:Hc; try discriminate.
    destruct (obj_get (js "accessControl") o) as [ac|] eqn:Hac; try discriminate.
    destruct (all_some _) as [conds|] eqn:Hall; [|discriminate].
    destruct (access_control_parse ac) as [a|] eqn:Hacp; [|discriminate].
    injection H as <-. cbn [conditions accessControl].
    apply access_control_parse_inv in Hacp as ->.
    exists top, o, cs. repeat (split; [reflexivity || assumption|]).
    apply all_some_map_inv in Hall.
    eapply Forall2_impl; [exact Hall|].
    intros [k x] [k' c]. cbn [fst snd].
    destruct k as [|k0 kr]; [discriminate|].
    destruct (ValidationConditionSchema_parse x); [|discriminate].
    intros [= <- <-]. repeat split. discriminate. }
  destruct Hshape as (top & o & cs & -> & Ha & Hc & Hac & Hall).
  assert (Hne : Forall (fun kc => fst kc <> []) (conditions p)).
  { clear -Hall. induction Hall as [|kv kc cs conds [Hn _] _ IH]; constructor; assumption. }
  assert (Hint : policy_all is_integer p = true).
  { clear -Hall. unfold policy_all.
    induction Hall as [|kv kc cs conds (_ & _ & Hp) _ IH]; [reflexivity|].
    cbn [forallb]. rewrite IH, andb_true_r.
    exact (SchemaFacts.parse_condition_integer _ _ Hp). }
  split; [|split; [exact Hne | now apply SchemaFacts.schema_accepts_policy]].
  exists top, o, cs. split; [reflexivity|]. repeat (split; [assumption|]).
  eapply Forall2_impl; [exact Hall|]. intros kv kc (_ & H1 & H2). now split.
Qed.

(** X21.  A policy whose condition names are non-empty and pairwise
    distinct and whose numbers are safe integers other than [-0] survives
    the way to the service: the text that [btoa] encoded decodes, parses as
    JSON and is accepted by the schema, and what the schema returns is the
    policy the caller gave. *)
Theorem policy_survives_the_wire
    (p : ApiPutRequestValidationPolicy) (encoded : jsstring) :
  Forall (fun kc => fst kc <> []) (conditions p) ->
  NoDup (map fst (conditions p)) ->
  policy_plain p = true ->
  Base64.btoa (stringify (policy_to_json p)) = Some encoded ->
  exists text v,
    Base64.decode encoded = Some text /\
    parse text = Some v /\
    ApiPutRequestValidationPolicySchema_parse v = Some p.
Proof.
  intros Hne Hnd Hplain Hb.
  exists (stringify (policy_to_json p)), (policy_to_json p).
  split; [now apply Base64Facts.decode_btoa|].
  split; [apply JsonFacts.parse_stringify; now apply SchemaFacts.wf_policy|].
  apply SchemaFacts.schema_accepts_policy; [exact Hne|].
  exact (SchemaFacts.policy_all_impl _ _ p SchemaFacts.plain_is_integer Hplain).
Qed.

End SchemaExtras.

Section EncodablePolicy.

Variable P : Platform.
Variable this : MedoroDataplaneClient.

(** X22.  When the text [JSON.stringify] writes for the policy of a store
    command has only code units up to 0xFF, [createSignedUrl] does not
    throw on it: with an accepted expiry and a key that gives a valid URL,
    it calls the signing primitive once, on a URL that carries the encoded
    text, and returns what the primitive decides. *)
Theorem encodable_policy_is_signed
    (s : MedoroDataplaneCommand) (pol : loc) (content : option BodyInit)
    (e : option jsnumber) (σ : State)
    (p : ApiPutRequestValidationPolicy) (h : list (jsstring * jsstring)) (u0 : URL) :
  heap σ !! pol = Some (CellPolicy p) ->
  heap σ !! headers s = Some (CellHeaders h) ->
  Base64.latin1 (Json.stringify (Schemas.policy_to_json p)) = true ->
  expiry_rejected (expiry_of e) = false ->
  URL_parse P (key s) (origin this) = Some u0 ->
  exists req encoded,
    trace (snd (createSignedUrl P this (PutObjectCommand s pol content) e σ))
      = trace σ ++ [EvSign req] /\
    Base64.btoa (Json.stringify (Schemas.policy_to_json p)) = Some encoded /\
    request_url_value req = URL_set_param x_medoro_policy encoded u0 /\
    fst (createSignedUrl P this (PutObjectCommand s pol content) e σ)
      = match createSignatureForRequest P req with
        | Ok _ => Ret (Ok {| signedUrl := S (length (heap σ)); signed_method := method s |})
        | Err er => Ret (Err er)
        end.
Proof.
  intros Hp Hh Hl He Hu.
  assert (Hb : Base64.btoa (Json.stringify (Schemas.policy_to_json p))
               = Some (Base64.encode (Json.stringify (Schemas.policy_to_json p)))).
  { unfold Base64.btoa. now rewrite Hl. }
  rewrite createSignedUrl_unfold, He. cbn [super_of policy_in]. rewrite Hu.
  rewrite (lookup_app_l_Some _ _ _ _ Hp), Hb.
  unfold sign_and_append. cbn [super_of].
  rewrite (lookup_app_l_Some _ _ _ _ Hh). cbv zeta.
  exists (sign_request P this (PutObjectCommand s pol content) e σ
            (URL_set_param x_medoro_policy
               (Base64.encode (Json.stringify (Schemas.policy_to_json p))) u0)
            (base_signature_inputs ++ [QueryParam x_medoro_policy]) h),
         (Base64.encode (Json.stringify (Schemas.policy_to_json p))).
  split; [|split; [|split]].
  - destruct (createSignatureForRequest P _) as [[si sg]|er]; reflexivity.
  - reflexivity.
  - reflexivity.
  - destruct (createSignatureForRequest P _) as [[si sg]|er]; reflexivity.
Qed.

End EncodablePolicy.

Module AtobFacts.
Import Base64 Atob.

Lemma sextet_not_whitespace (c x : N) :
  sextet_of_char c = Some x -> is_ascii_whitespace c = false.
Proof.
  unfold sextet_of_char, is_ascii_whitespace.
  repeat case_if; intros [= <-]; bool_hyps; 
    repeat (apply orb_false_iff; split); apply N.eqb_neq; lia.
Qed.

Lemma sextet_not_pad (c x : N) : sextet_of_char c = Some x -> (c =? pad)%N = false.
Proof.
  unfold sextet_of_char, pad.
  repeat case_if; intros [= <-]; bool_hyps; apply N.eqb_neq; lia.
Qed.

Lemma sextet_bound (c x : N) : sextet_of_char c = Some x -> (x < 64)%N.
Proof.
  unfold sextet_of_char. repeat case_if; intros [= <-]; bool_hyps; lia.
Qed.

Lemma list_ind4 {A} (Q : list A -> Prop) :
  Q [] -> (forall a, Q [a]) -> (forall a b, Q [a; b]) -> (forall a b c, Q [a; b; c]) ->
  (forall a b c d r, Q r -> Q (a :: b :: c :: d :: r)) ->
  forall l, Q l.
Proof.
  intros H0 H1 H2 H3 H4.
  assert (H : forall l, Q l /\ (forall a, Q (a :: l)) /\ (forall a b, Q (a :: b :: l))
                        /\ (forall a b c, Q (a :: b :: c :: l))).
  { induction l as [|x l (IH0 & IH1 & IH2 & IH3)]; repeat split; auto. }
  intros l. apply H.
Qed.

Lemma length_cons4_mod {A} (a b c d : A) (r : list A) :
  length (a :: b :: c :: d :: r) mod 4 = length r mod 4.
Proof.
  cbn [length].
  replace (S (S (S (S (length r))))) with (length r + 1 * 4) by lia.
  apply Nat.Div0.mod_add.
Qed.

Lemma strip_padding_cons4 (c1 c2 c3 c4 : N) (r : jsstring) :
  (c4 =? pad)%N = false ->
  strip_padding (c1 :: c2 :: c3 :: c4 :: r) = c1 :: c2 :: c3 :: c4 :: strip_padding r.
Proof.
  intros H4. unfold strip_padding. rewrite length_cons4_mod.
  destruct (length r mod 4 =? 0) eqn:Hm; [|reflexivity].
  assert (Hrev : rev (c1 :: c2 :: c3 :: c4 :: r) = rev r ++ [c4; c3; c2; c1]).
  { cbn [rev]. rewrite <- !app_assoc. reflexivity. }
  rewrite Hrev.
  destruct (rev r) as [|x [|y r']] eqn:Er.
  - cbn [app]. rewrite H4. reflexivity.
  - exfalso. assert (E : length r = 1) by (rewrite <- length_rev, Er; reflexivity).
    rewrite E in Hm. discriminate.
  - cbn [app]. destruct (x =? pad)%N; [|reflexivity].
    destruct (y =? pad)%N.
    + rewrite rev_app_distr. reflexivity.
    + change (y :: r' ++ [c4; c3; c2; c1]) with ((y :: r') ++ [c4; c3; c2; c1]).
      rewrite rev_app_distr. reflexivity.
Qed.

(** A text the strict decoder reads is read alike by [atob]. *)
Lemma decode_atob_steps (s : jsstring) :
  forall bs, decode s = Some bs ->
  remove_whitespace s = s /\
  length (strip_padding s) mod 4 <> 1 /\
  exists sx, sextets (strip_padding s) = Some sx /\ bytes_of_sextets sx = bs.
Proof.
  induction s as [|a|a b|a b c|c1 c2 c3 c4 r IH] using list_ind4;
    intros bs; cbn [decode]; try discriminate.
  - intros [= <-]. repeat split; [discriminate|]. exists []. split; reflexivity.
  - destruct (sextet_of_char c1) as [s1|] eqn:E1; [|discriminate].
    destruct (sextet_of_char c2) as [s2|] eqn:E2; [|discriminate].
    pose proof (sextet_not_whitespace _ _ E1) as W1.
    pose proof (sextet_not_whitespace _ _ E2) as W2.
    destruct (c4 =? pad)%N eqn:E4.
    + destruct r as [|? ?]; [|discriminate].
      apply N.eqb_eq in E4 as ->.
      destruct (c3 =? pad)%N eqn:E3.
      * apply N.eqb_eq in E3 as ->. intros [= <-].
        unfold remove_whitespace. cbn [List.filter]. rewrite W1, W2. cbn [negb].
        split; [reflexivity|]. unfold strip_padding. cbn.
        rewrite E1, E2. split; [discriminate|]. eexists. split; reflexivity.
      * destruct (sextet_of_char c3) as [s3|] eqn:S3; [|discriminate].
        pose proof (sextet_not_whitespace _ _ S3) as W3.
        intros [= <-].
        unfold remove_whitespace. cbn [List.filter]. rewrite W1, W2, W3. cbn [negb].
        split; [reflexivity|]. unfold strip_padding.
        cbn [length Nat.modulo Nat.divmod fst snd Nat.eqb rev app Nat.sub].
        change (pad =? pad)%N with true. cbv iota. rewrite E3.
        cbn [rev app length sextets]. rewrite E1, E2, S3.
        split; [discriminate|]. eexists. split; reflexivity.
    + destruct (sextet_of_char c3) as [s3|] eqn:S3; [|discriminate].
      destruct (sextet_of_char c4) as [s4|] eqn:S4; [|discriminate].
      destruct (decode r) as [bytes|] eqn:Hr; [|discriminate].
      pose proof (sextet_not_whitespace _ _ S3) as W3.
      pose proof (sextet_not_whitespace _ _ S4) as W4.
      intros [= <-].
      destruct (IH _ eq_refl) as (Hws & Hlen & sx & Hsx & Hb).
      split; [|split].
      * unfold remove_whitespace in *. cbn [List.filter].
        rewrite W1, W2, W3, W4. cbn [negb]. now rewrite Hws.
      * rewrite strip_padding_cons4 by assumption. now rewrite length_cons4_mod.
      * rewrite strip_padding_cons4 by assumption.
        cbn [sextets]. rewrite E1, E2, S3, S4, Hsx.
        eexists. split; [reflexivity|]. cbn [bytes_of_sextets]. now rewrite Hb.
Qed.

Lemma decode_atob (s bs : jsstring) : decode s = Some bs -> atob s = Some bs.
Proof.
  intros H. destruct (decode_atob_steps _ _ H) as (Hws & Hlen & sx & Hsx & Hb).
  unfold atob. rewrite Hws. cbv zeta.
  destruct (length (strip_padding s) mod 4 =? 1) eqn:E.
  - apply Nat.eqb_eq in E. contradiction.
  - rewrite Hsx. cbn [option_map]. now rewrite Hb.
Qed.

Lemma sextets_bound (d sx : list N) :
  sextets d = Some sx -> Forall (fun x => (x < 64)%N) sx.
Proof.
  revert sx. induction d as [|c r IH]; intros sx; cbn [sextets].
  - intros [= <-]. constructor.
  - destruct (sextet_of_char c) as [x|] eqn:E; [|discriminate].
    destruct (sextets r) as [xs|]; [|discriminate].
    intros [= <-]. constructor; [exact (sextet_bound _ _ E) | now apply IH].
Qed.

Lemma bytes_of_sextets_bound (sx : list N) :
  Forall (fun x => (x < 64)%N) sx ->
  Forall (fun b => (b <= 255)%N) (bytes_of_sextets sx).
Proof.
  induction sx as [|a|a b|a b c|a b c d r IH] using list_ind4; intros H;
    cbn [bytes_of_sextets]; repeat constructor;
    repeat match goal with
           | H : Forall _ (_ :: _) |- _ => apply Forall_cons in H; destruct H
           end; try div_mod_lia.
  now apply IH.
Qed.

Lemma to_uint8_to_N (b : Byte.byte) : MedoroClient.to_uint8 (Byte.to_N b) = b.
Proof.
  unfold MedoroClient.to_uint8. pose proof (Byte.to_N_bounded b) as Hb.
  rewrite N.mod_small by lia. now rewrite Byte.of_to_N.
Qed.

Lemma bytes_latin1 (a : list Byte.byte) : latin1 (map Byte.to_N a) = true.
Proof.
  unfold latin1. induction a as [|b r IH]; [reflexivity|].
  cbn [map forallb]. rewrite IH, andb_true_r. apply N.leb_le. apply Byte.to_N_bounded.
Qed.

Lemma encode_length (s : list N) : length (encode s) = 4 * ((length s + 2) / 3).
Proof.
  induction s as [|a|a b|a b c r IH] using Base64Facts.list_ind3; try reflexivity.
  cbn [encode app length]. rewrite IH.
  replace (S (S (S (length r))) + 2) with ((length r + 2) + 1 * 3) by lia.
  rewrite Nat.div_add by lia. lia.
Qed.

End AtobFacts.


(** X23.  In [uint8ArrayToBase64] the call of [btoa] never throws, every
    byte being a code unit up to 0xFF, and the text returned has four
    characters for every three bytes begun. *)
Theorem uint8ArrayToBase64_total (bytes : list Byte.byte) :
  exists text,
    MedoroClient.uint8ArrayToBase64 bytes = Some text /\
    length text = 4 * ((length bytes + 2) / 3).
Proof.
  exists (Base64.encode (map Byte.to_N bytes)). split.
  - unfold MedoroClient.uint8ArrayToBase64, Base64.btoa. now rewrite AtobFacts.bytes_latin1.
  - rewrite AtobFacts.encode_length. now rewrite length_map.
Qed.

(** X24.  The two helpers are inverse to each other on bytes: what
    [uint8ArrayToBase64] wrote, [base64ToUint8Array] reads back as the same
    bytes. *)
Theorem base64_helpers_round_trip (bytes : list Byte.byte) (text : jsstring) :
  MedoroClient.uint8ArrayToBase64 bytes = Some text ->
  MedoroClient.base64ToUint8Array text = Some bytes.
Proof.
  unfold MedoroClient.uint8ArrayToBase64, MedoroClient.base64ToUint8Array. intros H.
  apply Base64Facts.decode_btoa in H. apply AtobFacts.decode_atob in H.
  rewrite H. f_equal. rewrite map_map.
  rewrite <- (map_id bytes) at 2. apply map_ext. apply AtobFacts.to_uint8_to_N.
Qed.

(** X25.  [atob] undoes [btoa]: whatever text [btoa] encoded, [atob] of the
    result is that text; so the policy parameter of a signed URL is read
    back with [atob]. *)
Theorem atob_inverts_btoa (s encoded : jsstring) :
  Base64.btoa s = Some encoded -> Atob.atob encoded = Some s.
Proof.
  intros H. apply AtobFacts.decode_atob. now apply Base64Facts.decode_btoa.
Qed.

(** X26.  Whatever text [base64ToUint8Array] accepts, the code units that
    [atob] returns for it are bytes: storing them in the [Uint8Array]
    loses nothing, the array holds exactly the code units. *)
Theorem base64ToUint8Array_keeps_code_units
    (text : jsstring) (array : list Byte.byte) :
  MedoroClient.base64ToUint8Array text = Some array ->
  Atob.atob text = Some (map Byte.to_N array).
Proof.
  unfold MedoroClient.base64ToUint8Array.
  destruct (Atob.atob text) as [bin|] eqn:H; [|discriminate]. intros [= <-].
  assert (Hb : Forall (fun b => (b <= 255)%N) bin).
  { unfold Atob.atob in H. cbv zeta in H.
    destruct (_ =? 1); [discriminate|].
    destruct (Atob.sextets _) as [sx|] eqn:E; [|discriminate].
    injection H as <-. apply AtobFacts.bytes_of_sextets_bound.
    exact (AtobFacts.sextets_bound _ _ E). }
  f_equal. clear H. induction Hb as [|b r Hb _ IH]; [reflexivity|].
  cbn [map]. rewrite <- IH. f_equal.
  unfold MedoroClient.to_uint8. rewrite N.mod_small by lia.
  destruct (Byte.of_N b) as [x|] eqn:E.
  - symmetry. now apply Byte.to_of_N.
  - apply Byte.of_N_None_iff in E. lia.
Qed.

(** X27.  The classifier of the first client never throws.  On a response
    that declares JSON the classifier of [MedoroDataplaneClient] reads the
    body the same way and returns the same result, but for the context it
    adds to the error of an error envelope; on any other response it never
    returns [Ok], whatever the body holds. *)
Theorem classifier_refines_the_first_client
    (P : Platform) (response : Response) (σ : State) :
  (exists r, MedoroClient.parseJsonResponse P response σ
             = (Ret r, log σ (EvBodyJson response))) /\
  (declares_json response = true ->
   snd (parseJsonResponse P response σ) = snd (MedoroClient.parseJsonResponse P response σ) /\
   match fst (MedoroClient.parseJsonResponse P response σ) with
   | Ret (Ok data) => fst (parseJsonResponse P response σ) = Ret (Ok data)
   | Ret (Err e) =>
       exists e',
         fst (parseJsonResponse P response σ) = Ret (Err e') /\
         type e' = type e /\ message e' = message e /\
         code e' = code e /\ details e' = details e /\
         match context e with
         | Some c => context e' = Some c
         | None => context e' = Some (details_or (details e) (statusText response))
         end
   | _ => False
   end) /\
  (declares_json response = false ->
   forall data, fst (parseJsonResponse P response σ) <> Ret (Ok data)).
Proof.
  split; [|split].
  - unfold MedoroClient.parseJsonResponse. run.
    destruct (body_json response) as [rawData|ex]; [|eauto].
    destruct (ApiResponseSchema_parse rawData) as [[data|error]|]; eauto.
  - intros Hj. unfold parseJsonResponse, MedoroClient.parseJsonResponse.
    rewrite Hj. cbn [negb]. run.
    destruct (body_json response) as [rawData|ex].
    + destruct (ApiResponseSchema_parse rawData) as [[data|error]|]; cbn [fst snd].
      * split; reflexivity.
      * split; [reflexivity|]. eexists. split; [reflexivity|]. repeat split.
      * split; [reflexivity|]. eexists. split; [reflexivity|]. repeat split.
    + cbn [fst snd]. split; [reflexivity|]. eexists. split; [reflexivity|]. repeat split.
  - intros Hj data. unfold parseJsonResponse. rewrite Hj. cbn [negb]. run.
    destruct (body_text response); discriminate.
Qed.

Section MoreWitnesses.
Import Sample Scenario.

Lemma signed_url_carries_the_signature_witness :
  exists req signatureInput signature u,
    trace (snd (createSignedUrl offline client put None (state_with policy)))
      = trace (state_with policy) ++ [EvSign req] /\
    createSignatureForRequest offline req = Ok (signatureInput, signature) /\
    heap (snd (createSignedUrl offline client put None (state_with policy)))
      !! signedUrl signed_put = Some (CellURL u) /\
    SearchParams.get x_medoro_signature_input (searchParams u) = Some signatureInput /\
    SearchParams.get x_medoro_signature (searchParams u) = Some signature.
Proof.
  apply (signed_url_carries_the_signature offline client put None (state_with policy)).
  vm_compute. reflexivity.
Defined.

Lemma signing_failure_is_passed_on_witness :
  createSignedUrl refusing client get None (state_with policy)
    = (Ret (Err signing_refused),
       snd (createSignedUrl refusing client get None (state_with policy))) /\
  exists req u,
    createSignatureForRequest refusing req = Err signing_refused /\
    heap (snd (createSignedUrl refusing client get None (state_with policy)))
      = heap (state_with policy) ++ [CellURL u].
Proof.
  assert (H : createSignedUrl refusing client get None (state_with policy)
              = (Ret (Err signing_refused),
                 snd (createSignedUrl refusing client get None (state_with policy))))
    by (vm_compute; reflexivity).
  split; [exact H|].
  destruct (signing_failure_is_passed_on refusing client get None _ _ _ H)
    as [(Hrej & _) | (_ & req & u & _ & Hs & Hh & _)].
  - vm_compute in Hrej. discriminate.
  - exists req, u. split; assumption.
Defined.


Lemma only_base_components_without_policy_witness :
  exists calls,
    trace (snd (createSignedUrl offline client delete None (state_with policy)))
      = trace (state_with policy) ++ calls /\
    forall ev, ev ∈ calls ->
      exists req, ev = EvSign req /\ signatureInputs req = base_signature_inputs.
Proof.
  destruct (only_base_components_without_policy offline client delete None
              (state_with policy) _ _ eq_refl (surjective_pairing _))
    as (calls & Ht & Hall).
  exists calls. split; [exact Ht|].
  intros ev Hev. destruct (Hall ev Hev) as (req & H1 & H2 & _). eauto.
Defined.


Lemma createSignedUrl_throws_only_witness :
  createSignedUrl offline client put None (state_with policy_beyond_latin1)
    = (Throw InvalidCharacterError,
       snd (createSignedUrl offline client put None (state_with policy_beyond_latin1))) /\
  trace (snd (createSignedUrl offline client put None (state_with policy_beyond_latin1)))
    = trace (state_with policy_beyond_latin1).
Proof.
  assert (H : createSignedUrl offline client put None (state_with policy_beyond_latin1)
              = (Throw InvalidCharacterError,
                 snd (createSignedUrl offline client put None
                        (state_with policy_beyond_latin1))))
    by (vm_compute; reflexivity).
  split; [exact H|].
  destruct (createSignedUrl_throws_only offline client put None _ _ _ H) as (_ & Ht & _).
  exact Ht.
Defined.

Lemma createSignedUrl_twice_witness :
  exists σ1 σ2 su1 su2 u1 u2,
    createSignedUrl offline client put None (state_with policy) = (Ret (Ok su1), σ1) /\
    createSignedUrl offline client put None σ1 = (Ret (Ok su2), σ2) /\
    signedUrl su1 <> signedUrl su2 /\
    heap σ2 !! signedUrl su1 = Some (CellURL u1) /\
    heap σ2 !! signedUrl su2 = Some (CellURL u2) /\
    unsigned_params u1 = unsigned_params u2.
Proof.
  set (σ1 := snd (createSignedUrl offline client put None (state_with policy))).
  set (σ2 := snd (createSignedUrl offline client put None σ1)).
  assert (H1 : createSignedUrl offline client put None (state_with policy)
               = (Ret (Ok signed_put), σ1)) by (vm_compute; reflexivity).
  assert (H2 : createSignedUrl offline client put None σ1
               = (Ret (Ok {| signedUrl := 5; signed_method := PUT |}), σ2))
    by (vm_compute; reflexivity).
  destruct (createSignedUrl_twice offline client put None _ _ _ _ _ H1 H2)
    as (Hne & u1 & u2 & Ha & Hb & _ & _ & _ & _ & Hu).
  exists σ1, σ2, signed_put, {| signedUrl := 5; signed_method := PUT |}, u1, u2.
  repeat split; assumption.
Defined.

Lemma commands_do_not_share_default_headers_witness :
  exists s1 s2 σ1 σ2,
    new_MedoroDataplaneCommand GET None (js "a") (state_with policy) = (Ret s1, σ1) /\
    new_MedoroDataplaneCommand PUT None (js "b") σ1 = (Ret s2, σ2) /\
    headers s1 <> headers s2 /\
    heap σ2 !! headers s1 = Some (CellHeaders []) /\
    heap σ2 !! headers s2 = Some (CellHeaders []).
Proof.
  eexists _, _, _, _.
  split; [reflexivity|]. split; [reflexivity|].
  destruct (commands_do_not_share_default_headers GET PUT (js "a") (js "b")
              (state_with policy) _ _ _ _ eq_refl eq_refl) as (Hne & H1 & H2 & _).
  repeat split; assumption.
Defined.

Lemma no_transport_without_signed_url_witness :
  send refusing client get (state_with policy)
  = (Ret (Err signing_refused),
     snd (createSignedUrl refusing client get None (state_with policy))).
Proof.
  destruct (no_transport_without_signed_url refusing client get (state_with policy)
              (snd (createSignedUrl refusing client get None (state_with policy)))
              (Ret (Err signing_refused)))
    as (Hs & Hr & _).
  - vm_compute. reflexivity.
  - discriminate.
  - rewrite (surjective_pairing (send refusing client get (state_with policy))).
    now rewrite Hs, Hr.
Defined.

Lemma transport_failure_is_a_network_error_witness :
  wf_command (state_with policy) put /\
  exists e,
    fst (send offline client put (state_with policy)) = Ret (Err e) /\
    type e = js "network_error" /\
    message e = js "Network error during PUT: fetch failed".
Proof.
  assert (Hwf : wf_command (state_with policy) put).
  { split; [exists []; reflexivity|]. split; [exists policy; reflexivity | exact I]. }
  split; [exact Hwf|].
  destruct (transport_failure_is_a_network_error offline client put (state_with policy)
              (JsError (js "TypeError") (js "fetch failed")) Hwf (fun _ => eq_refl))
    as [_ Hok].
  destruct (Hok signed_put
              (snd (createSignedUrl offline client put None (state_with policy))))
    as (s & f & e & Hs & _ & _ & Ht & Hm & _).
  - vm_compute. reflexivity.
  - exists e. rewrite Hs. repeat split; assumption.
Defined.

Lemma transport_is_called_with_the_signed_url_witness :
  exists req,
    trace (snd (send (platform (Ok uploaded)) client put (state_with policy))) !! 1
      = Some (EvFetch req) /\
    fetch_url req = 3 /\ fetch_method req = PUT /\ fetch_headers req = [] /\
    fetch_body req = Some (TextBody (js "Hello Medoro!")).
Proof.
  destruct (transport_is_called_with_the_signed_url (platform (Ok uploaded)) client put
              (state_with policy)
              (snd (createSignedUrl (platform (Ok uploaded)) client put None
                      (state_with policy)))
              signed_put [])
    as (req & u & Ht & _ & Hu & _ & Hm & Hh & Hb).
  - split; [exists []; reflexivity|]. split; [exists policy; reflexivity | exact I].
  - reflexivity.
  - vm_compute. reflexivity.
  - exists req. split; [exact Ht|]. split; [exact Hu|]. split; [exact Hm|].
    split; [exact Hh | exact Hb].
Defined.

Lemma send_success_value_witness :
  exists req data,
    fetch (platform (Ok uploaded)) req = Ok uploaded /\
    Data (Some (JObj [(js "key", JStr (js "test-key"))])) = Data data /\
    success_envelope uploaded data.
Proof.
  destruct (send_success_value (platform (Ok uploaded)) client delete (state_with policy)
              (snd (send (platform (Ok uploaded)) client delete (state_with policy)))
              (Data (Some (JObj [(js "key", JStr (js "test-key"))]))))
    as (req & response & Hf & data & Hv & He).
  - vm_compute. reflexivity.
  - injection Hf as <-. exists req, data. split; [reflexivity|]. split; assumption.
Defined.

Lemma operations_find_their_objects_witness :
  wf_command (state_with policy) put /\
  fst (send offline client put (state_with policy)) <> Wrong /\
  wf_command (snd (send offline client put (state_with policy))) put.
Proof.
  assert (Hwf : wf_command (state_with policy) put).
  { split; [exists []; reflexivity|]. split; [exists policy; reflexivity | exact I]. }
  split; [exact Hwf|].
  destruct (operations_find_their_objects offline client put None (state_with policy) Hwf)
    as (_ & H1 & _ & H2).
  split; assumption.
Defined.

Lemma send_throws_only_witness :
  send offline client put (state_with policy_beyond_latin1)
    = (Throw InvalidCharacterError,
       snd (send offline client put (state_with policy_beyond_latin1))) /\
  (createSignedUrl offline client put None (state_with policy_beyond_latin1)
     = (Throw InvalidCharacterError,
        snd (send offline client put (state_with policy_beyond_latin1))) \/
   exists req response,
     fetch offline req = Ok response /\ declares_json response = false).
Proof.
  assert (H : send offline client put (state_with policy_beyond_latin1)
              = (Throw InvalidCharacterError,
                 snd (send offline client put (state_with policy_beyond_latin1))))
    by (vm_compute; reflexivity).
  split; [exact H|].
  destruct (send_throws_only offline client put _ _ _ H)
    as [Hc | (req & response & _ & Hf & Hj & _)].
  - left. exact Hc.
  - right. eauto.
Defined.

Lemma send_signs_for_sixty_seconds_witness :
  exists req,
    EvSign req ∈ trace (snd (send offline client get (state_with policy))) /\
    created req = 1700000000%Z /\
    expires req = JFin (inject_Z 1700000000 + inject_Z 60)%Q.
Proof.
  exists (sign_request offline client get None (state_with policy)
            (sample_url (js "test-key")) base_signature_inputs []).
  assert (Hin : EvSign (sign_request offline client get None (state_with policy)
                          (sample_url (js "test-key")) base_signature_inputs [])
                ∈ trace (snd (send offline client get (state_with policy))))
    by (vm_compute; constructor).
  split; [exact Hin|].
  exact (send_signs_for_sixty_seconds offline client get (state_with policy) _ Hin).
Defined.

Lemma constructors_build_live_commands_witness :
  exists s,
    new_PutObjectCommand (js "test-key") 0 (Some (BodyText (js "Hello Medoro!")))
      {| heap := [CellPolicy policy]; trace := []; ticks := 0 |}
      = (Ret (PutObjectCommand s 0 (Some (BodyText (js "Hello Medoro!")))),
         state_with policy) /\
    key s = js "test-key" /\ headers s = 1 /\
    heap (state_with policy) !! headers s = Some (CellHeaders []) /\
    wf_command (state_with policy)
      (PutObjectCommand s 0 (Some (BodyText (js "Hello Medoro!")))).
Proof.
  destruct (constructors_build_live_commands (js "test-key") 0
              (Some (BodyText (js "Hello Medoro!")))
              {| heap := [CellPolicy policy]; trace := []; ticks := 0 |} policy
              eq_refl I) as (_ & Hnew & _ & (s & Hn & Hk & Hh & Hwf) & _).
  exists s. split; [exact Hn|]. split; [exact Hk|]. split; [exact Hh|].
  split; [|exact Hwf]. rewrite Hh. exact Hnew.
Defined.

Lemma policy_schema_sound_witness :
  Schemas.ApiPutRequestValidationPolicySchema_parse (Schemas.policy_to_json policy)
    = Some policy /\
  Forall (fun kc => fst kc <> []) (conditions policy).
Proof.
  assert (H : Schemas.ApiPutRequestValidationPolicySchema_parse
                (Schemas.policy_to_json policy) = Some policy)
    by (vm_compute; reflexivity).
  split; [exact H|].
  destruct (SchemaExtras.policy_schema_sound _ _ H) as (_ & Hne & _). exact Hne.
Defined.

Lemma policy_survives_the_wire_witness :
  policy_plain policy = true /\
  exists encoded text v,
    Base64.btoa (Json.stringify (Schemas.policy_to_json policy)) = Some encoded /\
    Base64.decode encoded = Some text /\
    Json.parse text = Some v /\
    Schemas.ApiPutRequestValidationPolicySchema_parse v = Some policy.
Proof.
  assert (Hne : Forall (fun kc => fst kc <> []) (conditions policy)).
  { repeat constructor; discriminate. }
  assert (Hnd : NoDup (map fst (conditions policy))).
  { vm_compute. apply NoDup_cons. split; [|apply NoDup_singleton].
    rewrite list_elem_of_singleton. discriminate. }
  assert (Hb : Base64.btoa (Json.stringify (Schemas.policy_to_json policy))
               = Some (Base64.encode (Json.stringify (Schemas.policy_to_json policy))))
    by (vm_compute; reflexivity).
  split; [reflexivity|].
  destruct (SchemaExtras.policy_survives_the_wire policy _ Hne Hnd eq_refl Hb)
    as (text & v & H1 & H2 & H3).
  eexists _, text, v. split; [exact Hb|]. repeat split; assumption.
Defined.

Lemma encodable_policy_is_signed_witness :
  Base64.latin1 (Json.stringify (Schemas.policy_to_json policy)) = true /\
  exists req encoded,
    trace (snd (createSignedUrl offline client put None (state_with policy)))
      = [EvSign req] /\
    Base64.btoa (Json.stringify (Schemas.policy_to_json policy)) = Some encoded.
Proof.
  split; [vm_compute; reflexivity|].
  destruct (encodable_policy_is_signed offline client
              {| method := PUT; key := js "test-key"; headers := 1 |} 0
              (Some (BodyText (js "Hello Medoro!"))) None (state_with policy)
              policy [] (sample_url (js "test-key"))
              eq_refl eq_refl ltac:(vm_compute; reflexivity)
              ltac:(vm_compute; reflexivity) eq_refl)
    as (req & encoded & Ht & Hb & _).
  exists req, encoded. split; assumption.
Defined.

Lemma base64_helpers_round_trip_witness :
  MedoroClient.uint8ArrayToBase64 hi = Some (js "SGkh") /\
  MedoroClient.base64ToUint8Array (js "SGkh") = Some hi.
Proof.
  assert (H : MedoroClient.uint8ArrayToBase64 hi = Some (js "SGkh"))
    by (vm_compute; reflexivity).
  split; [exact H|]. exact (base64_helpers_round_trip _ _ H).
Defined.

Lemma atob_inverts_btoa_witness :
  Base64.btoa (js "Hi!") = Some (js "SGkh") /\ Atob.atob (js "SGkh") = Some (js "Hi!").
Proof.
  assert (H : Base64.btoa (js "Hi!") = Some (js "SGkh")) by (vm_compute; reflexivity).
  split; [exact H|]. exact (atob_inverts_btoa _ _ H).
Defined.

Lemma base64ToUint8Array_keeps_code_units_witness :
  MedoroClient.base64ToUint8Array (js "SGkh") = Some hi /\
  Atob.atob (js "SGkh") = Some (map Byte.to_N hi).
Proof.
  assert (H : MedoroClient.base64ToUint8Array (js "SGkh") = Some hi)
    by (vm_compute; reflexivity).
  split; [exact H|]. exact (base64ToUint8Array_keeps_code_units _ _ H).
Defined.

Lemma sign_callback_uses_the_key_of_the_client_witness :
  exists req,
    EvSign req ∈ trace (snd (createSignedUrl refusing client get None (state_with policy))) /\
    request_method req = GET /\
    exists er,
      sign req (js "base") = Err er /\
      message er = js "Failed to sign request: key is not usable".
Proof.
  exists (sign_request refusing client get None (state_with policy)
            (sample_url (js "test-key")) base_signature_inputs []).
  assert (Hin : EvSign (sign_request refusing client get None (state_with policy)
                          (sample_url (js "test-key")) base_signature_inputs [])
                ∈ trace (snd (createSignedUrl refusing client get None
                                (state_with policy))))
    by (vm_compute; constructor).
  split; [exact Hin|].
  destruct (sign_callback_uses_the_key_of_the_client refusing client get None
              (state_with policy) _ Hin) as (_ & Hm & _ & Hsign).
  split; [exact Hm|].
  destruct (Hsign (js "base")) as (er & H1 & _ & H2 & _).
  exists er. split; assumption.
Defined.

End MoreWitnesses.
